(** * MedGPT-X: the heuristic image classification engine

    A shallow embedding of the two analysis pipelines of the repository,
    [src/utils/clinicalImageAnalysis.ts] (the "clinical" profile) and
    [src/App.tsx] (the "perfect" profile), and the properties of the
    specification that concern them.

    Conventions of the embedding.
    - A finite JavaScript number is an exact rational ([Q]); the rounding of
      IEEE doubles is not modelled, except for the three band ratios, which
      are also given as the doubles of the source ([round53], [bandRatios64]).
      A division whose divisor can be zero returns a [num], which adds [NaN]
      and the two infinities.  Values that the source only builds from
      literals, sums, products and divisions by non-zero constants or guarded
      divisors stay in [Q].
    - [Math.sqrt] is the square root rounded down to a multiple of 2^-20.
    - A [Uint8ClampedArray] taken from [getImageData] is a list of pixels of
      four bytes each; [plen] is its JavaScript [length] and indices are the
      flat indices of the source.
    - A JavaScript object used as an ordered map is an association list in
      insertion order. *)

From Stdlib Require Import ZArith QArith Qround Qabs Qminmax Qpower.
From Stdlib Require Import String Ascii List Bool Lia Lqa.
From Stdlib Require Import Sorting.Sorted.
From Stdlib.Strings Require Import Byte.
Import ListNotations.
Open Scope string_scope.
Open Scope list_scope.
Open Scope Q_scope.

(** ** JavaScript numbers *)

Inductive num : Type :=
| Fin (q : Q)
| PInf
| NInf
| NaN.

(** [a / b] on finite operands.  All divisors of the source are counts or
    dimensions, so a zero divisor is +0. *)
Definition js_div (a b : Q) : num :=
  if Qeq_bool b 0 then
    (if Qeq_bool a 0 then NaN else if Qle_bool 0 a then PInf else NInf)
  else Fin (a / b).

Definition js_add (a b : num) : num :=
  match a, b with
  | NaN, _ | _, NaN => NaN
  | Fin x, Fin y => Fin (x + y)
  | PInf, NInf | NInf, PInf => NaN
  | PInf, _ | _, PInf => PInf
  | NInf, _ | _, NInf => NInf
  end.

Definition js_sub (a b : num) : num :=
  match a, b with
  | NaN, _ | _, NaN => NaN
  | Fin x, Fin y => Fin (x - y)
  | PInf, PInf | NInf, NInf => NaN
  | PInf, _ | _, NInf => PInf
  | NInf, _ | _, PInf => NInf
  end.

Definition Math_abs (a : num) : num :=
  match a with
  | Fin x => Fin (Qabs x)
  | PInf | NInf => PInf
  | NaN => NaN
  end.

Definition Qltb (a b : Q) : bool := negb (Qle_bool b a).
Definition Qgtb (a b : Q) : bool := Qltb b a.
Definition Qgeb (a b : Q) : bool := Qle_bool b a.

(** Comparisons; every comparison with [NaN] is false. *)
Definition js_lt (a b : num) : bool :=
  match a, b with
  | NaN, _ | _, NaN => false
  | Fin x, Fin y => Qltb x y
  | NInf, NInf | PInf, _ => false
  | NInf, _ => true
  | Fin _, PInf => true
  | Fin _, NInf => false
  end.

Definition js_le (a b : num) : bool :=
  match a, b with
  | NaN, _ | _, NaN => false
  | Fin x, Fin y => Qle_bool x y
  | NInf, _ | _, PInf => true
  | PInf, _ | _, NInf => false
  end.

Definition js_gt (a b : num) : bool := js_lt b a.
Definition js_ge (a b : num) : bool := js_le b a.

(** Equality of numbers as values: [Fin] up to [Qeq]. *)
Definition num_eq (a b : num) : Prop :=
  match a, b with
  | Fin x, Fin y => x == y
  | PInf, PInf | NInf, NInf | NaN, NaN => True
  | _, _ => False
  end.

(** [Math.round]: to the nearest integer, halves upwards. *)
Definition Math_round (q : Q) : Z := Qfloor (q + (1 # 2)).

(** [Math.sqrt] at resolution 2^-20, rounded down. *)
Definition Math_sqrt (q : Q) : Q :=
  inject_Z (Z.sqrt (Qfloor (q * inject_Z (2 ^ 40)))) / inject_Z (2 ^ 20).

(** [Math.pow(x, 2)]. *)
Definition Math_pow2 (x : Q) : Q := x * x.

(** [Math.max(...xs)] on the values of an object literal, which are never
    empty in the source (the empty spread would be [-Infinity]). *)
Definition Math_max (xs : list Q) : Q :=
  match xs with
  | [] => 0
  | x :: r => fold_left Qmax r x
  end.

(** ** Loops *)

(** The indices visited by [for (let i = lo; i < hi; i += step)]. *)
Fixpoint zrange_aux (fuel : nat) (i hi step : Z) : list Z :=
  match fuel with
  | O => []
  | S f => if (i <? hi)%Z then i :: zrange_aux f (i + step) hi step else []
  end.

Definition zrange (lo hi step : Z) : list Z :=
  zrange_aux (Z.to_nat (hi - lo)) lo hi step.

Definition forRange {S : Type} (lo hi step : Z) (body : Z -> S -> S) (s : S) : S :=
  fold_left (fun acc i => body i acc) (zrange lo hi step) s.

(** ** Pixel buffers *)

Record pixel : Type := mkPixel { red : byte; green : byte; blue : byte; alpha : byte }.

Definition PixelBuffer : Type := list pixel.

Definition chan (b : byte) : Z := Z.of_N (Byte.to_N b).

(** [pixels.length] *)
Definition plen (pixels : PixelBuffer) : Z := 4 * Z.of_nat (length pixels).

Definition black : pixel := mkPixel x00 x00 x00 xff.
Definition white : pixel := mkPixel xff xff xff xff.

(** The pixel that holds flat index [index] (a multiple of 4 in range). *)
Definition pixelAt (pixels : PixelBuffer) (index : Z) : pixel :=
  nth (Z.to_nat (index / 4)) pixels black.

(** [(pixels[i] + pixels[i + 1] + pixels[i + 2]) / 3] *)
Definition brightnessAt (pixels : PixelBuffer) (index : Z) : Q :=
  let p := pixelAt pixels index in
  inject_Z (chan (red p) + chan (green p) + chan (blue p)) / 3.

(** ** Visual feature extraction (shared by the two profiles) *)

Record VisualCounts : Type := mkCounts {
  histogram_c : list Z;
  totalBrightness : Z;
  edgeCount : Z;
  darkPixels : Z;
  brightPixels : Z;
  mediumPixels : Z
}.

(** [histogram[brightness]++] *)
Fixpoint incr_at (n : nat) (h : list Z) : list Z :=
  match n, h with
  | _, [] => []
  | O, c :: r => (c + 1)%Z :: r
  | S k, c :: r => c :: incr_at k r
  end.

Definition initialCounts : VisualCounts :=
  mkCounts (repeat 0%Z 256) 0 0 0 0 0.

(** One round of the pixel loop: [p] is the pixel at [i], [next] the pixel at
    [i + 4] when [i + 4 < pixels.length]. *)
Definition visualStep (darkBelow edgeAbove : Z) (p : pixel) (next : option pixel)
    (st : VisualCounts) : VisualCounts :=
  let r := chan (red p) in
  let g := chan (green p) in
  let b := chan (blue p) in
  let brightness := Math_round (inject_Z (r + g + b) / 3) in
  let dark := (brightness <? darkBelow)%Z in
  let bright := (brightness >? 200)%Z in
  let edge :=
    match next with
    | Some q => (Z.abs (r - chan (red q)) >? edgeAbove)%Z
    | None => false
    end in
  mkCounts
    (incr_at (Z.to_nat brightness) (histogram_c st))
    (totalBrightness st + brightness)
    (if edge then edgeCount st + 1 else edgeCount st)
    (if dark then darkPixels st + 1 else darkPixels st)
    (if dark then brightPixels st else if bright then brightPixels st + 1 else brightPixels st)
    (if dark then mediumPixels st else if bright then mediumPixels st else mediumPixels st + 1).

Fixpoint visualLoop (darkBelow edgeAbove : Z) (pixels : PixelBuffer)
    (st : VisualCounts) : VisualCounts :=
  match pixels with
  | [] => st
  | p :: rest =>
      visualLoop darkBelow edgeAbove rest
        (visualStep darkBelow edgeAbove p (head rest) st)
  end.

(** [histogram.reduce((sum, count, index) => sum + f(count, index), 0)] *)
Fixpoint reduce_indexed (f : Z -> Z -> Q) (index : Z) (h : list Z) (sum : Q) : Q :=
  match h with
  | [] => sum
  | count :: r => reduce_indexed f (index + 1) r (sum + f count index)
  end.

(** [calculateClinicalContrast] and [calculateContrastPerfect] have the same
    body. *)
Definition contrastOfHistogram (histogram : list Z) : Q :=
  let total := reduce_indexed (fun count _ => inject_Z count) 0 histogram 0 in
  if Qeq_bool total 0 then 0
  else
    let mean :=
      reduce_indexed (fun count index => inject_Z count * inject_Z index) 0 histogram 0
      / total in
    let variance :=
      reduce_indexed
        (fun count index =>
           if (count >? 0)%Z then inject_Z count * Math_pow2 (inject_Z index - mean)
           else 0)
        0 histogram 0 in
    let stdDev := Math_sqrt (variance / total) in
    Qmin (stdDev / 128) 1.

Definition calculateClinicalContrast := contrastOfHistogram.
Definition calculateContrastPerfect := contrastOfHistogram.

(** ** Symmetry (shared; the profiles differ in the stride) *)

Record SymAcc : Type := mkSym { symmetryScore : Q; comparisons : Z }.

Definition similarity (a b : Q) : Q :=
  let diff := Qabs (a - b) in
  Qmax 0 (255 - diff) / 255.

Definition comparePair (pixels : PixelBuffer) (firstIndex secondIndex : Z)
    (acc : SymAcc) : SymAcc :=
  if ((firstIndex <? plen pixels) && (secondIndex <? plen pixels))%Z%bool then
    mkSym
      (symmetryScore acc
       + similarity (brightnessAt pixels firstIndex) (brightnessAt pixels secondIndex))
      (comparisons acc + 1)
  else acc.

Definition symmetryResult (acc : SymAcc) : Q :=
  if (comparisons acc >? 0)%Z then symmetryScore acc / inject_Z (comparisons acc)
  else 0.

Definition bilateralSymmetryWith (stride : Z) (pixels : PixelBuffer)
    (width height : Z) : Q :=
  let centerX := (width / 2)%Z in
  symmetryResult
    (forRange 0 height stride
       (fun y =>
          forRange 0 centerX stride
            (fun x =>
               let leftIndex := ((y * width + x) * 4)%Z in
               let rightIndex := ((y * width + (width - 1 - x)) * 4)%Z in
               comparePair pixels leftIndex rightIndex))
       (mkSym 0 0)).

Definition verticalSymmetryWith (stride : Z) (pixels : PixelBuffer)
    (width height : Z) : Q :=
  let centerY := (height / 2)%Z in
  symmetryResult
    (forRange 0 width stride
       (fun x =>
          forRange 0 centerY stride
            (fun y =>
               let topIndex := ((y * width + x) * 4)%Z in
               let bottomIndex := (((height - 1 - y) * width + x) * 4)%Z in
               comparePair pixels topIndex bottomIndex))
       (mkSym 0 0)).

(** ** Centre of mass (identical in the two profiles) *)

Record MassAcc : Type := mkMass { centerMassX : Q; centerMassY : Q; totalMass : Q }.

Definition centerOfMass (pixels : PixelBuffer) (width height : Z) : MassAcc :=
  let acc :=
    forRange 0 height 2
      (fun y =>
         forRange 0 width 2
           (fun x acc =>
              let index := ((y * width + x) * 4)%Z in
              if (index <? plen pixels)%Z then
                let brightness := brightnessAt pixels index in
                let mass := brightness * brightness in
                mkMass (centerMassX acc + inject_Z x * mass)
                       (centerMassY acc + inject_Z y * mass)
                       (totalMass acc + mass)
              else acc))
      (mkMass 0 0 0) in
  if Qgtb (totalMass acc) 0 then
    mkMass (centerMassX acc / totalMass acc) (centerMassY acc / totalMass acc)
           (totalMass acc)
  else acc.

(** ** Texture (shared; the profiles differ in the stride and the tags) *)

Record TextureAcc : Type := mkTex { roughnessSum : Q; varianceSum : Q; centers : Z }.

Definition neighbors : list (Z * Z) :=
  [(-1, -1); (-1, 0); (-1, 1); (0, -1); (0, 1); (1, -1); (1, 0); (1, 1)]%Z.

(** The differences pushed on [neighborVariances]; [neighborDiffs] is their
    sum. *)
Definition neighborVariances (pixels : PixelBuffer) (width x y : Z)
    (centerBrightness : Q) : list Q :=
  fold_left
    (fun pushed d =>
       let neighborIndex := (((y + snd d) * width + (x + fst d)) * 4)%Z in
       if ((neighborIndex >=? 0) && (neighborIndex <? plen pixels - 2))%Z%bool then
         pushed ++ [Qabs (centerBrightness - brightnessAt pixels neighborIndex)]
       else pushed)
    neighbors [].

Definition sumQ (l : list Q) : Q := fold_left Qplus l 0.

Definition textureCenter (pixels : PixelBuffer) (width x y : Z) (acc : TextureAcc)
    : TextureAcc :=
  let centerIndex := ((y * width + x) * 4)%Z in
  if (centerIndex <? plen pixels - 4)%Z then
    let centerBrightness := brightnessAt pixels centerIndex in
    let pushed := neighborVariances pixels width x y centerBrightness in
    let neighborDiffs := sumQ pushed in
    let meanDiff := neighborDiffs / 8 in
    let variance :=
      fold_left (fun sum diff => sum + Math_pow2 (diff - meanDiff)) pushed 0
      / inject_Z (Z.of_nat (length pushed)) in
    mkTex (roughnessSum acc + neighborDiffs / 8) (varianceSum acc + variance)
          (centers acc + 1)
  else acc.

Record TextureCore : Type := mkTexture {
  roughness : Q;
  uniformity : Q;
  localVariance : Q;
  textureComplexity : Q
}.

Definition textureWith (stride : Z) (pixels : PixelBuffer) (width height : Z)
    : TextureCore :=
  let acc :=
    forRange 2 (height - 2) stride
      (fun y => forRange 2 (width - 2) stride (fun x => textureCenter pixels width x y))
      (mkTex 0 0 0) in
  let roughness :=
    if (centers acc >? 0)%Z then roughnessSum acc / inject_Z (centers acc) else 0 in
  let uniformity := Qmax 0 (255 - roughness) / 255 in
  let localVariance :=
    if (centers acc >? 0)%Z then varianceSum acc / inject_Z (centers acc) else 0 in
  mkTexture roughness uniformity localVariance
            (Qmin ((roughness + localVariance) / 200) 1).

(** ** File names *)

Definition lower_ascii (c : ascii) : ascii :=
  let n := nat_of_ascii c in
  if ((65 <=? n) && (n <=? 90))%nat%bool then ascii_of_nat (n + 32) else c.

Fixpoint lower (s : string) : string :=
  match s with
  | EmptyString => EmptyString
  | String c r => String (lower_ascii c) (lower r)
  end.

(** Whether [needle] occurs in [hay]. *)
Fixpoint includes (needle hay : string) : bool :=
  String.prefix needle hay
  || match hay with
     | EmptyString => false
     | String _ r => includes needle r
     end.

(** [/a1|a2|.../i.test(filename)] for literal lower-case alternatives. *)
Definition test_alternatives (alts : list string) (filename : string) : bool :=
  existsb (fun a => includes a (lower filename)) alts.

(** ** Visual features (shared numeric part) *)

Record VisualCore : Type := mkVisual {
  brightness : num;
  contrast : Q;
  edgeDensity : num;
  histogram : list Z;
  darkRatio : num;
  brightRatio : num;
  mediumRatio : num
}.

(** The body common to [performAdvancedVisualAnalysis] (dark below 50, edge
    above 30) and [analyzeVisualCharacteristicsPerfect] (60 and 25). *)
Definition visualCore (darkBelow edgeAbove : Z) (pixels : PixelBuffer) : VisualCore :=
  let st := visualLoop darkBelow edgeAbove pixels initialCounts in
  let totalPixels := inject_Z (plen pixels) / 4 in
  mkVisual
    (js_div (inject_Z (totalBrightness st)) totalPixels)
    (contrastOfHistogram (histogram_c st))
    (js_div (inject_Z (edgeCount st)) totalPixels)
    (histogram_c st)
    (js_div (inject_Z (darkPixels st)) totalPixels)
    (js_div (inject_Z (brightPixels st)) totalPixels)
    (js_div (inject_Z (mediumPixels st)) totalPixels).

(** The nine brightness, contrast and detail flags, the same in both
    profiles up to the names of two fields. *)
Record VisualFlags : Type := mkFlags {
  isDark : bool;
  isBright : bool;
  isMedium : bool;
  hasHighContrast : bool;
  hasClinicalContrast : bool;   (* [hasMediumContrast] in App.tsx *)
  hasLowContrast : bool;
  isHighDetail : bool;
  isClinicalDetail : bool;      (* [isMediumDetail] in App.tsx *)
  isLowDetail : bool
}.

Definition visualFlags (v : VisualCore) : VisualFlags :=
  mkFlags
    (js_lt (brightness v) (Fin 80))
    (js_gt (brightness v) (Fin 180))
    (js_ge (brightness v) (Fin 80) && js_le (brightness v) (Fin 180))
    (Qgtb (contrast v) 0.6)
    (Qgtb (contrast v) 0.3 && Qle_bool (contrast v) 0.6)
    (Qle_bool (contrast v) 0.3)
    (js_gt (edgeDensity v) (Fin 0.4))
    (js_gt (edgeDensity v) (Fin 0.2) && js_le (edgeDensity v) (Fin 0.4))
    (js_le (edgeDensity v) (Fin 0.2)).

(** ** Modalities *)

Inductive ImageType : Type :=
| chest_xray | brain_mri | ct_scan | ultrasound | bone_xray
| abdominal_ct | mammography | dental_xray | spine_xray | unknown.

Scheme Equality for ImageType.

Definition ScoreMap : Type := list (ImageType * Q).

(** [scores[key] += delta] on a key that the object has. *)
Definition add_score (key : ImageType) (delta : Q) (scores : ScoreMap) : ScoreMap :=
  map (fun e => if ImageType_beq (fst e) key then (fst e, snd e + delta) else e) scores.

(** [Object.entries(scores).find(([_, score]) => score === maxScore)?.[0]
    || 'unknown'] *)
Definition selectClassification (scores : ScoreMap) (maxScore : Q) : ImageType :=
  match find (fun e => Qeq_bool (snd e) maxScore) scores with
  | Some e => fst e
  | None => unknown
  end.

Inductive Urgency : Type := low | medium | high.
Inductive Severity : Type := mild | moderate | severe.

(** ** Stable sorting, as [Array.prototype.sort] with a comparator *)

Fixpoint insert_by {A : Type} (cmp : A -> A -> Q) (x : A) (l : list A) : list A :=
  match l with
  | [] => [x]
  | y :: r => if Qle_bool (cmp x y) 0 then x :: l else y :: insert_by cmp x r
  end.

Fixpoint sort_by {A : Type} (cmp : A -> A -> Q) (l : list A) : list A :=
  match l with
  | [] => []
  | x :: r => insert_by cmp x (sort_by cmp r)
  end.

(** * The clinical profile: [src/utils/clinicalImageAnalysis.ts] *)

Module Clinical.

Inductive PatternKey : Type := chest | brain | ct | bone.

Record FilenameScore : Type := mkFilenameScore { score : Q; conditions : list string }.

Definition clinicalPatterns : list (PatternKey * (list string * Q * list string)) :=
  [ (chest,
     (["chest"; "lung"; "thorax"; "cardiac"; "heart"; "pulmon"; "respiratory"; "cxr";
       "pneumonia"; "tuberculosis"], 0.95,
      ["pneumonia"; "atelectasis"; "cardiomegaly"; "pleural_effusion"]));
    (brain,
     (["brain"; "mri"; "head"; "neuro"; "cerebr"; "skull"; "cranial"; "intracranial";
       "stroke"; "tumor"], 0.95,
      ["normal"; "stroke"; "tumor"; "hemorrhage"]));
    (ct,
     (["ct"; "computed"; "tomography"; "scan"; "axial"; "coronal"; "sagittal"], 0.9,
      ["normal"; "abnormal"; "mass"; "inflammation"]));
    (bone,
     (["bone"; "fracture"; "orthop"; "joint"; "spine"; "skeletal"; "femur"; "tibia";
       "radius"; "osteo"], 0.9,
      ["normal"; "fracture"; "arthritis"; "osteoporosis"])) ].

Definition analyzeMedicalFilename (filename : string)
    : list (PatternKey * FilenameScore) :=
  map (fun entry =>
         let '(key, (patterns, weight, conds)) := entry in
         (key,
          mkFilenameScore (if test_alternatives patterns filename then weight else 0.0)
                          conds))
      clinicalPatterns.

Module Indicator.
Record t : Type := mk {
  pneumonia : bool;
  atelectasis : bool;
  cardiomegaly : bool;
  pleural_effusion : bool;
  normal_chest : bool
}.
End Indicator.

Record VisualAnalysis : Type := mkVisualAnalysis {
  visual_core :> VisualCore;
  pathologyIndicators : Indicator.t;
  clinicalFeatures : VisualFlags
}.

Definition performAdvancedVisualAnalysis (pixels : PixelBuffer) (width height : Z)
    : VisualAnalysis :=
  let v := visualCore 50 30 pixels in
  mkVisualAnalysis v
    (Indicator.mk
       (js_lt (darkRatio v) (Fin 0.6) && Qgtb (contrast v) 0.4)
       (js_gt (darkRatio v) (Fin 0.7) && js_gt (edgeDensity v) (Fin 0.3))
       (js_gt (mediumRatio v) (Fin 0.4) && js_gt (brightness v) (Fin 100))
       (js_gt (darkRatio v) (Fin 0.8) && Qltb (contrast v) 0.3)
       (js_gt (darkRatio v) (Fin 0.6) && js_lt (darkRatio v) (Fin 0.8)
        && Qgtb (contrast v) 0.3))
    (visualFlags v).

Definition calculateBilateralSymmetry := bilateralSymmetryWith 2.
Definition calculateVerticalSymmetry := verticalSymmetryWith 2.

Record AnatomicalFeatures : Type := mkAnatomical {
  isChestXray : bool;
  isBrainMRI : bool;
  isCTScan : bool;
  isSpineXray : bool;
  isMammography : bool
}.

Record ClinicalPositioning : Type := mkPositioning {
  isCentered : bool;
  hasGoodSymmetry : bool;
  hasClinicalSymmetry : bool;
  hasPoorSymmetry : bool
}.

Record StructuralAnalysis : Type := mkStructural {
  aspectRatio : num;
  centerMass_x : num;
  centerMass_y : num;
  bilateralSymmetry : Q;
  verticalSymmetry : Q;
  anatomicalFeatures : AnatomicalFeatures;
  clinicalPositioning : ClinicalPositioning
}.

Definition analyzeAnatomicalStructure (pixels : PixelBuffer) (width height : Z)
    : StructuralAnalysis :=
  let aspectRatio := js_div (inject_Z width) (inject_Z height) in
  let cm := centerOfMass pixels width height in
  let bilateralSymmetry := calculateBilateralSymmetry pixels width height in
  let verticalSymmetry := calculateVerticalSymmetry pixels width height in
  let cx := js_div (centerMassX cm) (inject_Z width) in
  let cy := js_div (centerMassY cm) (inject_Z height) in
  mkStructural aspectRatio cx cy bilateralSymmetry verticalSymmetry
    (mkAnatomical
       (js_gt aspectRatio (Fin 1.2) && js_lt aspectRatio (Fin 1.8))
       (js_lt (Math_abs (js_sub aspectRatio (Fin 1))) (Fin 0.2)
        && Qgtb bilateralSymmetry 0.7)
       (js_lt (Math_abs (js_sub aspectRatio (Fin 1))) (Fin 0.15))
       (js_lt aspectRatio (Fin 0.6))
       (js_lt aspectRatio (Fin 0.8) && js_gt aspectRatio (Fin 0.4)))
    (mkPositioning
       (js_lt (Math_abs (js_sub cx (Fin 0.5))) (Fin 0.1)
        && js_lt (Math_abs (js_sub cy (Fin 0.5))) (Fin 0.1))
       (Qgtb bilateralSymmetry 0.7)
       (Qgtb bilateralSymmetry 0.4 && Qle_bool bilateralSymmetry 0.7)
       (Qle_bool bilateralSymmetry 0.4)).

Record ClinicalTexture : Type := mkClinicalTexture {
  isSmooth : bool;
  isNormal : bool;
  isComplex : bool;
  hasArtifacts : bool;
  isHighQuality : bool
}.

Record TextureAnalysis : Type := mkTextureAnalysis {
  texture_core :> TextureCore;
  patterns : list string;
  clinicalTexture : ClinicalTexture
}.

Definition performTextureAnalysis (pixels : PixelBuffer) (width height : Z)
    : TextureAnalysis :=
  let t := textureWith 2 pixels width height in
  let detail :=
    (if Qgtb (roughness t) 60 then ["high-detail"; "complex-texture"; "possible-pathology"]
     else if Qgtb (roughness t) 30 then ["medium-detail"; "moderate-texture"; "normal-variation"]
     else ["smooth"; "low-detail"; "homogeneous"]) in
  let evenness :=
    (if Qgtb (uniformity t) 0.8 then ["uniform"; "homogeneous"; "normal-tissue"]
     else if Qgtb (uniformity t) 0.5 then ["semi-uniform"; "mild-variation"]
     else ["heterogeneous"; "varied"; "possible-abnormality"]) in
  let noise :=
    (if Qgtb (localVariance t) 120 then ["high-variance"; "noisy"; "artifact-present"]
     else if Qgtb (localVariance t) 60 then ["medium-variance"; "normal-noise"]
     else ["low-variance"; "clean"; "high-quality"]) in
  let patterns := (detail ++ evenness ++ noise) in
  mkTextureAnalysis t patterns
    (mkClinicalTexture
       (Qltb (roughness t) 30)
       (Qgeb (roughness t) 30 && Qle_bool (roughness t) 60)
       (Qgtb (roughness t) 60)
       (Qgtb (localVariance t) 120)
       (Qltb (localVariance t) 60 && Qgtb (uniformity t) 0.6)).

(** *** Pathology scoring *)

Inductive Pathology : Type :=
| pneumonia | atelectasis | cardiomegaly | pleural_effusion | pneumothorax
| consolidation | edema | emphysema | fibrosis | nodule | mass | infiltration
| stroke | tumor | hemorrhage
| normal.

Scheme Equality for Pathology.

Definition PathologyScoreMap : Type := list (Pathology * Q).

(** [pathologies.key = value] *)
Definition assign (key : Pathology) (value : Q) (m : PathologyScoreMap)
    : PathologyScoreMap :=
  map (fun e => if Pathology_beq (fst e) key then (fst e, value) else e) m.

Definition when {A : Type} (c : bool) (f : A -> A) (a : A) : A := if c then f a else a.

Record PathologyDetection : Type := mkDetection {
  pathologies : PathologyScoreMap;
  topPathologies : list (Pathology * Q);
  hasPathology : bool;
  detectionConfidence : Q      (* the [confidence] field of the returned object *)
}.

Definition noPathologies : PathologyScoreMap :=
  map (fun p => (p, 0))
      [pneumonia; atelectasis; cardiomegaly; pleural_effusion; pneumothorax;
       consolidation; edema; emphysema; fibrosis; nodule; mass; infiltration;
       stroke; tumor; hemorrhage; normal].

Definition scorePathologies (visualAnalysis : VisualAnalysis) : PathologyScoreMap :=
  let ind := pathologyIndicators visualAnalysis in
  let p0 := noPathologies in
  let p1 := when (Indicator.pneumonia ind)
              (fun p => assign infiltration 0.6 (assign consolidation 0.7
                          (assign pneumonia 0.85 p))) p0 in
  let p2 := when (Indicator.atelectasis ind)
              (fun p => assign consolidation 0.5 (assign atelectasis 0.8 p)) p1 in
  let p3 := when (Indicator.cardiomegaly ind) (assign cardiomegaly 0.75) p2 in
  let p4 := when (Indicator.pleural_effusion ind)
              (fun p => assign edema 0.4 (assign pleural_effusion 0.8 p)) p3 in
  let p5 := when (Indicator.normal_chest ind) (assign normal 0.9) p4 in
  let p6 := when (Qgtb (contrast visualAnalysis) 0.7
                  && js_gt (edgeDensity visualAnalysis) (Fin 0.5))
              (fun p => assign mass 0.4 (assign nodule 0.6 p)) p5 in
  let p7 := when (js_gt (brightRatio visualAnalysis) (Fin 0.3)
                  && js_lt (darkRatio visualAnalysis) (Fin 0.4))
              (assign emphysema 0.5) p6 in
  when (js_gt (darkRatio visualAnalysis) (Fin 0.9)) (assign pneumothorax 0.7) p7.

Definition detectPathologies (pixels : PixelBuffer) (width height : Z)
    (visualAnalysis : VisualAnalysis) : PathologyDetection :=
  let pathologies := scorePathologies visualAnalysis in
  let sortedPathologies :=
    firstn 5
      (sort_by (fun a b => snd b - snd a)
         (filter (fun e => Qgtb (snd e) 0.3) pathologies)) in
  mkDetection pathologies sortedPathologies
    (match sortedPathologies with
     | [] => false
     | e :: _ => Qgtb (snd e) 0.5
     end)
    (match sortedPathologies with
     | [] => 0
     | e :: _ => snd e
     end).

(** *** Rule-based modality scores *)

Definition performClinicalClassification (pixels : PixelBuffer) (width height : Z)
    : ScoreMap :=
  let visualFeatures := performAdvancedVisualAnalysis pixels width height in
  let structuralFeatures := analyzeAnatomicalStructure pixels width height in
  let textureFeatures := performTextureAnalysis pixels width height in
  let vf := clinicalFeatures visualFeatures in
  let af := anatomicalFeatures structuralFeatures in
  let ct := clinicalTexture textureFeatures in
  let chest_score :=
    if isDark vf && hasHighContrast vf && isChestXray af
       && js_gt (edgeDensity visualFeatures) (Fin 0.25) then 0.95 else 0 in
  let brain_score :=
    if isBrainMRI af && isMedium vf
       && hasGoodSymmetry (clinicalPositioning structuralFeatures) then 0.93 else 0 in
  let ct_fires := isCTScan af && isMedium vf && isNormal ct in
  let bone_score :=
    if hasHighContrast vf && js_gt (brightRatio visualFeatures) (Fin 0.15)
       && isComplex ct then 0.88 else 0 in
  let ultrasound_score :=
    if isDark vf && hasLowContrast vf
       && existsb (String.eqb "noisy") (patterns textureFeatures) then 0.85 else 0 in
  let mammography_score :=
    if isMammography af && isMedium vf && hasHighContrast vf then 0.87 else 0 in
  let spine_score :=
    if isSpineXray af && hasHighContrast vf
       && js_gt (edgeDensity visualFeatures) (Fin 0.4) then 0.86 else 0 in
  [ (chest_xray, chest_score);
    (brain_mri, brain_score);
    (ct_scan, if ct_fires then 0.9 else 0);
    (ultrasound, ultrasound_score);
    (bone_xray, bone_score);
    (abdominal_ct, if ct_fires then 0.4 else 0);
    (mammography, mammography_score);
    (dental_xray, 0);
    (spine_xray, spine_score) ].

(** *** The ensemble *)

Record Analyses : Type := mkAnalyses {
  filename : list (PatternKey * FilenameScore);
  visual : VisualAnalysis;
  structural : StructuralAnalysis;
  texture : TextureAnalysis;
  pathology : PathologyDetection;
  clinical : ScoreMap
}.

Record Classification : Type := mkClassification {
  type : ImageType;
  confidence : Q;
  scores : ScoreMap;
  analyses : Analyses
}.

Definition zeroScores : ScoreMap :=
  [ (chest_xray, 0); (brain_mri, 0); (ct_scan, 0); (ultrasound, 0); (bone_xray, 0);
    (abdominal_ct, 0); (mammography, 0); (dental_xray, 0); (spine_xray, 0) ].

Definition addFilename (scores : ScoreMap) (entry : PatternKey * FilenameScore)
    : ScoreMap :=
  let score := score (snd entry) in
  match fst entry with
  | chest => add_score chest_xray (score * 0.2) scores
  | brain => add_score brain_mri (score * 0.2) scores
  | ct => add_score abdominal_ct (score * 0.08) (add_score ct_scan (score * 0.12) scores)
  | bone => add_score spine_xray (score * 0.05) (add_score bone_xray (score * 0.15) scores)
  end.

Definition chestAssociated (p : Pathology) : bool :=
  existsb (Pathology_beq p) [pneumonia; atelectasis; cardiomegaly; pleural_effusion].

Definition ensembleScores (analyses : Analyses) : ScoreMap :=
  let s1 := fold_left addFilename (filename analyses) zeroScores in
  let s2 :=
    fold_left (fun s e => add_score (fst e) (snd e * 0.6) s) (clinical analyses) s1 in
  let pathology := pathology analyses in
  match topPathologies pathology with
  | e :: _ =>
      if hasPathology pathology && chestAssociated (fst e)
      then add_score chest_xray 0.15 s2 else s2
  | [] => s2
  end.

Definition classifyMedicalImageClinical (analyses : Analyses) : Classification :=
  let scores := ensembleScores analyses in
  let maxScore := Math_max (map snd scores) in
  let classification := selectClassification scores maxScore in
  let confidence := Qmin (maxScore * 100) 97 in
  mkClassification classification (Qmax confidence 80) scores analyses.

(** *** The diagnosis record

    The prose of the report (findings, explanations, treatments) is static
    text selected by the same [switch]; the fields below are the ones that
    carry data. *)

Inductive Condition : Type :=
| Detected (p : Pathology)            (* [formatConditionName(condition)] *)
| NormalBrainAnatomy
| ClinicalAnalysisComplete.

Record Finding : Type := mkFinding {
  condition : Condition;
  probability : Z;
  severity : Severity
}.

Record ClinicalAnalysisResult : Type := mkResult {
  imageType : ImageType;
  subType : option string;
  reportedConfidence : Z;       (* the [confidence] field of the result *)
  urgency : Urgency;
  clinicalPathologies : list Finding
}.

Definition determineChestXrayUrgency (pathologies : list (Pathology * Q)) : Urgency :=
  match pathologies with
  | [] => low
  | (primaryCondition, confidence) :: _ =>
      if Qltb confidence 0.5 then low
      else if Qgtb confidence 0.8 then
        match primaryCondition with
        | pneumonia | pleural_effusion => high
        | _ => medium
        end
      else medium
  end.

Definition determineSeverity (probability : Q) : Severity :=
  if Qgtb probability 0.8 then severe
  else if Qgtb probability 0.6 then moderate
  else mild.

Definition generateClinicalDiagnosis (classification : Classification)
    (file_name : string) : ClinicalAnalysisResult :=
  let type := type classification in
  let confidence := confidence classification in
  let analyses := analyses classification in
  match type with
  | chest_xray =>
      let topPathologies := topPathologies (pathology analyses) in
      mkResult type
        (Some "PA/AP chest radiograph with CheXNet-level analysis")
        (Math_round confidence)
        (determineChestXrayUrgency topPathologies)
        (map (fun e =>
                mkFinding (Detected (fst e)) (Math_round (snd e * 100))
                          (determineSeverity (snd e)))
             topPathologies)
  | brain_mri =>
      mkResult type
        (Some "T1/T2 weighted MRI with clinical-grade analysis")
        (Math_round confidence)
        low
        [mkFinding NormalBrainAnatomy (Math_round confidence) mild]
  | _ =>
      mkResult unknown
        None
        (Math_round confidence)
        medium
        [mkFinding ClinicalAnalysisComplete (Math_round confidence) mild]
  end.

(** The object that [performClinicalImageAnalysis] hands to the ensemble. *)
Definition clinicalAnalyses (pixels : PixelBuffer) (file_name : string)
    (width height : Z) : Analyses :=
  let visualAnalysis := performAdvancedVisualAnalysis pixels width height in
  mkAnalyses (analyzeMedicalFilename file_name) visualAnalysis
    (analyzeAnatomicalStructure pixels width height)
    (performTextureAnalysis pixels width height)
    (detectPathologies pixels width height visualAnalysis)
    (performClinicalClassification pixels width height).

Definition performClinicalImageAnalysis (pixels : PixelBuffer) (file_name : string)
    (width height : Z) : ClinicalAnalysisResult :=
  let clinicalResult :=
    classifyMedicalImageClinical (clinicalAnalyses pixels file_name width height) in
  generateClinicalDiagnosis clinicalResult file_name.

End Clinical.

(** * The perfect profile: [src/App.tsx] *)

Module Perfect.

Module Key.
Inductive t : Type :=
| brain | chest | ct | xray | ultrasound | bone | abdomen | mammography | dental.
End Key.

Definition is_word_char (c : ascii) : bool :=
  let n := nat_of_ascii c in
  (((48 <=? n) && (n <=? 57)) || ((65 <=? n) && (n <=? 90))
   || ((97 <=? n) && (n <=? 122)) || (n =? 95))%nat%bool.

(** [/us\b/i]: "us" followed by the end of the name or a non-word character. *)
Fixpoint test_us_boundary (s : string) : bool :=
  match s with
  | String a (String b r as t) =>
      (Ascii.eqb (lower_ascii a) "u" && Ascii.eqb (lower_ascii b) "s"
       && match r with
          | EmptyString => true
          | String c _ => negb (is_word_char c)
          end)
      || test_us_boundary t
  | _ => false
  end.

(** Each entry: the key, the test of its pattern and its weight. *)
Definition medicalPatterns : list (Key.t * (string -> bool) * Q) :=
  [ (Key.brain,
     test_alternatives ["brain"; "mri"; "head"; "neuro"; "cerebr"; "skull"; "cranial";
                        "intracranial"], 0.9);
    (Key.chest,
     test_alternatives ["chest"; "lung"; "thorax"; "cardiac"; "heart"; "pulmon";
                        "respiratory"; "cxr"], 0.9);
    (Key.ct,
     test_alternatives ["ct"; "computed"; "tomography"; "scan"; "axial"; "coronal";
                        "sagittal"], 0.8);
    (Key.xray,
     test_alternatives ["xray"; "x-ray"; "radiograph"; "radio"; "plain"; "film"], 0.8);
    (Key.ultrasound,
     (fun f =>
        test_alternatives ["ultrasound"; "echo"; "doppler"; "sonogram"; "sono"] f
        || test_us_boundary f), 0.9);
    (Key.bone,
     test_alternatives ["bone"; "fracture"; "orthop"; "joint"; "spine"; "skeletal";
                        "femur"; "tibia"; "radius"], 0.8);
    (Key.abdomen,
     test_alternatives ["abdomen"; "abdom"; "liver"; "kidney"; "pelvis"; "gastro";
                        "intestin"], 0.8);
    (Key.mammography, test_alternatives ["mammo"; "breast"; "mammography"], 0.9);
    (Key.dental,
     test_alternatives ["dental"; "tooth"; "teeth"; "oral"; "jaw"; "mandible";
                        "maxilla"], 0.9) ].

Definition analyzeFilenamePerfect (filename : string) : list (Key.t * Q) :=
  map (fun entry : Key.t * (string -> bool) * Q =>
         let '(key, test, weight) := entry in
         (key, if test filename then weight else 0.0))
      medicalPatterns.

Record VisualIntelligence : Type := mkVisualIntelligence {
  visual_core :> VisualCore;
  visual_flags :> VisualFlags
}.

Definition analyzeVisualCharacteristicsPerfect (pixels : PixelBuffer)
    (width height : Z) : VisualIntelligence :=
  let v := visualCore 60 25 pixels in
  mkVisualIntelligence v (visualFlags v).

Definition calculateSymmetryPerfect := bilateralSymmetryWith 3.
Definition calculateVerticalSymmetryPerfect := verticalSymmetryWith 3.

Record StructuralIntelligence : Type := mkStructure {
  aspectRatio : num;
  centerMass_x : num;
  centerMass_y : num;
  symmetry : Q;
  verticalSymmetry : Q;
  isSquare : bool;
  isWide : bool;
  isTall : bool;
  isRectangular : bool;
  isCentered : bool;
  hasGoodSymmetry : bool;
  hasMediumSymmetry : bool;
  hasPoorSymmetry : bool
}.

Definition analyzeImageStructurePerfect (pixels : PixelBuffer) (width height : Z)
    : StructuralIntelligence :=
  let aspectRatio := js_div (inject_Z width) (inject_Z height) in
  let cm := centerOfMass pixels width height in
  let symmetry := calculateSymmetryPerfect pixels width height in
  let verticalSymmetry := calculateVerticalSymmetryPerfect pixels width height in
  let cx := js_div (centerMassX cm) (inject_Z width) in
  let cy := js_div (centerMassY cm) (inject_Z height) in
  mkStructure aspectRatio cx cy symmetry verticalSymmetry
    (js_lt (Math_abs (js_sub aspectRatio (Fin 1))) (Fin 0.15))
    (js_gt aspectRatio (Fin 1.3))
    (js_lt aspectRatio (Fin 0.77))
    (js_gt aspectRatio (Fin 1.15) || js_lt aspectRatio (Fin 0.85))
    (js_lt (Math_abs (js_sub cx (Fin 0.5))) (Fin 0.1)
     && js_lt (Math_abs (js_sub cy (Fin 0.5))) (Fin 0.1))
    (Qgtb symmetry 0.7)
    (Qgtb symmetry 0.4 && Qle_bool symmetry 0.7)
    (Qle_bool symmetry 0.4).

Record TextureIntelligence : Type := mkTextureIntelligence {
  texture_core :> TextureCore;
  patterns : list string
}.

Definition analyzeTexturePatternsPerfect (pixels : PixelBuffer) (width height : Z)
    : TextureIntelligence :=
  let t := textureWith 3 pixels width height in
  let detail :=
    (if Qgtb (roughness t) 50 then ["high-detail"; "complex-texture"]
     else if Qgtb (roughness t) 25 then ["medium-detail"; "moderate-texture"]
     else ["smooth"; "low-detail"]) in
  let evenness :=
    (if Qgtb (uniformity t) 0.8 then ["uniform"; "homogeneous"]
     else if Qgtb (uniformity t) 0.5 then ["semi-uniform"]
     else ["heterogeneous"; "varied"]) in
  let noise :=
    (if Qgtb (localVariance t) 100 then ["high-variance"; "noisy"]
     else if Qgtb (localVariance t) 50 then ["medium-variance"]
     else ["low-variance"; "clean"]) in
  mkTextureIntelligence t (detail ++ evenness ++ noise).

Record AnatomicalIntelligence : Type := mkAnatomicalIntelligence {
  features : list string;
  featureConfidence : Q        (* the [confidence] field of the returned object *)
}.

Definition detectAnatomicalFeaturesPerfect (pixels : PixelBuffer) (width height : Z)
    : AnatomicalIntelligence :=
  let visual := analyzeVisualCharacteristicsPerfect pixels width height in
  let structure := analyzeImageStructurePerfect pixels width height in
  let push (c : bool) (tags : list string) := if c then tags else [] in
  let features :=
    (push (hasGoodSymmetry structure && isSquare structure && isMedium visual
           && hasHighContrast visual)
          ["bilateral-brain-symmetry"; "brain-tissue-contrast"; "cranial-structure"]
     ++ push (isDark visual && hasHighContrast visual && isRectangular structure
              && js_gt (edgeDensity visual) (Fin 0.3))
          ["rib-cage-structure"; "lung-field-pattern"; "thoracic-anatomy"]
     ++ push (isMedium visual && isSquare structure && hasClinicalContrast visual
              && isHighDetail visual)
          ["cross-sectional-anatomy"; "ct-density-patterns"; "axial-slice"]
     ++ push (hasHighContrast visual && isHighDetail visual
              && js_gt (brightRatio visual) (Fin 0.1))
          ["bone-cortex"; "skeletal-structure"; "high-density-material"]
     ++ push (isDark visual && hasLowContrast visual && isLowDetail visual)
          ["acoustic-shadowing"; "soft-tissue-echoes"; "ultrasound-artifacts"]
     ++ push (isMedium visual && hasHighContrast visual && isTall structure)
          ["breast-tissue"; "mammographic-density"; "glandular-pattern"]) in
  mkAnatomicalIntelligence features
    (Qmin (inject_Z (Z.of_nat (length features)) / 6) 1).

Definition performMedicalImageClassification (pixels : PixelBuffer)
    (width height : Z) : ScoreMap :=
  let visual := analyzeVisualCharacteristicsPerfect pixels width height in
  let structure := analyzeImageStructurePerfect pixels width height in
  let texture := analyzeTexturePatternsPerfect pixels width height in
  let ct_fires :=
    isMedium visual && isSquare structure && hasClinicalContrast visual
    && Qgtb (textureComplexity texture) 0.5 in
  [ (brain_mri,
     if hasGoodSymmetry structure && isSquare structure && isMedium visual
        && hasHighContrast visual then 0 + 0.9 else 0);
    (chest_xray,
     if isDark visual && hasHighContrast visual && isRectangular structure
        && js_gt (edgeDensity visual) (Fin 0.25) then 0 + 0.9 else 0);
    (ct_scan, if ct_fires then 0 + 0.8 else 0);
    (ultrasound,
     if isDark visual && hasLowContrast visual
        && existsb (String.eqb "noisy") (patterns texture) then 0 + 0.8 else 0);
    (bone_xray,
     if hasHighContrast visual && js_gt (brightRatio visual) (Fin 0.15)
        && Qgtb (textureComplexity texture) 0.6 then 0 + 0.85 else 0);
    (abdominal_ct, if ct_fires then 0 + 0.3 else 0);
    (mammography,
     if isMedium visual && hasHighContrast visual && isTall structure
        && js_gt (edgeDensity visual) (Fin 0.3) then 0 + 0.85 else 0);
    (dental_xray,
     if hasHighContrast visual && isWide structure
        && js_gt (brightRatio visual) (Fin 0.2) then 0 + 0.8 else 0);
    (spine_xray,
     if hasHighContrast visual && isTall structure
        && js_gt (edgeDensity visual) (Fin 0.4) then 0 + 0.8 else 0) ].

Record Analyses : Type := mkAnalyses {
  filename : list (Key.t * Q);
  visual : VisualIntelligence;
  structural : StructuralIntelligence;
  texture : TextureIntelligence;
  anatomical : AnatomicalIntelligence;
  medical : ScoreMap
}.

Record Classification : Type := mkClassification {
  type : ImageType;
  confidence : Q;
  scores : ScoreMap;
  analyses : Analyses
}.

Definition zeroScores : ScoreMap :=
  [ (brain_mri, 0); (chest_xray, 0); (ct_scan, 0); (ultrasound, 0); (bone_xray, 0);
    (abdominal_ct, 0); (mammography, 0); (dental_xray, 0); (spine_xray, 0) ].

Definition addFilename (scores : ScoreMap) (entry : Key.t * Q) : ScoreMap :=
  let score := snd entry in
  match fst entry with
  | Key.brain => add_score brain_mri (score * 0.25) scores
  | Key.chest => add_score chest_xray (score * 0.25) scores
  | Key.ct => add_score abdominal_ct (score * 0.1) (add_score ct_scan (score * 0.15) scores)
  | Key.xray =>
      add_score spine_xray (score * 0.05)
        (add_score bone_xray (score * 0.1) (add_score chest_xray (score * 0.1) scores))
  | Key.ultrasound => add_score ultrasound (score * 0.25) scores
  | Key.bone => add_score spine_xray (score * 0.05) (add_score bone_xray (score * 0.2) scores)
  | Key.abdomen => add_score abdominal_ct (score * 0.25) scores
  | Key.mammography => add_score mammography (score * 0.25) scores
  | Key.dental => add_score dental_xray (score * 0.25) scores
  end.

Definition isOneOf (tags : list string) (feature : string) : bool :=
  existsb (String.eqb feature) tags.

Definition addFeature (scores : ScoreMap) (feature : string) : ScoreMap :=
  (if isOneOf ["bilateral-brain-symmetry"; "brain-tissue-contrast"; "cranial-structure"]
        feature
   then add_score brain_mri 0.08 scores
   else if isOneOf ["rib-cage-structure"; "lung-field-pattern"; "thoracic-anatomy"] feature
   then add_score chest_xray 0.08 scores
   else if isOneOf ["bone-cortex"; "skeletal-structure"] feature
   then add_score spine_xray 0.04 (add_score bone_xray 0.08 scores)
   else if isOneOf ["cross-sectional-anatomy"; "ct-density-patterns"] feature
   then add_score abdominal_ct 0.02 (add_score ct_scan 0.06 scores)
   else if isOneOf ["acoustic-shadowing"; "soft-tissue-echoes"] feature
   then add_score ultrasound 0.08 scores
   else if isOneOf ["breast-tissue"; "mammographic-density"] feature
   then add_score mammography 0.08 scores
   else scores).

Definition ensembleScores (analyses : Analyses) : ScoreMap :=
  let s1 := fold_left addFilename (filename analyses) zeroScores in
  let s2 :=
    fold_left (fun s e => add_score (fst e) (snd e * 0.5) s) (medical analyses) s1 in
  fold_left addFeature (features (anatomical analyses)) s2.

Definition classifyMedicalImagePerfect (analyses : Analyses) : Classification :=
  let scores := ensembleScores analyses in
  let maxScore := Math_max (map snd scores) in
  let classification := selectClassification scores maxScore in
  let confidence := Qmin (maxScore * 100) 98 in
  mkClassification classification (Qmax confidence 75) scores analyses.

(** The object that [performPerfectImageAnalysis] hands to the ensemble. *)
Definition perfectAnalyses (pixels : PixelBuffer) (file_name : string)
    (width height : Z) : Analyses :=
  mkAnalyses (analyzeFilenamePerfect file_name)
    (analyzeVisualCharacteristicsPerfect pixels width height)
    (analyzeImageStructurePerfect pixels width height)
    (analyzeTexturePatternsPerfect pixels width height)
    (detectAnatomicalFeaturesPerfect pixels width height)
    (performMedicalImageClassification pixels width height).

End Perfect.

(** * The reports *)

(** ** Further operations on numbers *)

Definition js_mul (a b : num) : num :=
  match a, b with
  | NaN, _ | _, NaN => NaN
  | Fin x, Fin y => Fin (x * y)
  | Fin x, PInf | PInf, Fin x =>
      if Qeq_bool x 0 then NaN else if Qle_bool 0 x then PInf else NInf
  | Fin x, NInf | NInf, Fin x =>
      if Qeq_bool x 0 then NaN else if Qle_bool 0 x then NInf else PInf
  | PInf, PInf | NInf, NInf => PInf
  | PInf, NInf | NInf, PInf => NInf
  end.

(** [Math.round] on a number that may not be finite. *)
Definition js_round (a : num) : num :=
  match a with
  | Fin q => Fin (inject_Z (Math_round q))
  | _ => a
  end.

(** ** The clinical report: [generateClinicalDiagnosis] and its helpers *)

Module ClinicalReport.

Definition getClinicalAnatomicalRegion (imageType : ImageType) : string :=
  match imageType with
  | chest_xray => "Thoracic cavity (cardiopulmonary system)"
  | brain_mri => "Intracranial structures (central nervous system)"
  | ct_scan => "Cross-sectional anatomy (multi-organ system)"
  | bone_xray => "Musculoskeletal system (osseous structures)"
  | spine_xray => "Vertebral column (spinal anatomy)"
  | abdominal_ct => "Abdominal cavity (visceral organs)"
  | ultrasound => "Soft tissue structures (real-time imaging)"
  | mammography => "Breast tissue (mammary gland)"
  | dental_xray => "Oral cavity (dental structures)"
  | unknown => "Unspecified anatomical region"
  end.

Definition getClinicalImagingModality (imageType : ImageType) : string :=
  match imageType with
  | brain_mri => "Magnetic Resonance Imaging (MRI) - Clinical grade"
  | chest_xray | bone_xray | spine_xray | dental_xray =>
      "Digital Radiography (X-ray) - Clinical grade"
  | ct_scan | abdominal_ct => "Computed Tomography (CT) - Clinical grade"
  | ultrasound => "Diagnostic Ultrasonography - Clinical grade"
  | mammography => "Digital Mammography - Clinical grade"
  | unknown => "Unknown imaging modality"
  end.

Definition getClinicalQualityAssessment (analyses : Clinical.Analyses) : string :=
  let visual := Clinical.visual analyses in
  let texture := Clinical.texture analyses in
  if Qgtb (contrast (Clinical.visual_core visual)) 0.6
     && Clinical.isHighQuality (Clinical.clinicalTexture texture)
     && js_gt (edgeDensity (Clinical.visual_core visual)) (Fin 0.3)
  then "Excellent clinical quality - optimal for diagnostic interpretation"
  else if Qgtb (contrast (Clinical.visual_core visual)) 0.4
          && Qgtb (uniformity (Clinical.texture_core texture)) 0.5
  then "Good clinical quality - adequate for accurate diagnosis"
  else if Qgtb (contrast (Clinical.visual_core visual)) 0.25
          || Qgtb (uniformity (Clinical.texture_core texture)) 0.4
  then "Acceptable clinical quality - diagnostic with some limitations"
  else "Limited clinical quality - consider repeat imaging if clinically indicated".

Definition getClinicalDetectionMethods (imageType : ImageType)
    (analyses : Clinical.Analyses) : list string :=
  let methods :=
    [ "CheXNet-inspired deep learning analysis";
      "Multi-modal computer vision processing";
      "Clinical-grade pathology detection";
      "Advanced statistical pattern recognition";
      "Ensemble classification methods" ] in
  match imageType with
  | chest_xray =>
      methods ++ [ "14-pathology CheXNet classification";
                   "Bilateral lung field analysis";
                   "Cardiac silhouette measurement";
                   "Pleural space evaluation";
                   "Pathology probability scoring" ]
  | brain_mri =>
      methods ++ [ "Bilateral symmetry quantification";
                   "Brain tissue segmentation";
                   "Ventricular system assessment";
                   "Gray-white matter analysis";
                   "Pathological feature detection" ]
  | ct_scan =>
      methods ++ [ "Cross-sectional anatomy analysis";
                   "Hounsfield unit assessment";
                   "Contrast enhancement evaluation";
                   "Multi-planar reconstruction";
                   "Organ boundary detection" ]
  | _ => methods
  end.

Record AnalysisMetrics : Type := mkMetrics {
  brightnessMetric : num;          (* [analysisMetrics.brightness] *)
  contrastMetric : Z;              (* [analysisMetrics.contrast] *)
  symmetryMetric : Z;              (* [analysisMetrics.symmetry] *)
  edgeDensityMetric : num;         (* [analysisMetrics.edgeDensity] *)
  textureComplexityMetric : Z      (* [analysisMetrics.textureComplexity] *)
}.

(** The [technicalDetails] of [baseResult], which every branch of
    [generateClinicalDiagnosis] spreads into its result; the formatted
    strings of [imageCharacteristics] are left out. *)
Record TechnicalDetails : Type := mkTechnicalDetails {
  anatomicalRegion : string;
  imagingModality : string;
  qualityAssessment : string;
  detectionMethods : list string;
  analysisMetrics : AnalysisMetrics;
  heatmapAvailable : bool
}.

Definition technicalDetails (classification : Clinical.Classification)
    : TechnicalDetails :=
  let type := Clinical.type classification in
  let analyses := Clinical.analyses classification in
  let visual := Clinical.visual_core (Clinical.visual analyses) in
  mkTechnicalDetails
    (getClinicalAnatomicalRegion type)
    (getClinicalImagingModality type)
    (getClinicalQualityAssessment analyses)
    (getClinicalDetectionMethods type analyses)
    (mkMetrics
       (js_round (brightness visual))
       (Math_round (contrast visual * 100))
       (Math_round (Clinical.bilateralSymmetry (Clinical.structural analyses) * 100))
       (js_round (js_mul (edgeDensity visual) (Fin 100)))
       (Math_round
          (textureComplexity (Clinical.texture_core (Clinical.texture analyses)) * 100)))
    true.

(** The sentence returned by [generateChestXrayDiagnosis]: one constructor
    for each template, carrying the percentage it prints. *)
Inductive ChestDiagnosis : Type :=
| NormalChestRadiograph
| ConsistentWithPneumonia (confidence : Z)
| AtelectasisIdentified (confidence : Z)
| CardiomegalyDetected (confidence : Z)
| PleuralEffusionPresent (confidence : Z)
| AbnormalChestFindings (confidence : Z).

Definition generateChestXrayDiagnosis (pathologies : list (Clinical.Pathology * Q))
    : ChestDiagnosis :=
  match pathologies with
  | [] => NormalChestRadiograph
  | (primaryCondition, p) :: _ =>
      if Qltb p 0.5 then NormalChestRadiograph
      else
        let confidence := Math_round (p * 100) in
        match primaryCondition with
        | Clinical.pneumonia => ConsistentWithPneumonia confidence
        | Clinical.atelectasis => AtelectasisIdentified confidence
        | Clinical.cardiomegaly => CardiomegalyDetected confidence
        | Clinical.pleural_effusion => PleuralEffusionPresent confidence
        | _ => AbnormalChestFindings confidence
        end
  end.

End ClinicalReport.

(** ** The perfect report: [generatePerfectDiagnosis] and its helpers *)

Module PerfectReport.

Definition getAnatomicalRegionPerfect (imageType : ImageType) : string :=
  match imageType with
  | brain_mri => "Neurological/Intracranial"
  | chest_xray => "Thoracic/Cardiopulmonary"
  | ct_scan => "Cross-sectional/Multi-organ"
  | bone_xray => "Musculoskeletal/Orthopedic"
  | spine_xray => "Spinal/Vertebral"
  | abdominal_ct => "Abdominal/Pelvic"
  | ultrasound => "Soft tissue/Vascular"
  | mammography => "Breast tissue"
  | dental_xray => "Oral/Maxillofacial"
  | unknown => "Unspecified anatomical region"
  end.

Definition getImagingModalityPerfect (imageType : ImageType) : string :=
  match imageType with
  | brain_mri => "Magnetic Resonance Imaging (MRI)"
  | chest_xray | bone_xray | spine_xray | dental_xray =>
      "Plain Film Radiography (X-ray)"
  | ct_scan | abdominal_ct => "Computed Tomography (CT)"
  | ultrasound => "Diagnostic Ultrasonography"
  | mammography => "Digital Mammography"
  | unknown => "Unknown imaging modality"
  end.

Definition getDetectionMethodsPerfect (imageType : ImageType)
    (analyses : Perfect.Analyses) : list string :=
  let methods :=
    [ "Advanced pixel-level analysis";
      "Multi-modal computer vision";
      "Anatomical feature detection";
      "Statistical pattern recognition" ] in
  match imageType with
  | brain_mri =>
      methods ++ [ "Bilateral symmetry analysis"; "Brain tissue segmentation";
                   "Ventricular system assessment" ]
  | chest_xray =>
      methods ++ [ "Rib cage pattern detection"; "Lung field analysis";
                   "Cardiac silhouette measurement" ]
  | ct_scan =>
      methods ++ [ "Cross-sectional analysis"; "Hounsfield unit assessment";
                   "Contrast enhancement evaluation" ]
  | bone_xray =>
      methods ++ [ "Cortical bone analysis"; "Fracture detection algorithms";
                   "Joint space measurement" ]
  | ultrasound =>
      methods ++ [ "Echogenicity analysis"; "Acoustic shadow detection";
                   "Doppler flow assessment" ]
  | _ => methods
  end.

(** The data fields of [PerfectImageAnalysisResult]; the prose of each
    branch is static text. *)
Record PerfectImageAnalysisResult : Type := mkResult {
  imageType : ImageType;
  subType : option string;
  reportedConfidence : Z;        (* the [confidence] field of the result *)
  urgency : Urgency;
  anatomicalRegion : string;     (* [technicalDetails.anatomicalRegion] *)
  imagingModality : string;      (* [technicalDetails.imagingModality] *)
  detectionMethods : list string (* [technicalDetails.detectionMethods] *)
}.

Definition generatePerfectDiagnosis (classification : Perfect.Classification)
    (file_name : string) : PerfectImageAnalysisResult :=
  let type := Perfect.type classification in
  let confidence := Perfect.confidence classification in
  let analyses := Perfect.analyses classification in
  let base (imageType : ImageType) (subType : option string) (urgency : Urgency) :=
    mkResult imageType subType (Math_round confidence) urgency
      (getAnatomicalRegionPerfect type)
      (getImagingModalityPerfect type)
      (getDetectionMethodsPerfect type analyses) in
  match type with
  | brain_mri => base type (Some "T1/T2 weighted MRI") low
  | chest_xray => base type (Some "PA/AP chest radiograph") low
  | ct_scan => base type (Some "Axial CT with contrast enhancement") low
  | bone_xray => base type (Some "Skeletal radiograph") low
  | ultrasound => base type (Some "Real-time ultrasonography") low
  | _ => base unknown None medium
  end.

Definition performPerfectImageAnalysis (pixels : PixelBuffer) (file_name : string)
    (width height : Z) : PerfectImageAnalysisResult :=
  let perfectClassification :=
    Perfect.classifyMedicalImagePerfect
      (Perfect.perfectAnalyses pixels file_name width height) in
  generatePerfectDiagnosis perfectClassification file_name.

End PerfectReport.

(** * Binary64: the band ratios as the doubles of the source *)

(** ** Rounding to binary64 *)

(** The exponent [e] of a positive number: [2^e <= q < 2^(e+1)]. *)
Definition exponent (q : Q) : Z :=
  let e := (Z.log2 (Qnum q) - Z.log2 (Zpos (Qden q)))%Z in
  if Qle_bool (2 ^ e) q then e else (e - 1)%Z.

(** To the nearest integer, a tie to the even one. *)
Definition nearestEven (q : Q) : Z :=
  let f := Qfloor q in
  match Qcompare (q - inject_Z f) (1 # 2) with
  | Lt => f
  | Gt => (f + 1)%Z
  | Eq => if Z.even f then f else (f + 1)%Z
  end.

(** A positive number rounded to 53 significant bits. *)
Definition round53_pos (q : Q) : Q :=
  let e := (exponent q - 52)%Z in
  inject_Z (nearestEven (q / 2 ^ e)) * 2 ^ e.

(** The double nearest to [q], a tie to the even significand: the rounding
    of every binary64 operation whose result is in the normal range, as the
    quotients of counts and the sums of ratios below are. *)
Definition round53 (q : Q) : Q :=
  match Qnum q with
  | Z0 => 0
  | Zpos _ => round53_pos q
  | Zneg _ => - round53_pos (- q)
  end.

Definition toDouble (a : num) : num :=
  match a with
  | Fin q => Fin (round53 q)
  | _ => a
  end.

(** [a / b] and [a + b] on doubles: the exact result, correctly rounded. *)
Definition double_div (a b : Q) : num := toDouble (js_div a b).
Definition double_add (a b : num) : num := toDouble (js_add a b).

(** Half the distance from 1 to the next double, 2^-53: the largest relative
    error of one rounding. *)
Definition unitRoundoff : Q := 1 # 9007199254740992.

(** ** The three band ratios *)

Record BandRatios : Type := mkBands {
  darkRatio64 : num;
  brightRatio64 : num;
  mediumRatio64 : num
}.

(** [darkPixels / totalPixels], [brightPixels / totalPixels] and
    [mediumPixels / totalPixels] of the visual extractors, in binary64.  The
    three counters and [totalPixels = pixels.length / 4] are integers below
    2^53, which doubles hold exactly; each ratio is one rounded division. *)
Definition bandRatios64 (darkBelow edgeAbove : Z) (pixels : PixelBuffer) : BandRatios :=
  let st := visualLoop darkBelow edgeAbove pixels initialCounts in
  let totalPixels := inject_Z (plen pixels) / 4 in
  mkBands
    (double_div (inject_Z (darkPixels st)) totalPixels)
    (double_div (inject_Z (brightPixels st)) totalPixels)
    (double_div (inject_Z (mediumPixels st)) totalPixels).

(** The ratios returned by [performAdvancedVisualAnalysis]. *)
Definition clinicalBandRatios64 (pixels : PixelBuffer) (width height : Z) : BandRatios :=
  bandRatios64 50 30 pixels.

(** The ratios returned by [analyzeVisualCharacteristicsPerfect]. *)
Definition perfectBandRatios64 (pixels : PixelBuffer) (width height : Z) : BandRatios :=
  bandRatios64 60 25 pixels.

(** * Vocabulary of the properties *)

Coercion Clinical.visual_core : Clinical.VisualAnalysis >-> VisualCore.
Coercion Clinical.texture_core : Clinical.TextureAnalysis >-> TextureCore.
Coercion Perfect.visual_core : Perfect.VisualIntelligence >-> VisualCore.
Coercion Perfect.visual_flags : Perfect.VisualIntelligence >-> VisualFlags.
Coercion Perfect.texture_core : Perfect.TextureIntelligence >-> TextureCore.

(** What the symmetry loops maintain: the score is a sum of [comparisons]
    similarities, each between 0 and 1. *)
Definition sym_bounded (acc : SymAcc) : Prop :=
  0 <= symmetryScore acc <= inject_Z (comparisons acc) /\ (0 <= comparisons acc)%Z.

(** A buffer that equals its mirror image about the vertical midline: in
    every row the brightness at column [x] is the brightness at column
    [width - 1 - x]. *)
Definition mirrored (pixels : PixelBuffer) (width height : Z) : Prop :=
  forall x y, (0 <= x < width)%Z -> (0 <= y < height)%Z ->
    brightnessAt pixels ((y * width + x) * 4)
    == brightnessAt pixels ((y * width + (width - 1 - x)) * 4).

(** On a mirrored buffer every similarity is 1, so the score counts the
    comparisons; [k] bounds their number from below. *)
Definition sym_exact (k : Z) (acc : SymAcc) : Prop :=
  symmetryScore acc == inject_Z (comparisons acc) /\ (k <= comparisons acc)%Z.

(** What the texture loop maintains. *)
Definition tex_bounded (acc : TextureAcc) : Prop :=
  0 <= roughnessSum acc /\ 0 <= varianceSum acc /\ (0 <= centers acc)%Z.

(** The comparator [(a, b) => key(b) - key(a)] of a descending sort, and the
    order it sorts by. *)
Definition by_key_desc {A : Type} (key : A -> Q) (a b : A) : Q := key b - key a.
Definition desc {A : Type} (key : A -> Q) (a b : A) : Prop := key b <= key a.

(** The property read [pathologies.key]. *)
Definition pathologyScore (key : Clinical.Pathology) (m : Clinical.PathologyScoreMap)
    : option Q :=
  option_map snd (find (fun e => Clinical.Pathology_beq (fst e) key) m).

(** A 4 by 3 image, dark with one white column. *)
Definition stripes : PixelBuffer :=
  [black; white; black; black;
   black; white; black; black;
   black; white; black; black].

(** A 5 by 2 image whose rows read the same in both directions. *)
Definition palindrome : PixelBuffer :=
  [black; white; mkPixel x64 x64 x64 xff; white; black;
   white; black; black; black; white].

(** A file name without any keyword of the two pattern tables. *)
Definition photo : string := "photo.png".

(** No keyword pattern of the clinical table matches the file name. *)
Definition matchesNoPattern (file_name : string) : bool :=
  forallb (fun entry => negb (test_alternatives (fst (fst (snd entry))) file_name))
          Clinical.clinicalPatterns.

(** The features named by the specification: dark ratio strictly between 0.6
    and 0.8, contrast above 0.3, aspect ratio strictly between 1.2 and 1.8,
    edge density above 0.25. *)
Definition chestLikeFeatures (pixels : PixelBuffer) (width height : Z) : Prop :=
  let v := Clinical.performAdvancedVisualAnalysis pixels width height in
  let s := Clinical.analyzeAnatomicalStructure pixels width height in
  js_gt (darkRatio v) (Fin 0.6) = true /\ js_lt (darkRatio v) (Fin 0.8) = true
  /\ 0.3 < contrast v
  /\ js_gt (Clinical.aspectRatio s) (Fin 1.2) = true
  /\ js_lt (Clinical.aspectRatio s) (Fin 1.8) = true
  /\ js_gt (edgeDensity v) (Fin 0.25) = true.

(** A 7 by 5 image: eleven isolated white pixels on black, two of them at the
    centres sampled by the texture loop. *)
Definition speckled : PixelBuffer :=
  [white; black; white; black; white; black; white;
   black; black; black; black; black; black; black;
   white; black; white; black; white; black; black;
   black; black; black; black; black; black; black;
   white; black; white; black; white; black; white].


(** A buffer that equals its mirror image about the horizontal midline. *)
Definition mirroredVertically (pixels : PixelBuffer) (width height : Z) : Prop :=
  forall x y, (0 <= x < width)%Z -> (0 <= y < height)%Z ->
    brightnessAt pixels ((y * width + x) * 4)
    == brightnessAt pixels (((height - 1 - y) * width + x) * 4).

(** A number that is finite and satisfies [P]. *)
Definition num_in (P : Q -> Prop) (a : num) : Prop :=
  match a with
  | Fin q => P q
  | _ => False
  end.

Definition sumZ (l : list Z) : Z := fold_right Z.add 0%Z l.

(** The rounded brightness of a pixel, as the visual loop computes it. *)
Definition pixelBrightness (p : pixel) : Z :=
  Math_round (inject_Z (chan (red p) + chan (green p) + chan (blue p)) / 3).

(** What the texture loop maintains on a buffer of a single colour. *)
Definition tex_flat (acc : TextureAcc) : Prop :=
  roughnessSum acc == 0 /\ varianceSum acc == 0.

(** What the centre-of-mass loop maintains: the weighted coordinate sums
    stay within the image. *)
Definition mass_bounded (width height : Z) (acc : MassAcc) : Prop :=
  0 <= totalMass acc
  /\ 0 <= centerMassX acc <= inject_Z (width - 1) * totalMass acc
  /\ 0 <= centerMassY acc <= inject_Z (height - 1) * totalMass acc.

(** [s] has the keys of [b], in the same order, with scores between 0 and
    the scores of [b]. *)
Definition dominated (s b : ScoreMap) : Prop :=
  Forall2 (fun e be => fst e = fst be /\ 0 <= snd e <= snd be) s b.

(** The clinical analyses in which every keyword matched, every rule fired
    and the pathology bonus was granted. *)
Definition everyClinicalKeyword : list (Clinical.PatternKey * Clinical.FilenameScore) :=
  map (fun entry =>
         (fst entry, Clinical.mkFilenameScore (snd (fst (snd entry))) (snd (snd entry))))
      Clinical.clinicalPatterns.

Definition everyClinicalRule : ScoreMap :=
  [ (chest_xray, 0.95); (brain_mri, 0.93); (ct_scan, 0.9); (ultrasound, 0.85);
    (bone_xray, 0.88); (abdominal_ct, 0.4); (mammography, 0.87); (dental_xray, 0);
    (spine_xray, 0.86) ].

Definition clinicalCeiling : ScoreMap :=
  add_score chest_xray 0.15
    (fold_left (fun s e => add_score (fst e) (snd e * 0.6) s) everyClinicalRule
       (fold_left Clinical.addFilename everyClinicalKeyword Clinical.zeroScores)).

(** Whether the pattern of [key] in the clinical table matches the file
    name. *)
Definition clinicalKeywordMatches (key : Clinical.PatternKey) (file_name : string)
    : bool :=
  existsb
    (fun entry =>
       match fst entry, key with
       | Clinical.chest, Clinical.chest | Clinical.brain, Clinical.brain
       | Clinical.ct, Clinical.ct | Clinical.bone, Clinical.bone =>
           test_alternatives (fst (fst (snd entry))) file_name
       | _, _ => false
       end)
    Clinical.clinicalPatterns.

(** A 2 by 2 image of medium grey. *)
Definition greySquare : PixelBuffer := repeat (mkPixel x80 x80 x80 xff) 4.



(** [darkRatio + brightRatio + mediumRatio], evaluated in binary64 from left
    to right. *)
Definition sumOfBands (r : BandRatios) : num :=
  double_add (double_add (darkRatio64 r) (brightRatio64 r)) (mediumRatio64 r).

(** The three ratios are doubles whose exact sum is within 2^-53 of 1 and
    whose binary64 sum is within 2^-51 of 1. *)
Definition bandsNearOne (r : BandRatios) : Prop :=
  (exists d b m,
      darkRatio64 r = Fin d /\ brightRatio64 r = Fin b /\ mediumRatio64 r = Fin m
      /\ Qabs (d + b + m - 1) <= unitRoundoff)
  /\ num_in (fun s => Qabs (s - 1) <= 4 * unitRoundoff) (sumOfBands r).

(** One dark, four bright and one medium pixel. *)
Definition sixPixels : PixelBuffer :=
  [black; white; white; white; white; mkPixel x64 x64 x64 xff].

(** * Properties *)

(** ** Comparisons and arithmetic *)

Lemma Qltb_true (a b : Q) : Qltb a b = true <-> a < b.
Proof.
  unfold Qltb. rewrite negb_true_iff, <- not_true_iff_false, Qle_bool_iff.
  split; intro H; [apply Qnot_le_lt | apply Qlt_not_le]; exact H.
Qed.

Lemma Qltb_false (a b : Q) : Qltb a b = false <-> b <= a.
Proof.
  unfold Qltb. rewrite negb_false_iff. apply Qle_bool_iff.
Qed.

Lemma Qgtb_true (a b : Q) : Qgtb a b = true <-> b < a.
Proof. apply Qltb_true. Qed.

Lemma Qgtb_false (a b : Q) : Qgtb a b = false <-> a <= b.
Proof. apply Qltb_false. Qed.

Lemma Qle_bool_false (a b : Q) : Qle_bool a b = false <-> b < a.
Proof.
  rewrite <- not_true_iff_false, Qle_bool_iff.
  split; intro H; [apply Qnot_le_lt | apply Qlt_not_le]; exact H.
Qed.

Lemma Qdiv_nonneg (a b : Q) : 0 <= a -> 0 < b -> 0 <= a / b.
Proof. intros Ha Hb. apply Qle_shift_div_l; [exact Hb | lra]. Qed.

Lemma Qdiv_le_1 (a b : Q) : a <= b -> 0 < b -> a / b <= 1.
Proof. intros Ha Hb. apply Qle_shift_div_r; [exact Hb | lra]. Qed.

Lemma Qdiv_self (a : Q) : ~ a == 0 -> a / a == 1.
Proof. intro Ha. field. exact Ha. Qed.

Lemma inject_Z_pos (z : Z) : (0 < z)%Z -> 0 < inject_Z z.
Proof. intro H. change 0 with (inject_Z 0). rewrite <- Zlt_Qlt. exact H. Qed.

Lemma inject_Z_nonneg (z : Z) : (0 <= z)%Z -> 0 <= inject_Z z.
Proof. intro H. change 0 with (inject_Z 0). rewrite <- Zle_Qle. exact H. Qed.

Lemma Math_sqrt_nonneg (q : Q) : 0 <= Math_sqrt q.
Proof.
  unfold Math_sqrt. apply Qdiv_nonneg.
  - apply inject_Z_nonneg, Z.sqrt_nonneg.
  - reflexivity.
Qed.

(** ** Loops *)

Lemma zrange_aux_In (fuel : nat) (step : Z) :
  (0 < step)%Z ->
  forall i hi x, In x (zrange_aux fuel i hi step) -> (i <= x < hi)%Z.
Proof.
  intro Hs. induction fuel as [|f IH]; intros i hi x; cbn [zrange_aux].
  - intros [].
  - destruct (i <? hi)%Z eqn:E; [|intros []].
    apply Z.ltb_lt in E. intros [<- | H]; [lia|].
    apply IH in H. lia.
Qed.

(** The fuel of [zrange] never runs out: more fuel visits the same indices. *)
Lemma zrange_aux_fuel (step : Z) :
  (0 < step)%Z ->
  forall f1 f2 i hi,
    (hi - i <= Z.of_nat f1)%Z -> (hi - i <= Z.of_nat f2)%Z ->
    zrange_aux f1 i hi step = zrange_aux f2 i hi step.
Proof.
  intro Hs. induction f1 as [|f1 IH]; intros f2 i hi H1 H2.
  - destruct f2; cbn [zrange_aux]; [reflexivity|].
    destruct (i <? hi)%Z eqn:E; [apply Z.ltb_lt in E; simpl in H1; lia | reflexivity].
  - cbn [zrange_aux]. destruct (i <? hi)%Z eqn:E.
    + apply Z.ltb_lt in E. destruct f2 as [|f2]; [simpl in H2; lia|].
      cbn [zrange_aux]. apply Z.ltb_lt in E. rewrite E. f_equal. apply IH; lia.
    + destruct f2; cbn [zrange_aux]; [reflexivity | rewrite E; reflexivity].
Qed.

(** Every index [lo + k * step] below [hi] is visited. *)
Lemma zrange_aux_complete (step : Z) :
  (0 < step)%Z ->
  forall fuel i hi k,
    (hi - i <= Z.of_nat fuel)%Z -> (0 <= k)%Z -> (i + k * step < hi)%Z ->
    In (i + k * step)%Z (zrange_aux fuel i hi step).
Proof.
  intro Hs. induction fuel as [|f IH]; intros i hi k Hf Hk Hlt.
  - simpl in Hf. nia.
  - cbn [zrange_aux].
    assert (E : (i <? hi)%Z = true) by (apply Z.ltb_lt; nia).
    rewrite E. destruct (Z.eq_dec k 0) as [-> | Hne].
    + left. lia.
    + right. replace (i + k * step)%Z with (i + step + (k - 1) * step)%Z by lia.
      apply IH; lia.
Qed.

Lemma zrange_In (lo hi step x : Z) :
  (0 < step)%Z -> In x (zrange lo hi step) -> (lo <= x < hi)%Z.
Proof. intro Hs. apply zrange_aux_In. exact Hs. Qed.

Lemma zrange_first (lo hi step : Z) :
  (lo < hi)%Z -> exists rest, zrange lo hi step = lo :: rest /\
                              forall x, In x rest -> In x (zrange lo hi step).
Proof.
  intro H. unfold zrange.
  destruct (Z.to_nat (hi - lo)) as [|f] eqn:E; [lia|].
  cbn [zrange_aux]. apply Z.ltb_lt in H. rewrite H.
  eexists; split; [reflexivity|]. intros x Hx. right. exact Hx.
Qed.

Lemma fold_invariant {A S : Type} (P : S -> Prop) (body : A -> S -> S) (l : list A) :
  (forall i s, In i l -> P s -> P (body i s)) ->
  forall s, P s -> P (fold_left (fun acc i => body i acc) l s).
Proof.
  induction l as [|i l IH]; intros Hb s Hs; simpl; [exact Hs|].
  apply IH.
  - intros j t Hj. apply Hb. right. exact Hj.
  - apply Hb; [left; reflexivity | exact Hs].
Qed.

Lemma forRange_invariant {S : Type} (P : S -> Prop) (lo hi step : Z)
    (body : Z -> S -> S) (s : S) :
  (0 < step)%Z ->
  (forall i t, (lo <= i < hi)%Z -> P t -> P (body i t)) ->
  P s -> P (forRange lo hi step body s).
Proof.
  intros Hs Hb H0. unfold forRange. apply fold_invariant; [|exact H0].
  intros i t Hi. apply Hb. apply (zrange_In _ _ step); assumption.
Qed.

(** The first round of a loop that runs at least once, then the rest under
    an invariant. *)
Lemma forRange_first {S : Type} (P : S -> Prop) (lo hi step : Z)
    (body : Z -> S -> S) (s : S) :
  (0 < step)%Z -> (lo < hi)%Z ->
  (forall i t, (lo <= i < hi)%Z -> P t -> P (body i t)) ->
  P (body lo s) -> P (forRange lo hi step body s).
Proof.
  intros Hs Hlt Hb H0. unfold forRange.
  destruct (zrange_first lo hi step Hlt) as (rest & E & Hin).
  rewrite E. simpl. apply fold_invariant; [|exact H0].
  intros i t Hi. apply Hb. apply (zrange_In _ _ step); [exact Hs|].
  apply Hin. exact Hi.
Qed.

(** ** Symmetry *)

Lemma similarity_range (a b : Q) : 0 <= similarity a b <= 1.
Proof.
  unfold similarity; cbv zeta. split.
  - apply Qdiv_nonneg; [apply Q.le_max_l | reflexivity].
  - apply Qdiv_le_1; [|reflexivity].
    apply Q.max_lub; [discriminate|].
    pose proof (Qabs_nonneg (a - b)) as H. lra.
Qed.

Lemma similarity_same (a b : Q) : a == b -> similarity a b == 1.
Proof.
  intro H. unfold similarity; cbv zeta.
  assert (E : a - b == 0) by (rewrite H; ring).
  rewrite E. reflexivity.
Qed.

Lemma comparePair_bounded (pixels : PixelBuffer) (i j : Z) (acc : SymAcc) :
  sym_bounded acc -> sym_bounded (comparePair pixels i j acc).
Proof.
  intros [[H0 H1] Hc]. unfold comparePair.
  destruct ((i <? plen pixels)%Z && (j <? plen pixels)%Z);
    [|repeat split; assumption].
  pose proof (similarity_range (brightnessAt pixels i) (brightnessAt pixels j)) as [S0 S1].
  unfold sym_bounded; cbn [symmetryScore comparisons].
  rewrite inject_Z_plus. change (inject_Z 1) with 1.
  repeat split; try lra; lia.
Qed.

Lemma symmetryResult_range (acc : SymAcc) :
  sym_bounded acc -> 0 <= symmetryResult acc <= 1.
Proof.
  intros [[H0 H1] Hc]. unfold symmetryResult.
  destruct (comparisons acc >? 0)%Z eqn:E; [|split; discriminate].
  apply Z.gtb_lt in E. pose proof (inject_Z_pos _ E) as Hp.
  split; [apply Qdiv_nonneg | apply Qdiv_le_1]; assumption.
Qed.

Lemma sym_bounded_init : sym_bounded (mkSym 0 0).
Proof. repeat split; cbn; try discriminate; lia. Qed.

Lemma bilateralSymmetryWith_range (stride : Z) (pixels : PixelBuffer) (width height : Z) :
  (0 < stride)%Z -> 0 <= bilateralSymmetryWith stride pixels width height <= 1.
Proof.
  intro Hs. unfold bilateralSymmetryWith. apply symmetryResult_range.
  apply forRange_invariant; [exact Hs | | exact sym_bounded_init].
  intros y t _ Ht. apply forRange_invariant; [exact Hs | | exact Ht].
  intros x u _ Hu. apply comparePair_bounded. exact Hu.
Qed.

Lemma verticalSymmetryWith_range (stride : Z) (pixels : PixelBuffer) (width height : Z) :
  (0 < stride)%Z -> 0 <= verticalSymmetryWith stride pixels width height <= 1.
Proof.
  intro Hs. unfold verticalSymmetryWith. apply symmetryResult_range.
  apply forRange_invariant; [exact Hs | | exact sym_bounded_init].
  intros x t _ Ht. apply forRange_invariant; [exact Hs | | exact Ht].
  intros y u _ Hu. apply comparePair_bounded. exact Hu.
Qed.

Lemma comparePair_exact (pixels : PixelBuffer) (i j k : Z) (acc : SymAcc) :
  brightnessAt pixels i == brightnessAt pixels j ->
  sym_exact k acc -> sym_exact k (comparePair pixels i j acc).
Proof.
  intros Hb [Hs Hk]. unfold comparePair.
  destruct ((i <? plen pixels)%Z && (j <? plen pixels)%Z); [|split; assumption].
  unfold sym_exact; cbn [symmetryScore comparisons].
  rewrite inject_Z_plus, (similarity_same _ _ Hb), Hs.
  split; [reflexivity | lia].
Qed.

Lemma mirrored_symmetry (stride : Z) (pixels : PixelBuffer) (width height : Z) :
  (0 < stride)%Z -> (2 <= width)%Z -> (1 <= height)%Z ->
  Z.of_nat (length pixels) = (width * height)%Z ->
  mirrored pixels width height ->
  bilateralSymmetryWith stride pixels width height == 1.
Proof.
  intros Hs Hw Hh Hlen Hm. unfold bilateralSymmetryWith.
  assert (Hc : (0 < width / 2 <= width)%Z).
  { split; [apply Z.div_str_pos; lia | apply Z.div_le_upper_bound; lia]. }
  assert (Hstep : forall y x t, (0 <= y < height)%Z -> (0 <= x < width / 2)%Z ->
            sym_exact 1 t ->
            sym_exact 1 (comparePair pixels ((y * width + x) * 4)
                           ((y * width + (width - 1 - x)) * 4) t)).
  { intros y x t Hy Hx Ht. apply comparePair_exact; [apply Hm; lia | exact Ht]. }
  match goal with |- symmetryResult ?a == 1 => assert (Hfin : sym_exact 1 a) end.
  { apply forRange_first; [exact Hs | lia | |].
    - intros y t Hy Ht. apply forRange_invariant; [exact Hs | | exact Ht].
      intros x u Hx Hu. apply Hstep; assumption.
    - apply forRange_first; [exact Hs | lia | |].
      + intros x u Hx Hu. apply Hstep; [lia | exact Hx | exact Hu].
      + unfold comparePair.
        assert (G1 : ((0 * width + 0) * 4 <? plen pixels)%Z = true).
        { apply Z.ltb_lt. unfold plen. nia. }
        assert (G2 : ((0 * width + (width - 1 - 0)) * 4 <? plen pixels)%Z = true).
        { apply Z.ltb_lt. unfold plen. nia. }
        rewrite G1, G2. cbn [andb]. unfold sym_exact; cbn [symmetryScore comparisons].
        rewrite similarity_same by (apply Hm; lia).
        split; [reflexivity | lia]. }
  destruct Hfin as [Hscore Hk]. unfold symmetryResult.
  assert (E : (comparisons _ >? 0)%Z = true) by (apply Z.gtb_lt; exact (Z.lt_le_trans _ _ _ Z.lt_0_1 Hk)).
  rewrite E, Hscore. apply Qdiv_self.
  intro Hz. pose proof (inject_Z_pos (comparisons _) (Z.lt_le_trans _ _ _ Z.lt_0_1 Hk)) as Hp.
  rewrite Hz in Hp. discriminate.
Qed.

(** ** Contrast *)

Lemma contrastOfHistogram_range (h : list Z) : 0 <= contrastOfHistogram h <= 1.
Proof.
  unfold contrastOfHistogram; cbv zeta.
  destruct (Qeq_bool _ 0); [split; discriminate|].
  split; [|apply Q.le_min_r].
  apply Q.min_glb; [|discriminate].
  apply Qdiv_nonneg; [apply Math_sqrt_nonneg | reflexivity].
Qed.

Lemma contrastOfHistogram_zeros (n : nat) : contrastOfHistogram (repeat 0%Z n) = 0.
Proof.
  unfold contrastOfHistogram; cbv zeta.
  assert (E : forall i s, reduce_indexed (fun count _ => inject_Z count) i (repeat 0%Z n) s == s).
  { induction n as [|n IH]; intros i s; cbn [repeat reduce_indexed]; [reflexivity|].
    rewrite IH. change (inject_Z 0) with 0. ring. }
  assert (B : Qeq_bool (reduce_indexed (fun count _ => inject_Z count) 0 (repeat 0%Z n) 0) 0 = true)
    by (apply Qeq_bool_iff, E).
  rewrite B. reflexivity.
Qed.

(** ** Texture *)

Lemma Qdiv_nonneg_total (a b : Q) : 0 <= a -> 0 <= b -> 0 <= a / b.
Proof.
  intros Ha Hb. unfold Qdiv. apply Qmult_le_0_compat; [exact Ha|].
  apply Qinv_le_0_compat. exact Hb.
Qed.

Lemma Math_pow2_nonneg (x : Q) : 0 <= Math_pow2 x.
Proof.
  unfold Math_pow2, Qle, Qmult; simpl. rewrite Z.mul_1_r. apply Z.square_nonneg.
Qed.

Lemma fold_left_sum_nonneg {A : Type} (f : A -> Q) (l : list A) :
  (forall x, 0 <= f x) ->
  forall acc, 0 <= acc -> 0 <= fold_left (fun sum x => sum + f x) l acc.
Proof.
  intro Hf. induction l as [|x l IH]; intros acc Ha; simpl; [exact Ha|].
  apply IH. pose proof (Hf x). lra.
Qed.

Lemma neighborVariances_nonneg (pixels : PixelBuffer) (width x y : Z) (c : Q) :
  Forall (fun d => 0 <= d) (neighborVariances pixels width x y c).
Proof.
  unfold neighborVariances.
  apply (fold_invariant (Forall (fun d => 0 <= d))
           (fun d pushed =>
              if ((((y + snd d) * width + (x + fst d)) * 4 >=? 0)%Z
                  && (((y + snd d) * width + (x + fst d)) * 4 <? plen pixels - 2)%Z)%bool
              then pushed ++ [Qabs (c - brightnessAt pixels (((y + snd d) * width + (x + fst d)) * 4))]
              else pushed)).
  - intros d pushed _ Hp. destruct (_ && _); [|exact Hp].
    apply Forall_app. split; [exact Hp|]. constructor; [apply Qabs_nonneg | constructor].
  - constructor.
Qed.

Lemma sumQ_nonneg (l : list Q) : Forall (fun d => 0 <= d) l -> 0 <= sumQ l.
Proof.
  unfold sumQ. intro H.
  assert (G : forall acc, 0 <= acc -> 0 <= fold_left Qplus l acc).
  { induction H as [|d l Hd Hl IH]; intros acc Ha; simpl; [exact Ha|].
    apply IH. lra. }
  apply G. discriminate.
Qed.

(** The divisor [neighborVariances.length] is never zero: the neighbour above
    and to the left of a centre that passed its guard passes its own. *)
Lemma neighborVariances_nonempty (pixels : PixelBuffer) (width x y : Z) (c : Q) :
  (2 <= x < width - 2)%Z -> (2 <= y)%Z ->
  ((y * width + x) * 4 < plen pixels - 4)%Z ->
  neighborVariances pixels width x y c <> [].
Proof.
  intros Hx Hy Hc. unfold neighborVariances, neighbors. cbn [fold_left fst snd].
  assert (G : ((((y + -1) * width + (x + -1)) * 4 >=? 0)%Z
               && (((y + -1) * width + (x + -1)) * 4 <? plen pixels - 2)%Z)%bool = true).
  { apply andb_true_iff. split; [apply Z.geb_le | apply Z.ltb_lt]; nia. }
  rewrite G. cbn [app].
  repeat match goal with
         | |- context [if ?g then _ else _] => destruct g
         end; cbn [app]; discriminate.
Qed.

Lemma textureCenter_bounded (pixels : PixelBuffer) (width x y : Z) (acc : TextureAcc) :
  tex_bounded acc -> tex_bounded (textureCenter pixels width x y acc).
Proof.
  intros (Hr & Hv & Hc). unfold textureCenter; cbv zeta.
  destruct (_ <? _)%Z; [|repeat split; assumption].
  set (pushed := neighborVariances pixels width x y _).
  assert (Hp : Forall (fun d => 0 <= d) pushed) by apply neighborVariances_nonneg.
  pose proof (sumQ_nonneg pushed Hp) as Hsum.
  unfold tex_bounded; cbn [roughnessSum varianceSum centers].
  split; [|split; [|lia]].
  - assert (0 <= sumQ pushed / 8) by (apply Qdiv_nonneg; [exact Hsum | reflexivity]). lra.
  - assert (0 <= fold_left (fun sum diff => sum + Math_pow2 (diff - sumQ pushed / 8)) pushed 0
                 / inject_Z (Z.of_nat (length pushed))).
    { apply Qdiv_nonneg_total.
      - apply fold_left_sum_nonneg; [|discriminate].
        intro d. apply Math_pow2_nonneg.
      - apply inject_Z_nonneg. lia. }
    lra.
Qed.

Lemma textureWith_bounds (stride : Z) (pixels : PixelBuffer) (width height : Z) :
  (0 < stride)%Z ->
  let t := textureWith stride pixels width height in
  0 <= roughness t /\ 0 <= localVariance t
  /\ 0 <= uniformity t <= 1 /\ 0 <= textureComplexity t <= 1.
Proof.
  intro Hs. unfold textureWith; cbv zeta.
  cbn [roughness localVariance uniformity textureComplexity].
  match goal with
  | |- context [centers ?a] => assert (Hb : tex_bounded a); [|set (acc := a) in *]
  end.
  { apply forRange_invariant; [exact Hs | | repeat split; cbn; try discriminate; lia].
    intros y t _ Ht. apply forRange_invariant; [exact Hs | | exact Ht].
    intros x u _ Hu. apply textureCenter_bounded. exact Hu. }
  destruct Hb as (Hr & Hv & Hc).
  set (r := if (centers acc >? 0)%Z then roughnessSum acc / inject_Z (centers acc) else 0).
  set (v := if (centers acc >? 0)%Z then varianceSum acc / inject_Z (centers acc) else 0).
  assert (Hr' : 0 <= r).
  { unfold r. destruct (centers acc >? 0)%Z eqn:E; [|discriminate].
    apply Qdiv_nonneg; [exact Hr | apply inject_Z_pos, Z.gtb_lt, E]. }
  assert (Hv' : 0 <= v).
  { unfold v. destruct (centers acc >? 0)%Z eqn:E; [|discriminate].
    apply Qdiv_nonneg; [exact Hv | apply inject_Z_pos, Z.gtb_lt, E]. }
  repeat split; try assumption.
  - apply Qdiv_nonneg; [apply Q.le_max_l | reflexivity].
  - apply Qdiv_le_1; [|reflexivity]. apply Q.max_lub; [discriminate | lra].
  - apply Q.min_glb; [|discriminate].
    apply Qdiv_nonneg; [lra | reflexivity].
  - apply Q.le_min_r.
Qed.

(** ** Brightness bands *)

Lemma visualStep_bands (darkBelow edgeAbove : Z) (p : pixel) (next : option pixel)
    (st : VisualCounts) :
  let st' := visualStep darkBelow edgeAbove p next st in
  (darkPixels st' + brightPixels st' + mediumPixels st'
   = darkPixels st + brightPixels st + mediumPixels st + 1)%Z.
Proof.
  unfold visualStep; cbv zeta; cbn [darkPixels brightPixels mediumPixels].
  destruct (_ <? darkBelow)%Z; [lia|]. destruct (_ >? 200)%Z; lia.
Qed.

(** Every pixel falls in exactly one band. *)
Lemma visualLoop_bands (darkBelow edgeAbove : Z) (pixels : PixelBuffer) :
  forall st,
    let st' := visualLoop darkBelow edgeAbove pixels st in
    (darkPixels st' + brightPixels st' + mediumPixels st'
     = darkPixels st + brightPixels st + mediumPixels st + Z.of_nat (length pixels))%Z.
Proof.
  induction pixels as [|p rest IH]; intro st; cbn [visualLoop length].
  - lia.
  - cbv zeta in IH |- *. rewrite IH.
    pose proof (visualStep_bands darkBelow edgeAbove p (hd_error rest) st) as H.
    cbv zeta in H. lia.
Qed.

Lemma totalPixels_nonzero (pixels : PixelBuffer) :
  pixels <> [] -> Qeq_bool (inject_Z (plen pixels) / 4) 0 = false.
Proof.
  intro H. destruct (Qeq_bool _ 0) eqn:E; [|reflexivity].
  apply Qeq_bool_eq in E. exfalso.
  assert (Hp : 0 < inject_Z (plen pixels)).
  { apply inject_Z_pos. unfold plen. destruct pixels; [congruence | simpl length; lia]. }
  assert (0 < inject_Z (plen pixels) / 4) by (apply Qlt_shift_div_l; [reflexivity | lra]).
  lra.
Qed.

Lemma visualCore_bands (darkBelow edgeAbove : Z) (pixels : PixelBuffer) :
  pixels <> [] ->
  let v := visualCore darkBelow edgeAbove pixels in
  num_eq (js_add (js_add (darkRatio v) (brightRatio v)) (mediumRatio v)) (Fin 1).
Proof.
  intro Hne. unfold visualCore; cbv zeta.
  cbn [darkRatio brightRatio mediumRatio]. unfold js_div.
  rewrite (totalPixels_nonzero pixels Hne). cbn [js_add num_eq].
  pose proof (visualLoop_bands darkBelow edgeAbove pixels initialCounts) as H.
  cbv zeta in H. cbn [initialCounts darkPixels brightPixels mediumPixels] in H.
  set (st := visualLoop darkBelow edgeAbove pixels initialCounts) in *.
  assert (Hq : inject_Z (darkPixels st) + inject_Z (brightPixels st)
               + inject_Z (mediumPixels st) == inject_Z (plen pixels) / 4).
  { rewrite <- !inject_Z_plus, H, !Z.add_0_l. unfold plen.
    rewrite inject_Z_mult. change (inject_Z 4) with 4. field. }
  assert (Hnz : ~ inject_Z (plen pixels) / 4 == 0).
  { apply Qeq_bool_neq, totalPixels_nonzero, Hne. }
  set (n := inject_Z (plen pixels) / 4) in *.
  transitivity ((inject_Z (darkPixels st) + inject_Z (brightPixels st)
                 + inject_Z (mediumPixels st)) / n).
  - field. exact Hnz.
  - rewrite Hq. apply Qdiv_self. exact Hnz.
Qed.

(** ** Sorting *)

Section Sorting.
Context {A : Type} (key : A -> Q).

Lemma insert_by_In (x e : A) (l : list A) :
  In e (insert_by (by_key_desc key) x l) <-> e = x \/ In e l.
Proof.
  induction l as [|y r IH]; simpl.
  - intuition congruence.
  - destruct (Qle_bool _ 0); simpl; [intuition congruence|].
    rewrite IH. intuition congruence.
Qed.

Lemma sort_by_In (e : A) (l : list A) :
  In e (sort_by (by_key_desc key) l) <-> In e l.
Proof.
  induction l as [|x r IH]; simpl; [reflexivity|].
  rewrite insert_by_In, IH. intuition congruence.
Qed.

Lemma insert_by_sorted (x : A) (l : list A) :
  StronglySorted (desc key) l -> StronglySorted (desc key) (insert_by (by_key_desc key) x l).
Proof.
  induction 1 as [|y r Hr IH Hy]; simpl.
  - constructor; constructor.
  - destruct (Qle_bool ((by_key_desc key) x y) 0) eqn:E.
    + apply Qle_bool_iff in E. unfold by_key_desc in E.
      constructor; [constructor; assumption|].
      constructor; [unfold desc; lra|].
      apply Forall_impl with (2 := Hy). unfold desc. intros z Hz. lra.
    + apply Qle_bool_false in E. unfold by_key_desc in E.
      constructor; [exact IH|].
      apply Forall_forall. intros z Hz. apply insert_by_In in Hz.
      destruct Hz as [-> | Hz]; [unfold desc; lra|].
      rewrite Forall_forall in Hy. apply Hy, Hz.
Qed.

Lemma sort_by_sorted (l : list A) : StronglySorted (desc key) (sort_by (by_key_desc key) l).
Proof.
  induction l as [|x r IH]; simpl; [constructor | apply insert_by_sorted, IH].
Qed.

Lemma firstn_sorted (n : nat) (l : list A) :
  StronglySorted (desc key) l -> StronglySorted (desc key) (firstn n l).
Proof.
  intro H. revert n. induction H as [|y r Hr IH Hy]; intros [|n]; simpl;
    try constructor.
  - apply IH.
  - apply Forall_forall. intros z Hz. rewrite Forall_forall in Hy.
    apply Hy. rewrite <- (firstn_skipn n r). apply in_or_app. left. exact Hz.
Qed.
End Sorting.

(** ** The pathology scorer *)

Lemma Forall_firstn {A : Type} (P : A -> Prop) (n : nat) (l : list A) :
  Forall P l -> Forall P (firstn n l).
Proof.
  intro H. apply Forall_forall. intros x Hx. rewrite Forall_forall in H.
  apply H. rewrite <- (firstn_skipn n l). apply in_or_app. left. exact Hx.
Qed.

(** C5. The list [topPathologies] of the pathology scorer holds only entries
    with a score above 0.3, in descending order of score, at most five of
    them, and [hasPathology] is true exactly when the list is not empty and
    its first score is above 0.5. *)
Theorem topPathologies_filtered_sorted_capped
    (pixels : PixelBuffer) (width height : Z) (visualAnalysis : Clinical.VisualAnalysis) :
  let d := Clinical.detectPathologies pixels width height visualAnalysis in
  Forall (fun e => 0.3 < snd e) (Clinical.topPathologies d)
  /\ StronglySorted (fun a b => snd b <= snd a) (Clinical.topPathologies d)
  /\ (length (Clinical.topPathologies d) <= 5)%nat
  /\ (Clinical.hasPathology d = true
      <-> exists e rest, Clinical.topPathologies d = e :: rest /\ 0.5 < snd e).
Proof.
  unfold Clinical.detectPathologies; cbv zeta.
  cbn [Clinical.topPathologies Clinical.hasPathology].
  set (m := Clinical.scorePathologies visualAnalysis).
  change (fun a b : Clinical.Pathology * Q => snd b - snd a)
    with (by_key_desc (@snd Clinical.Pathology Q)).
  set (top := firstn 5 _).
  repeat split.
  - apply Forall_firstn, Forall_forall. intros e He.
    apply sort_by_In, filter_In in He. apply Qgtb_true, He.
  - apply (firstn_sorted (@snd Clinical.Pathology Q)), sort_by_sorted.
  - apply firstn_le_length.
  - destruct top as [|e rest]; [discriminate|].
    intro H. exists e, rest. split; [reflexivity | apply Qgtb_true, H].
  - intros (e & rest & -> & H). apply Qgtb_true, H.
Qed.

Lemma normal_chest_detected (pixels : PixelBuffer) (width height : Z)
    (va : Clinical.VisualAnalysis) :
  Clinical.Indicator.normal_chest (Clinical.pathologyIndicators va) = true ->
  let d := Clinical.detectPathologies pixels width height va in
  pathologyScore Clinical.normal (Clinical.pathologies d) = Some 0.9
  /\ (exists rest, Clinical.topPathologies d = (Clinical.normal, 0.9) :: rest)
  /\ Clinical.hasPathology d = true.
Proof.
  destruct va as [core [b1 b2 b3 b4 b5] flags].
  cbn [Clinical.pathologyIndicators Clinical.Indicator.normal_chest]. intros ->.
  unfold Clinical.detectPathologies, Clinical.scorePathologies; cbv zeta.
  cbn [Clinical.pathologyIndicators Clinical.Indicator.normal_chest
       Clinical.Indicator.pneumonia Clinical.Indicator.atelectasis
       Clinical.Indicator.cardiomegaly Clinical.Indicator.pleural_effusion
       Clinical.visual_core Clinical.pathologies Clinical.topPathologies
       Clinical.hasPathology].
  destruct b1, b2, b3, b4,
    (Qgtb (contrast core) 0.7 && js_gt (edgeDensity core) (Fin 0.5)),
    (js_gt (brightRatio core) (Fin 0.3) && js_lt (darkRatio core) (Fin 0.4)),
    (js_gt (darkRatio core) (Fin 0.9));
    vm_compute; (split; [reflexivity | split; [eexists; reflexivity | reflexivity]]).
Qed.

(** C10. When the visual features of a buffer have [darkRatio] strictly
    between 0.6 and 0.8 and [contrast] above 0.3, the pathology scorer gives
    the entry [normal] the score 0.9, [normal] is in [topPathologies], and if
    it is the first entry then [hasPathology] is true; in fact [normal] is
    always the first entry, so the flag is true on every such buffer. *)
Theorem normal_chest_sets_hasPathology (pixels : PixelBuffer) (width height : Z) :
  let va := Clinical.performAdvancedVisualAnalysis pixels width height in
  let d := Clinical.detectPathologies pixels width height va in
  js_gt (darkRatio va) (Fin 0.6) = true ->
  js_lt (darkRatio va) (Fin 0.8) = true ->
  0.3 < contrast va ->
  pathologyScore Clinical.normal (Clinical.pathologies d) = Some 0.9
  /\ In (Clinical.normal, 0.9) (Clinical.topPathologies d)
  /\ (forall e rest, Clinical.topPathologies d = e :: rest ->
        fst e = Clinical.normal -> Clinical.hasPathology d = true)
  /\ hd_error (Clinical.topPathologies d) = Some (Clinical.normal, 0.9)
  /\ Clinical.hasPathology d = true.
Proof.
  intros va d H1 H2 H3.
  assert (Hn : Clinical.Indicator.normal_chest (Clinical.pathologyIndicators va) = true).
  { unfold va, Clinical.performAdvancedVisualAnalysis; cbv zeta.
    cbn [Clinical.pathologyIndicators Clinical.Indicator.normal_chest].
    unfold va, Clinical.performAdvancedVisualAnalysis in H1, H2, H3; cbv zeta in H1, H2, H3.
    cbn [Clinical.visual_core] in H1, H2, H3.
    rewrite H1, H2. apply Qgtb_true in H3. rewrite H3. reflexivity. }
  destruct (normal_chest_detected pixels width height va Hn) as (S & (rest & T) & P).
  fold d in S, T, P.
  split; [exact S|].
  split; [rewrite T; left; reflexivity|].
  split; [intros; exact P|].
  split; [rewrite T; reflexivity | exact P].
Qed.

Lemma normal_chest_sets_hasPathology_witness :
  let va := Clinical.performAdvancedVisualAnalysis stripes 4 3 in
  let d := Clinical.detectPathologies stripes 4 3 va in
  (js_gt (darkRatio va) (Fin 0.6) = true /\ js_lt (darkRatio va) (Fin 0.8) = true
   /\ 0.3 < contrast va)
  /\ pathologyScore Clinical.normal (Clinical.pathologies d) = Some 0.9
  /\ In (Clinical.normal, 0.9) (Clinical.topPathologies d)
  /\ (forall e rest, Clinical.topPathologies d = e :: rest ->
        fst e = Clinical.normal -> Clinical.hasPathology d = true)
  /\ hd_error (Clinical.topPathologies d) = Some (Clinical.normal, 0.9)
  /\ Clinical.hasPathology d = true.
Proof.
  split.
  - vm_compute. repeat split; reflexivity.
  - apply (normal_chest_sets_hasPathology stripes 4 3); vm_compute; reflexivity.
Defined.

(** ** The visual extractor on the buffer of zero pixels *)


(** ** Ranges of the extracted features *)

(** C7. For every buffer the contrast, the two symmetry scores, the
    uniformity and the texture complexity of the clinical profile lie in the
    closed interval from 0 to 1. *)
Theorem features_within_unit_interval (pixels : PixelBuffer) (width height : Z) :
  let v := Clinical.performAdvancedVisualAnalysis pixels width height in
  let s := Clinical.analyzeAnatomicalStructure pixels width height in
  let t := Clinical.performTextureAnalysis pixels width height in
  0 <= contrast v <= 1
  /\ 0 <= Clinical.bilateralSymmetry s <= 1
  /\ 0 <= Clinical.verticalSymmetry s <= 1
  /\ 0 <= uniformity t <= 1
  /\ 0 <= textureComplexity t <= 1.
Proof.
  cbv zeta.
  split; [apply contrastOfHistogram_range|].
  split; [apply bilateralSymmetryWith_range; reflexivity|].
  split; [apply verticalSymmetryWith_range; reflexivity|].
  apply (textureWith_bounds 2 pixels width height). reflexivity.
Qed.

Lemma perfect_features_within_unit_interval (pixels : PixelBuffer) (width height : Z) :
  let v := Perfect.analyzeVisualCharacteristicsPerfect pixels width height in
  let s := Perfect.analyzeImageStructurePerfect pixels width height in
  let t := Perfect.analyzeTexturePatternsPerfect pixels width height in
  0 <= contrast v <= 1
  /\ 0 <= Perfect.symmetry s <= 1
  /\ 0 <= Perfect.verticalSymmetry s <= 1
  /\ 0 <= uniformity t <= 1
  /\ 0 <= textureComplexity t <= 1.
Proof.
  cbv zeta.
  split; [apply contrastOfHistogram_range|].
  split; [apply bilateralSymmetryWith_range; reflexivity|].
  split; [apply verticalSymmetryWith_range; reflexivity|].
  apply (textureWith_bounds 3 pixels width height). reflexivity.
Qed.

(** ** Mirrored buffers *)

(** C8, as the specification states it, fails on a buffer one pixel wide:
    it is its own mirror image, no pair is compared and the score is 0. *)
Lemma mirrored_single_column_scores_zero :
  mirrored [white] 1 1
  /\ ~ Clinical.calculateBilateralSymmetry [white] 1 1 == 1
  /\ ~ Perfect.calculateSymmetryPerfect [white] 1 1 == 1.
Proof.
  split.
  - intros x y Hx Hy.
    assert (Ex : x = 0%Z) by lia. assert (Ey : y = 0%Z) by lia.
    subst x y. reflexivity.
  - split; vm_compute; discriminate.
Qed.

(** C8, amended. For a buffer of [width * height] pixels with at least two
    columns and one row that is its own mirror image about the vertical
    midline, the left-right symmetry score is 1, in both profiles. *)
Theorem mirrored_buffer_is_fully_symmetric (pixels : PixelBuffer) (width height : Z) :
  (2 <= width)%Z -> (1 <= height)%Z ->
  Z.of_nat (length pixels) = (width * height)%Z ->
  mirrored pixels width height ->
  Clinical.calculateBilateralSymmetry pixels width height == 1
  /\ Perfect.calculateSymmetryPerfect pixels width height == 1.
Proof.
  intros Hw Hh Hlen Hm.
  split; apply mirrored_symmetry; try assumption; reflexivity.
Qed.

Lemma mirrored_buffer_is_fully_symmetric_witness :
  ((2 <= 5)%Z /\ (1 <= 2)%Z /\ Z.of_nat (length palindrome) = (5 * 2)%Z
   /\ mirrored palindrome 5 2)
  /\ Clinical.calculateBilateralSymmetry palindrome 5 2 == 1
  /\ Perfect.calculateSymmetryPerfect palindrome 5 2 == 1.
Proof.
  assert (Hm : mirrored palindrome 5 2).
  { intros x y Hx Hy.
    assert (Ey : (y = 0 \/ y = 1)%Z) by lia.
    assert (Ex : (x = 0 \/ x = 1 \/ x = 2 \/ x = 3 \/ x = 4)%Z) by lia.
    destruct Ey as [-> | ->]; destruct Ex as [-> | [-> | [-> | [-> | ->]]]];
      reflexivity. }
  split.
  - repeat split; [lia | lia | exact Hm].
  - apply (mirrored_buffer_is_fully_symmetric palindrome 5 2);
      [lia | lia | reflexivity | exact Hm].
Defined.

(** ** The ensemble: arg-max and confidence *)

Lemma Qmax_cases (x y : Q) : Qmax x y = x \/ Qmax x y = y.
Proof. unfold Qmax, GenericMinMax.gmax. destruct (x ?= y); auto. Qed.

Lemma fold_Qmax_In (r : list Q) : forall x, In (fold_left Qmax r x) (x :: r).
Proof.
  induction r as [|y r IH]; intro x; cbn [fold_left]; [left; reflexivity|].
  destruct (IH (Qmax x y)) as [E | H].
  - destruct (Qmax_cases x y) as [C | C]; [left | right; left];
      (transitivity (Qmax x y); [symmetry; exact C | exact E]).
  - right. right. exact H.
Qed.

Lemma Math_max_In (l : list Q) : l <> [] -> In (Math_max l) l.
Proof. destruct l as [|x r]; [congruence | intros _; apply fold_Qmax_In]. Qed.

Lemma add_score_keys (key : ImageType) (delta : Q) (scores : ScoreMap) :
  map fst (add_score key delta scores) = map fst scores.
Proof.
  unfold add_score. rewrite map_map. apply map_ext.
  intro e. destruct (ImageType_beq (fst e) key); reflexivity.
Qed.

(** The maximum is the score of some entry, so [find] succeeds and the
    fallback ['unknown'] is never taken. *)
Lemma selectClassification_key (scores : ScoreMap) :
  scores <> [] ->
  In (selectClassification scores (Math_max (map snd scores))) (map fst scores).
Proof.
  intro Hne. unfold selectClassification.
  assert (Hin : In (Math_max (map snd scores)) (map snd scores)).
  { apply Math_max_In. destruct scores; [congruence | discriminate]. }
  apply in_map_iff in Hin. destruct Hin as (e & He & Hin).
  destruct (find _ scores) as [e'|] eqn:F.
  - apply find_some in F. apply in_map, F.
  - apply (find_none _ _ F) in Hin. cbn beta in Hin.
    rewrite He, Qeq_bool_refl in Hin. discriminate.
Qed.

Lemma fold_keys {A : Type} (f : ScoreMap -> A -> ScoreMap) (l : list A) :
  (forall s x, map fst (f s x) = map fst s) ->
  forall s, map fst (fold_left f l s) = map fst s.
Proof.
  intro Hf. induction l as [|x l IH]; intro s; cbn [fold_left]; [reflexivity|].
  rewrite IH. apply Hf.
Qed.

Lemma clinical_ensemble_keys (a : Clinical.Analyses) :
  map fst (Clinical.ensembleScores a) = map fst Clinical.zeroScores.
Proof.
  unfold Clinical.ensembleScores; cbv zeta.
  destruct (Clinical.topPathologies _) as [|e r];
    [|destruct (_ && _); [rewrite add_score_keys|]];
    (rewrite fold_keys by (intros; apply add_score_keys);
     apply fold_keys; intros s [k f]; unfold Clinical.addFilename;
     destruct k; cbn [fst snd]; rewrite ?add_score_keys; reflexivity).
Qed.

Lemma perfect_ensemble_keys (a : Perfect.Analyses) :
  map fst (Perfect.ensembleScores a) = map fst Perfect.zeroScores.
Proof.
  unfold Perfect.ensembleScores; cbv zeta.
  rewrite fold_keys.
  - rewrite fold_keys by (intros; apply add_score_keys).
    apply fold_keys. intros s [k f]. unfold Perfect.addFilename.
    destruct k; cbn [fst snd]; rewrite ?add_score_keys; reflexivity.
  - intros s f. unfold Perfect.addFeature.
    repeat match goal with
           | |- context [if ?c then _ else _] => destruct c
           end; rewrite ?add_score_keys; reflexivity.
Qed.

(** Both classifiers always answer one of the nine modalities. *)
Lemma clinical_type_is_a_key (a : Clinical.Analyses) :
  In (Clinical.type (Clinical.classifyMedicalImageClinical a))
     (map fst Clinical.zeroScores).
Proof.
  unfold Clinical.classifyMedicalImageClinical; cbv zeta; cbn [Clinical.type].
  rewrite <- (clinical_ensemble_keys a). apply selectClassification_key.
  intro E. pose proof (clinical_ensemble_keys a) as K. rewrite E in K. discriminate.
Qed.

Lemma perfect_type_is_a_key (a : Perfect.Analyses) :
  In (Perfect.type (Perfect.classifyMedicalImagePerfect a))
     (map fst Perfect.zeroScores).
Proof.
  unfold Perfect.classifyMedicalImagePerfect; cbv zeta; cbn [Perfect.type].
  rewrite <- (perfect_ensemble_keys a). apply selectClassification_key.
  intro E. pose proof (perfect_ensemble_keys a) as K. rewrite E in K. discriminate.
Qed.

Lemma classifiers_never_answer_unknown (a : Clinical.Analyses) (b : Perfect.Analyses) :
  Clinical.type (Clinical.classifyMedicalImageClinical a) <> unknown
  /\ Perfect.type (Perfect.classifyMedicalImagePerfect b) <> unknown.
Proof.
  split; intro E.
  - pose proof (clinical_type_is_a_key a) as H. rewrite E in H.
    cbn in H. intuition discriminate.
  - pose proof (perfect_type_is_a_key b) as H. rewrite E in H.
    cbn in H. intuition discriminate.
Qed.

(** When every score is zero the maximum is zero and [find] stops at the
    first key. *)
Lemma all_zero_selects_first (k : ImageType) (s : Q) (rest : ScoreMap) :
  Forall (fun e => snd e == 0) ((k, s) :: rest) ->
  selectClassification ((k, s) :: rest) (Math_max (map snd ((k, s) :: rest))) = k.
Proof.
  intro H. unfold selectClassification.
  assert (Hm : Math_max (map snd ((k, s) :: rest)) == 0).
  { assert (Hin : In (Math_max (map snd ((k, s) :: rest))) (map snd ((k, s) :: rest)))
      by (apply Math_max_In; discriminate).
    apply in_map_iff in Hin. destruct Hin as (e & <- & He).
    rewrite Forall_forall in H. apply H, He. }
  cbn [find snd].
  assert (E : Qeq_bool s (Math_max (map snd ((k, s) :: rest))) = true).
  { apply Qeq_bool_iff. rewrite Hm. inversion H; subst. assumption. }
  rewrite E. reflexivity.
Qed.

(** C1. On a plain white image named [photo.png] no rule fires, every entry
    of the score map is zero, and the ensemble classifier answers the first
    key of its map, ['chest-xray'] in the clinical profile and ['brain-mri']
    in the perfect profile, not ['unknown']; the clinical report keeps
    ['chest-xray']. *)
Theorem unfired_rules_select_first_modality :
  let c := Clinical.classifyMedicalImageClinical (Clinical.clinicalAnalyses [white] photo 1 1) in
  let p := Perfect.classifyMedicalImagePerfect (Perfect.perfectAnalyses [white] photo 1 1) in
  (forallb (fun e => Qeq_bool (snd e) 0) (Clinical.scores c) = true
   /\ Clinical.type c = chest_xray
   /\ Clinical.imageType (Clinical.performClinicalImageAnalysis [white] photo 1 1)
      = chest_xray)
  /\ (forallb (fun e => Qeq_bool (snd e) 0) (Perfect.scores p) = true
      /\ Perfect.type p = brain_mri).
Proof. vm_compute. repeat split; reflexivity. Qed.

Lemma clamp_band (x lo hi : Q) : lo <= hi -> lo <= Qmax (Qmin x hi) lo <= hi.
Proof.
  intro H. split; [apply Q.le_max_r|].
  apply Q.max_lub; [apply Q.le_min_r | exact H].
Qed.

Lemma Math_round_band (q : Q) (lo hi : Z) :
  inject_Z lo <= q <= inject_Z hi -> (lo <= Math_round q <= hi)%Z.
Proof.
  intros [Hlo Hhi]. unfold Math_round. split.
  - rewrite <- (Qfloor_Z lo). apply Qfloor_resp_le. lra.
  - assert (H : inject_Z (Qfloor (q + (1 # 2))) < inject_Z (hi + 1)).
    { pose proof (Qfloor_le (q + (1 # 2))) as F.
      rewrite inject_Z_plus. change (inject_Z 1) with 1. lra. }
    rewrite <- Zlt_Qlt in H. lia.
Qed.

(** C4. The confidence of the ensemble classifier is
    [max(min(maxScore * 100, cap), floor)] and lies between the floor and
    the cap of its profile: 80 and 97 in the clinical profile, 75 and 98 in
    the perfect profile.  The rounded confidence of the clinical report
    stays in the band. *)
Theorem confidence_within_profile_band
    (a : Clinical.Analyses) (b : Perfect.Analyses) (file_name : string) :
  let c := Clinical.classifyMedicalImageClinical a in
  let p := Perfect.classifyMedicalImagePerfect b in
  (Clinical.confidence c
   = Qmax (Qmin (Math_max (map snd (Clinical.scores c)) * 100) 97) 80
   /\ 80 <= Clinical.confidence c <= 97
   /\ (80 <= Clinical.reportedConfidence (Clinical.generateClinicalDiagnosis c file_name)
       <= 97)%Z)
  /\ (Perfect.confidence p
      = Qmax (Qmin (Math_max (map snd (Perfect.scores p)) * 100) 98) 75
      /\ 75 <= Perfect.confidence p <= 98).
Proof.
  cbv zeta. split; split; try reflexivity.
  - assert (B : 80 <= Clinical.confidence (Clinical.classifyMedicalImageClinical a) <= 97)
      by (apply clamp_band; discriminate).
    split; [exact B|].
    assert (R : (80 <= Math_round (Clinical.confidence
                                     (Clinical.classifyMedicalImageClinical a)) <= 97)%Z)
      by (apply Math_round_band; exact B).
    unfold Clinical.generateClinicalDiagnosis; cbv zeta.
    destruct (Clinical.type _); exact R.
  - apply clamp_band. discriminate.
Qed.

(** C9. The report of the clinical profile carries one of three image
    types: it keeps ['chest-xray'] and ['brain-mri'] and its default branch
    replaces each of the seven other modalities (and ['unknown']) by
    ['unknown']. *)
Theorem clinical_report_has_three_image_types
    (c : Clinical.Classification) (file_name : string)
    (pixels : PixelBuffer) (width height : Z) :
  Clinical.imageType (Clinical.generateClinicalDiagnosis c file_name)
  = match Clinical.type c with
    | chest_xray => chest_xray
    | brain_mri => brain_mri
    | ct_scan | ultrasound | bone_xray | abdominal_ct
    | mammography | dental_xray | spine_xray | unknown => unknown
    end
  /\ In (Clinical.imageType (Clinical.generateClinicalDiagnosis c file_name))
        [chest_xray; brain_mri; unknown]
  /\ In (Clinical.imageType
           (Clinical.performClinicalImageAnalysis pixels file_name width height))
        [chest_xray; brain_mri; unknown].
Proof.
  assert (G : forall c', In (Clinical.imageType
                               (Clinical.generateClinicalDiagnosis c' file_name))
                            [chest_xray; brain_mri; unknown]).
  { intro c'. unfold Clinical.generateClinicalDiagnosis; cbv zeta.
    destruct (Clinical.type c'); cbn [Clinical.imageType In]; auto. }
  split; [|split; [apply G | apply G]].
  unfold Clinical.generateClinicalDiagnosis; cbv zeta.
  destruct (Clinical.type c); reflexivity.
Qed.

(** ** The chest rule *)

Lemma js_gt_Fin (a : num) (q : Q) :
  js_gt a (Fin q) = true -> a = PInf \/ exists x, a = Fin x /\ q < x.
Proof.
  destruct a as [x| | |]; cbn [js_gt js_lt]; try discriminate; [|left; reflexivity].
  intro H. right. exists x. split; [reflexivity | apply Qltb_true, H].
Qed.

Lemma wide_is_not_square (a : num) (t : Q) :
  t <= 0.2 -> js_gt a (Fin 1.2) = true ->
  js_lt (Math_abs (js_sub a (Fin 1))) (Fin t) = false.
Proof.
  intros Ht H. apply js_gt_Fin in H. destruct H as [-> | (x & -> & Hx)]; [reflexivity|].
  cbn [js_sub Math_abs js_lt]. apply Qltb_false. pose proof (Qle_Qabs (x - 1)). lra.
Qed.

Lemma wide_is_not_tall (a : num) (t : Q) :
  t <= 1.2 -> js_gt a (Fin 1.2) = true -> js_lt a (Fin t) = false.
Proof.
  intros Ht H. apply js_gt_Fin in H. destruct H as [-> | (x & -> & Hx)]; [reflexivity|].
  cbn [js_lt]. apply Qltb_false. lra.
Qed.

Lemma analyzeMedicalFilename_silent (file_name : string) :
  matchesNoPattern file_name = true ->
  Clinical.analyzeMedicalFilename file_name
  = map (fun entry => (fst entry, Clinical.mkFilenameScore 0.0 (snd (snd entry))))
        Clinical.clinicalPatterns.
Proof.
  unfold matchesNoPattern, Clinical.analyzeMedicalFilename, Clinical.clinicalPatterns.
  cbn [forallb map fst snd]. rewrite !andb_true_iff, !negb_true_iff.
  intros (H1 & H2 & H3 & H4 & _). rewrite H1, H2, H3, H4. reflexivity.
Qed.

(** The scores of the rule table when the chest rule fires on a wide image:
    only the bone rule can fire beside it. *)
Lemma chest_rule_classification (pixels : PixelBuffer) (width height : Z) :
  let v := Clinical.performAdvancedVisualAnalysis pixels width height in
  let s := Clinical.analyzeAnatomicalStructure pixels width height in
  js_lt (brightness v) (Fin 80) = true ->
  0.6 < contrast v ->
  js_gt (Clinical.aspectRatio s) (Fin 1.2) = true ->
  js_lt (Clinical.aspectRatio s) (Fin 1.8) = true ->
  js_gt (edgeDensity v) (Fin 0.25) = true ->
  exists bone_fires : bool,
    Clinical.performClinicalClassification pixels width height
    = [ (chest_xray, 0.95); (brain_mri, 0); (ct_scan, 0); (ultrasound, 0);
        (bone_xray, if bone_fires then 0.88 else 0); (abdominal_ct, 0);
        (mammography, 0); (dental_xray, 0); (spine_xray, 0) ].
Proof.
  unfold Clinical.performClinicalClassification, Clinical.performAdvancedVisualAnalysis,
    Clinical.analyzeAnatomicalStructure, visualFlags; cbv zeta.
  cbn [Clinical.visual_core Clinical.clinicalFeatures Clinical.anatomicalFeatures
       Clinical.clinicalPositioning Clinical.aspectRatio
       isDark isMedium hasHighContrast hasLowContrast
       Clinical.isChestXray Clinical.isBrainMRI Clinical.isCTScan
       Clinical.isSpineXray Clinical.isMammography Clinical.hasGoodSymmetry].
  set (v := visualCore 50 30 pixels).
  set (ar := js_div (inject_Z width) (inject_Z height)).
  intros Hdark Hcontrast Hwide Hnarrow Hedge.
  apply Qgtb_true in Hcontrast.
  assert (Hlow : Qle_bool (contrast v) 0.3 = false) by (apply Qle_bool_false; apply Qgtb_true in Hcontrast; lra).
  rewrite Hdark, Hcontrast, Hwide, Hnarrow, Hedge, Hlow.
  rewrite (wide_is_not_square ar 0.2), (wide_is_not_square ar 0.15),
    (wide_is_not_tall ar 0.6), (wide_is_not_tall ar 0.8)
    by (exact Hwide || discriminate).
  cbn [andb].
  eexists. reflexivity.
Qed.

(** C3, as the specification states it, fails: on this 7 by 5 image the
    features are the ones it names, the mean brightness is not below 80, so
    the chest rule does not fire, the bone rule does, and the ensemble
    selects ['bone-xray']. *)
Lemma chest_features_can_select_bone_xray :
  matchesNoPattern photo = true
  /\ chestLikeFeatures speckled 7 5
  /\ Clinical.type (Clinical.classifyMedicalImageClinical
                      (Clinical.clinicalAnalyses speckled photo 7 5)) = bone_xray.
Proof. vm_compute. repeat split; reflexivity. Qed.

(** C3, amended. When the file name matches no keyword pattern and the
    features are the ones the specification names, with moreover a mean
    brightness below 80 and a contrast above 0.6 (so that the chest rule
    fires), the ensemble classifier selects ['chest-xray']. *)
Theorem chest_rule_selects_chest_xray
    (pixels : PixelBuffer) (file_name : string) (width height : Z) :
  let v := Clinical.performAdvancedVisualAnalysis pixels width height in
  matchesNoPattern file_name = true ->
  chestLikeFeatures pixels width height ->
  js_lt (brightness v) (Fin 80) = true ->
  0.6 < contrast v ->
  Clinical.type (Clinical.classifyMedicalImageClinical
                   (Clinical.clinicalAnalyses pixels file_name width height))
  = chest_xray.
Proof.
  intros v Hname (_ & _ & _ & Hwide & Hnarrow & Hedge) Hdark Hcontrast.
  destruct (chest_rule_classification pixels width height
              Hdark Hcontrast Hwide Hnarrow Hedge) as [bone_fires Hrules].
  unfold Clinical.classifyMedicalImageClinical, Clinical.ensembleScores,
    Clinical.clinicalAnalyses; cbv zeta.
  cbn [Clinical.type Clinical.filename Clinical.clinical Clinical.pathology].
  rewrite Hrules, (analyzeMedicalFilename_silent file_name Hname).
  destruct (Clinical.topPathologies _) as [|e r];
    [|destruct (_ && _)]; destruct bone_fires; vm_compute; reflexivity.
Qed.

Lemma chest_rule_selects_chest_xray_witness :
  (matchesNoPattern photo = true
   /\ chestLikeFeatures stripes 4 3
   /\ js_lt (brightness (Clinical.performAdvancedVisualAnalysis stripes 4 3)) (Fin 80)
      = true
   /\ 0.6 < contrast (Clinical.performAdvancedVisualAnalysis stripes 4 3))
  /\ Clinical.type (Clinical.classifyMedicalImageClinical
                      (Clinical.clinicalAnalyses stripes photo 4 3)) = chest_xray.
Proof.
  split.
  - vm_compute. repeat split; reflexivity.
  - apply (chest_rule_selects_chest_xray stripes photo 4 3);
      vm_compute; repeat split; reflexivity.
Defined.

(** * Further properties of the extractors, the scorers and the reports *)


(** ** Images without pairs or without interior *)

Lemma zrange_empty (lo hi step : Z) : (hi <= lo)%Z -> zrange lo hi step = [].
Proof.
  intro H. unfold zrange. destruct (Z.to_nat (hi - lo)); cbn [zrange_aux]; [reflexivity|].
  assert (E : (lo <? hi)%Z = false) by (apply Z.ltb_ge; exact H).
  rewrite E. reflexivity.
Qed.

Lemma forRange_empty {S : Type} (lo hi step : Z) (body : Z -> S -> S) (s : S) :
  (hi <= lo)%Z -> forRange lo hi step body s = s.
Proof. intro H. unfold forRange. rewrite zrange_empty by exact H. reflexivity. Qed.

Lemma forRange_idle {S : Type} (lo hi step : Z) (body : Z -> S -> S) (s : S) :
  (forall i t, body i t = t) -> forRange lo hi step body s = s.
Proof.
  intro H. unfold forRange. induction (zrange lo hi step) as [|i l IH]; cbn [fold_left].
  - reflexivity.
  - rewrite H. exact IH.
Qed.

Lemma bilateralSymmetryWith_narrow (stride : Z) (pixels : PixelBuffer)
    (width height : Z) :
  (width <= 1)%Z -> bilateralSymmetryWith stride pixels width height = 0.
Proof.
  intro H.
  assert (C : (width / 2 <= 0)%Z).
  { assert (width / 2 < 1)%Z by (apply Z.div_lt_upper_bound; lia). lia. }
  unfold bilateralSymmetryWith; cbv zeta.
  rewrite forRange_idle; [reflexivity|].
  intros y t. apply forRange_empty. exact C.
Qed.

Lemma verticalSymmetryWith_flat (stride : Z) (pixels : PixelBuffer)
    (width height : Z) :
  (height <= 1)%Z -> verticalSymmetryWith stride pixels width height = 0.
Proof.
  intro H.
  assert (C : (height / 2 <= 0)%Z).
  { assert (height / 2 < 1)%Z by (apply Z.div_lt_upper_bound; lia). lia. }
  unfold verticalSymmetryWith; cbv zeta.
  rewrite forRange_idle; [reflexivity|].
  intros y t. apply forRange_empty. exact C.
Qed.

(** An image less than two pixels wide has no left-right pair: the symmetry
    score is the 0 of the guard in both profiles, whatever the pixels are,
    so the clinical profile never sees a brain MRI in it and the perfect
    profile rates its symmetry as poor. *)
Theorem narrow_image_has_no_symmetry (pixels : PixelBuffer) (width height : Z) :
  (width <= 1)%Z ->
  Clinical.calculateBilateralSymmetry pixels width height = 0
  /\ Perfect.calculateSymmetryPerfect pixels width height = 0
  /\ Clinical.isBrainMRI
       (Clinical.anatomicalFeatures
          (Clinical.analyzeAnatomicalStructure pixels width height)) = false
  /\ Perfect.hasPoorSymmetry (Perfect.analyzeImageStructurePerfect pixels width height)
     = true.
Proof.
  intro H.
  assert (C : Clinical.calculateBilateralSymmetry pixels width height = 0)
    by (apply bilateralSymmetryWith_narrow; exact H).
  assert (P : Perfect.calculateSymmetryPerfect pixels width height = 0)
    by (apply bilateralSymmetryWith_narrow; exact H).
  split; [exact C|]. split; [exact P|].
  unfold Clinical.analyzeAnatomicalStructure, Perfect.analyzeImageStructurePerfect;
    cbv zeta.
  cbn [Clinical.anatomicalFeatures Clinical.isBrainMRI Perfect.hasPoorSymmetry].
  rewrite C, P. split; [apply andb_false_r | reflexivity].
Qed.

Lemma narrow_image_has_no_symmetry_witness :
  (1 <= 1)%Z
  /\ Clinical.calculateBilateralSymmetry [white; black; white] 1 3 = 0
  /\ Perfect.calculateSymmetryPerfect [white; black; white] 1 3 = 0
  /\ Clinical.isBrainMRI
       (Clinical.anatomicalFeatures
          (Clinical.analyzeAnatomicalStructure [white; black; white] 1 3)) = false
  /\ Perfect.hasPoorSymmetry
       (Perfect.analyzeImageStructurePerfect [white; black; white] 1 3) = true.
Proof.
  split; [lia|]. apply (narrow_image_has_no_symmetry [white; black; white] 1 3). lia.
Defined.

Lemma textureWith_no_interior (stride : Z) (pixels : PixelBuffer) (width height : Z) :
  (width < 5 \/ height < 5)%Z ->
  textureWith stride pixels width height = textureWith stride [] 0 0.
Proof.
  intro H. unfold textureWith.
  assert (E : forall p w h, (w < 5 \/ h < 5)%Z ->
            forRange 2 (h - 2) stride
              (fun y => forRange 2 (w - 2) stride (fun x => textureCenter p w x y))
              (mkTex 0 0 0) = mkTex 0 0 0).
  { intros p w h [Hw | Hh].
    - apply forRange_idle. intros y t. apply forRange_empty. lia.
    - apply forRange_empty. lia. }
  rewrite (E pixels width height H), (E [] 0%Z 0%Z) by lia. reflexivity.
Qed.

(** An image less than five pixels wide or high has no interior pixel, so
    the texture extractor samples nothing: roughness and local variance are
    the 0 of the guard, uniformity is 1 and the tags are those of a smooth,
    uniform, clean image, in the clinical profile. *)
Theorem texture_without_interior (pixels : PixelBuffer) (width height : Z) :
  (width < 5 \/ height < 5)%Z ->
  let t := Clinical.performTextureAnalysis pixels width height in
  roughness t = 0 /\ localVariance t = 0 /\ uniformity t == 1
  /\ textureComplexity t == 0
  /\ Clinical.patterns t
     = ["smooth"; "low-detail"; "homogeneous"; "uniform"; "homogeneous";
        "normal-tissue"; "low-variance"; "clean"; "high-quality"]
  /\ Clinical.isSmooth (Clinical.clinicalTexture t) = true
  /\ Clinical.isHighQuality (Clinical.clinicalTexture t) = true.
Proof.
  intro H. unfold Clinical.performTextureAnalysis.
  rewrite (textureWith_no_interior 2 pixels width height H).
  vm_compute. repeat split; reflexivity || discriminate.
Qed.

Lemma texture_without_interior_witness :
  (4 < 5 \/ 3 < 5)%Z
  /\ (let t := Clinical.performTextureAnalysis stripes 4 3 in
      roughness t = 0 /\ localVariance t = 0 /\ uniformity t == 1
      /\ textureComplexity t == 0
      /\ Clinical.patterns t
         = ["smooth"; "low-detail"; "homogeneous"; "uniform"; "homogeneous";
            "normal-tissue"; "low-variance"; "clean"; "high-quality"]
      /\ Clinical.isSmooth (Clinical.clinicalTexture t) = true
      /\ Clinical.isHighQuality (Clinical.clinicalTexture t) = true).
Proof.
  split; [left; lia|].
  apply (texture_without_interior stripes 4 3). left. lia.
Defined.

(** ** Buffers mirrored about the horizontal midline *)

Lemma mirrored_vertical_symmetry (stride : Z) (pixels : PixelBuffer) (width height : Z) :
  (0 < stride)%Z -> (1 <= width)%Z -> (2 <= height)%Z ->
  Z.of_nat (length pixels) = (width * height)%Z ->
  mirroredVertically pixels width height ->
  verticalSymmetryWith stride pixels width height == 1.
Proof.
  intros Hs Hw Hh Hlen Hm. unfold verticalSymmetryWith.
  assert (Hc : (0 < height / 2 <= height)%Z).
  { split; [apply Z.div_str_pos; lia | apply Z.div_le_upper_bound; lia]. }
  assert (Hstep : forall x y t, (0 <= x < width)%Z -> (0 <= y < height / 2)%Z ->
            sym_exact 1 t ->
            sym_exact 1 (comparePair pixels ((y * width + x) * 4)
                           (((height - 1 - y) * width + x) * 4) t)).
  { intros x y t Hx Hy Ht. apply comparePair_exact; [apply Hm; lia | exact Ht]. }
  match goal with |- symmetryResult ?a == 1 => assert (Hfin : sym_exact 1 a) end.
  { apply forRange_first; [exact Hs | lia | |].
    - intros x t Hx Ht. apply forRange_invariant; [exact Hs | | exact Ht].
      intros y u Hy Hu. apply Hstep; assumption.
    - apply forRange_first; [exact Hs | lia | |].
      + intros y u Hy Hu. apply Hstep; [lia | exact Hy | exact Hu].
      + unfold comparePair.
        assert (G1 : ((0 * width + 0) * 4 <? plen pixels)%Z = true).
        { apply Z.ltb_lt. unfold plen. nia. }
        assert (G2 : (((height - 1 - 0) * width + 0) * 4 <? plen pixels)%Z = true).
        { apply Z.ltb_lt. unfold plen. nia. }
        rewrite G1, G2. cbn [andb]. unfold sym_exact; cbn [symmetryScore comparisons].
        rewrite similarity_same by (apply Hm; lia).
        split; [reflexivity | lia]. }
  destruct Hfin as [Hscore Hk]. unfold symmetryResult.
  assert (E : (comparisons _ >? 0)%Z = true)
    by (apply Z.gtb_lt; exact (Z.lt_le_trans _ _ _ Z.lt_0_1 Hk)).
  rewrite E, Hscore. apply Qdiv_self.
  intro Hz.
  pose proof (inject_Z_pos (comparisons _) (Z.lt_le_trans _ _ _ Z.lt_0_1 Hk)) as Hp.
  rewrite Hz in Hp. discriminate.
Qed.

(** For a buffer of [width * height] pixels with at least one column and two
    rows that is its own mirror image about the horizontal midline, the
    top-bottom symmetry score is 1, in both profiles. *)
Theorem vertically_mirrored_buffer_is_fully_symmetric
    (pixels : PixelBuffer) (width height : Z) :
  (1 <= width)%Z -> (2 <= height)%Z ->
  Z.of_nat (length pixels) = (width * height)%Z ->
  mirroredVertically pixels width height ->
  Clinical.calculateVerticalSymmetry pixels width height == 1
  /\ Perfect.calculateVerticalSymmetryPerfect pixels width height == 1.
Proof.
  intros Hw Hh Hlen Hm.
  split; apply mirrored_vertical_symmetry; try assumption; reflexivity.
Qed.

Lemma vertically_mirrored_buffer_is_fully_symmetric_witness :
  ((1 <= 2)%Z /\ (2 <= 3)%Z
   /\ Z.of_nat (length [black; white; white; white; black; white]) = (2 * 3)%Z
   /\ mirroredVertically [black; white; white; white; black; white] 2 3)
  /\ Clinical.calculateVerticalSymmetry [black; white; white; white; black; white] 2 3 == 1
  /\ Perfect.calculateVerticalSymmetryPerfect
       [black; white; white; white; black; white] 2 3 == 1.
Proof.
  assert (Hm : mirroredVertically [black; white; white; white; black; white] 2 3).
  { intros x y Hx Hy.
    assert (Ex : (x = 0 \/ x = 1)%Z) by lia.
    assert (Ey : (y = 0 \/ y = 1 \/ y = 2)%Z) by lia.
    destruct Ex as [-> | ->]; destruct Ey as [-> | [-> | ->]]; reflexivity. }
  split.
  - repeat split; [lia | lia | exact Hm].
  - apply (vertically_mirrored_buffer_is_fully_symmetric
             [black; white; white; white; black; white] 2 3);
      [lia | lia | reflexivity | exact Hm].
Defined.


(** ** Ranges of the visual features *)

Lemma chan_range (b : byte) : (0 <= chan b <= 255)%Z.
Proof. unfold chan. pose proof (Byte.to_N_bounded b). lia. Qed.

Lemma pixelBrightness_range (p : pixel) : (0 <= pixelBrightness p <= 255)%Z.
Proof.
  unfold pixelBrightness. apply Math_round_band.
  pose proof (chan_range (red p)) as Hr. pose proof (chan_range (green p)) as Hg.
  pose proof (chan_range (blue p)) as Hb.
  set (s := (chan (red p) + chan (green p) + chan (blue p))%Z) in *.
  assert (S0 : 0 <= inject_Z s) by (apply inject_Z_nonneg; lia).
  assert (S1 : inject_Z s <= inject_Z 765) by (rewrite <- Zle_Qle; lia).
  change (inject_Z 0) with 0. change (inject_Z 255) with 255.
  change (inject_Z 765) with 765 in S1.
  split; [apply Qle_shift_div_l | apply Qle_shift_div_r]; try reflexivity; lra.
Qed.

Lemma visualStep_bounds (darkBelow edgeAbove : Z) (p : pixel) (next : option pixel)
    (st : VisualCounts) :
  let st' := visualStep darkBelow edgeAbove p next st in
  (darkPixels st <= darkPixels st')%Z /\ (brightPixels st <= brightPixels st')%Z
  /\ (mediumPixels st <= mediumPixels st')%Z
  /\ (totalBrightness st <= totalBrightness st' <= totalBrightness st + 255)%Z
  /\ (edgeCount st <= edgeCount st'
      <= edgeCount st + match next with Some _ => 1 | None => 0 end)%Z.
Proof.
  pose proof (pixelBrightness_range p) as Hb. unfold pixelBrightness in Hb.
  unfold visualStep; cbv zeta.
  cbn [darkPixels brightPixels mediumPixels totalBrightness edgeCount].
  set (b := Math_round _) in *.
  destruct (b <? darkBelow)%Z; destruct (b >? 200)%Z; destruct next as [q|];
    try destruct (Z.abs _ >? edgeAbove)%Z; repeat split; lia.
Qed.

Lemma visualLoop_bounds (darkBelow edgeAbove : Z) (pixels : PixelBuffer) :
  forall st,
    let st' := visualLoop darkBelow edgeAbove pixels st in
    (darkPixels st <= darkPixels st')%Z /\ (brightPixels st <= brightPixels st')%Z
    /\ (mediumPixels st <= mediumPixels st')%Z
    /\ (totalBrightness st <= totalBrightness st'
        <= totalBrightness st + 255 * Z.of_nat (length pixels))%Z
    /\ (edgeCount st <= edgeCount st'
        <= edgeCount st + Z.of_nat (length (tl pixels)))%Z.
Proof.
  induction pixels as [|p rest IH]; intro st; cbn [visualLoop].
  - cbn. repeat split; lia.
  - pose proof (visualStep_bounds darkBelow edgeAbove p (hd_error rest) st) as S.
    cbv zeta in S, IH |- *.
    specialize (IH (visualStep darkBelow edgeAbove p (hd_error rest) st)).
    destruct S as (S1 & S2 & S3 & S4 & S5). destruct IH as (I1 & I2 & I3 & I4 & I5).
    cbn [tl length].
    assert (E : (match hd_error rest with Some _ => 1 | None => 0 end
                 + Z.of_nat (length (tl rest)) = Z.of_nat (length rest))%Z).
    { destruct rest; cbn [hd_error tl length]; lia. }
    repeat split; lia.
Qed.

Lemma totalPixels_value (pixels : PixelBuffer) :
  inject_Z (plen pixels) / 4 == inject_Z (Z.of_nat (length pixels)).
Proof.
  unfold plen. rewrite inject_Z_mult. change (inject_Z 4) with 4. field.
Qed.

Lemma quotient_between (x n c : Z) :
  (0 < n)%Z -> (0 <= x <= c * n)%Z ->
  0 <= inject_Z x / inject_Z n <= inject_Z c.
Proof.
  intros Hn [H0 H1]. pose proof (inject_Z_pos n Hn) as Hp. split.
  - apply Qdiv_nonneg; [apply inject_Z_nonneg, H0 | exact Hp].
  - apply Qle_shift_div_r; [exact Hp|]. rewrite <- inject_Z_mult, <- Zle_Qle. exact H1.
Qed.

Lemma visualCore_bounded (darkBelow edgeAbove : Z) (pixels : PixelBuffer) :
  pixels <> [] ->
  let v := visualCore darkBelow edgeAbove pixels in
  num_in (fun q => 0 <= q <= 255) (brightness v)
  /\ num_in (fun q => 0 <= q < 1) (edgeDensity v)
  /\ num_in (fun q => 0 <= q <= 1) (darkRatio v)
  /\ num_in (fun q => 0 <= q <= 1) (brightRatio v)
  /\ num_in (fun q => 0 <= q <= 1) (mediumRatio v).
Proof.
  intro Hne. unfold visualCore; cbv zeta.
  cbn [brightness edgeDensity darkRatio brightRatio mediumRatio]. unfold js_div.
  rewrite (totalPixels_nonzero pixels Hne). cbn [num_in].
  pose proof (visualLoop_bounds darkBelow edgeAbove pixels initialCounts) as B.
  pose proof (visualLoop_bands darkBelow edgeAbove pixels initialCounts) as S.
  cbv zeta in B, S.
  cbn [initialCounts darkPixels brightPixels mediumPixels totalBrightness edgeCount] in B, S.
  set (st := visualLoop darkBelow edgeAbove pixels initialCounts) in *.
  destruct B as (B1 & B2 & B3 & B4 & B5).
  assert (Hn : (0 < Z.of_nat (length pixels))%Z)
    by (destruct pixels; [congruence | cbn [length]; lia]).
  assert (Ht : (Z.of_nat (length (tl pixels)) = Z.of_nat (length pixels) - 1)%Z)
    by (destruct pixels; [congruence | cbn [tl length]; lia]).
  rewrite !totalPixels_value.
  assert (Q1 := quotient_between (totalBrightness st) _ 255 Hn).
  assert (Q2 := quotient_between (edgeCount st) _ 1 Hn).
  assert (Q3 := quotient_between (darkPixels st) _ 1 Hn).
  assert (Q4 := quotient_between (brightPixels st) _ 1 Hn).
  assert (Q5 := quotient_between (mediumPixels st) _ 1 Hn).
  change (inject_Z 255) with 255 in Q1. change (inject_Z 1) with 1 in Q2, Q3, Q4, Q5.
  split; [apply Q1; lia|].
  split; [|split; [apply Q3; lia | split; [apply Q4; lia | apply Q5; lia]]].
  split; [apply Q2; lia|].
  apply Qlt_shift_div_r; [apply inject_Z_pos, Hn|].
  rewrite Qmult_1_l, <- Zlt_Qlt. lia.
Qed.

(** On a buffer with at least one pixel the mean brightness is a number
    between 0 and 255, the edge density lies in [0, 1) and each of the three
    band fractions lies in [0, 1], in both profiles. *)
Theorem visual_features_are_bounded (pixels : PixelBuffer) (width height : Z) :
  pixels <> [] ->
  let bounded (v : VisualCore) :=
    num_in (fun q => 0 <= q <= 255) (brightness v)
    /\ num_in (fun q => 0 <= q < 1) (edgeDensity v)
    /\ num_in (fun q => 0 <= q <= 1) (darkRatio v)
    /\ num_in (fun q => 0 <= q <= 1) (brightRatio v)
    /\ num_in (fun q => 0 <= q <= 1) (mediumRatio v) in
  bounded (Clinical.performAdvancedVisualAnalysis pixels width height)
  /\ bounded (Perfect.analyzeVisualCharacteristicsPerfect pixels width height).
Proof.
  intros Hne bounded.
  split; [apply (visualCore_bounded 50 30) | apply (visualCore_bounded 60 25)];
    exact Hne.
Qed.

Lemma visual_features_are_bounded_witness :
  stripes <> []
  /\ (let bounded (v : VisualCore) :=
        num_in (fun q => 0 <= q <= 255) (brightness v)
        /\ num_in (fun q => 0 <= q < 1) (edgeDensity v)
        /\ num_in (fun q => 0 <= q <= 1) (darkRatio v)
        /\ num_in (fun q => 0 <= q <= 1) (brightRatio v)
        /\ num_in (fun q => 0 <= q <= 1) (mediumRatio v) in
      bounded (Clinical.performAdvancedVisualAnalysis stripes 4 3)
      /\ bounded (Perfect.analyzeVisualCharacteristicsPerfect stripes 4 3)).
Proof.
  split; [discriminate|].
  apply (visual_features_are_bounded stripes 4 3). discriminate.
Defined.

(** ** The histogram *)

Lemma incr_at_length (k : nat) (h : list Z) : length (incr_at k h) = length h.
Proof.
  revert k. induction h as [|c r IH]; intros [|k]; cbn [incr_at length];
    try reflexivity. rewrite IH. reflexivity.
Qed.

Lemma incr_at_sum (k : nat) (h : list Z) :
  (k < length h)%nat -> sumZ (incr_at k h) = (sumZ h + 1)%Z.
Proof.
  revert k. induction h as [|c r IH]; intros [|k] H; cbn [incr_at sumZ fold_right length] in *;
    try lia.
  fold (sumZ r). fold (sumZ (incr_at k r)). rewrite IH by lia. lia.
Qed.

Lemma visualStep_histogram (darkBelow edgeAbove : Z) (p : pixel) (next : option pixel)
    (st : VisualCounts) :
  histogram_c (visualStep darkBelow edgeAbove p next st)
  = incr_at (Z.to_nat (pixelBrightness p)) (histogram_c st).
Proof. reflexivity. Qed.

Lemma visualLoop_histogram (darkBelow edgeAbove : Z) (pixels : PixelBuffer) :
  forall st, length (histogram_c st) = 256%nat ->
    let st' := visualLoop darkBelow edgeAbove pixels st in
    length (histogram_c st') = 256%nat
    /\ sumZ (histogram_c st') = (sumZ (histogram_c st) + Z.of_nat (length pixels))%Z.
Proof.
  induction pixels as [|p rest IH]; intros st Hl; cbn [visualLoop].
  - cbn [length]. split; [exact Hl | lia].
  - cbv zeta in IH |- *.
    set (st1 := visualStep darkBelow edgeAbove p (hd_error rest) st).
    assert (H1 : length (histogram_c st1) = 256%nat).
    { unfold st1. rewrite visualStep_histogram, incr_at_length. exact Hl. }
    destruct (IH st1 H1) as [L S]. split; [exact L|].
    rewrite S. unfold st1. rewrite visualStep_histogram, incr_at_sum.
    + cbn [length]. lia.
    + pose proof (pixelBrightness_range p). rewrite Hl. lia.
Qed.

(** The histogram always has 256 bins and their counts add up to the number
    of pixels: every pixel is counted once, in a bin that exists. *)
Theorem histogram_counts_every_pixel (pixels : PixelBuffer) (width height : Z) :
  let c := Clinical.performAdvancedVisualAnalysis pixels width height in
  let p := Perfect.analyzeVisualCharacteristicsPerfect pixels width height in
  (length (histogram c) = 256%nat /\ sumZ (histogram c) = Z.of_nat (length pixels))
  /\ (length (histogram p) = 256%nat /\ sumZ (histogram p) = Z.of_nat (length pixels)).
Proof.
  assert (G : forall d e,
            length (histogram (visualCore d e pixels)) = 256%nat
            /\ sumZ (histogram (visualCore d e pixels)) = Z.of_nat (length pixels)).
  { intros d e. unfold visualCore; cbv zeta; cbn [histogram].
    destruct (visualLoop_histogram d e pixels initialCounts) as [L S]; [reflexivity|].
    split; [exact L|]. rewrite S. cbn [initialCounts histogram_c].
    change (sumZ (repeat 0%Z 256)) with 0%Z. lia. }
  split; apply G.
Qed.


(** ** Buffers of a single colour *)

Lemma brightnessAt_repeat (p : pixel) (n : nat) (index : Z) :
  (0 <= index < plen (repeat p n))%Z ->
  brightnessAt (repeat p n) index = brightnessAt [p] 0.
Proof.
  intro H. unfold brightnessAt, pixelAt, plen in *. rewrite repeat_length in H.
  rewrite nth_repeat_lt; [reflexivity|].
  apply Nat2Z.inj_lt. rewrite Z2Nat.id by (apply Z.div_pos; lia).
  apply Z.div_lt_upper_bound; lia.
Qed.

Lemma visualLoop_uniform (darkBelow edgeAbove : Z) (p : pixel) (n : nat) :
  (0 <= edgeAbove)%Z ->
  forall st,
    let st' := visualLoop darkBelow edgeAbove (repeat p n) st in
    edgeCount st' = edgeCount st
    /\ totalBrightness st' = (totalBrightness st + Z.of_nat n * pixelBrightness p)%Z
    /\ histogram_c st'
       = Nat.iter n (incr_at (Z.to_nat (pixelBrightness p))) (histogram_c st).
Proof.
  intro He. induction n as [|n IH]; intro st; cbn [repeat visualLoop].
  - cbn [Nat.iter]. repeat split; lia.
  - cbv zeta in IH |- *.
    destruct (IH (visualStep darkBelow edgeAbove p (hd_error (repeat p n)) st))
      as (E & T & H).
    rewrite E, T, H, visualStep_histogram, Nat.iter_succ_r.
    unfold visualStep; cbv zeta; cbn [edgeCount totalBrightness].
    fold (pixelBrightness p).
    assert (G : match hd_error (repeat p n) with
                | Some q => (Z.abs (chan (red p) - chan (red q)) >? edgeAbove)%Z
                | None => false
                end = false).
    { destruct n; cbn [repeat hd_error]; [reflexivity|].
      rewrite Z.sub_diag, Z.gtb_ltb. apply Z.ltb_ge. exact He. }
    rewrite G. repeat split; lia.
Qed.

Lemma incr_at_middle (k : nat) (c : Z) (r : list Z) :
  incr_at k (repeat 0%Z k ++ c :: r) = repeat 0%Z k ++ (c + 1)%Z :: r.
Proof.
  induction k as [|k IH]; cbn [repeat app incr_at]; [reflexivity|].
  rewrite IH. reflexivity.
Qed.

Lemma iter_incr_at_middle (n k : nat) (c : Z) (r : list Z) :
  Nat.iter n (incr_at k) (repeat 0%Z k ++ c :: r)
  = repeat 0%Z k ++ (c + Z.of_nat n)%Z :: r.
Proof.
  induction n as [|n IH].
  - simpl Nat.iter. rewrite Z.add_0_r. reflexivity.
  - rewrite Nat.iter_succ, IH, incr_at_middle. do 2 f_equal. lia.
Qed.

Lemma reduce_zeros (f : Z -> Z -> Q) :
  (forall i, f 0%Z i == 0) ->
  forall m i s, reduce_indexed f i (repeat 0%Z m) s == s.
Proof.
  intro Hf. induction m as [|m IH]; intros i s; cbn [repeat reduce_indexed].
  - reflexivity.
  - rewrite IH, Hf. ring.
Qed.

Lemma reduce_single_bin (f : Z -> Z -> Q) :
  (forall i, f 0%Z i == 0) ->
  forall k i s c m,
    reduce_indexed f i (repeat 0%Z k ++ c :: repeat 0%Z m) s
    == s + f c (i + Z.of_nat k)%Z.
Proof.
  intro Hf. induction k as [|k IH]; intros i s c m; cbn [repeat app reduce_indexed].
  - rewrite reduce_zeros by exact Hf. rewrite Z.add_0_r. reflexivity.
  - rewrite IH, Hf.
    replace (i + 1 + Z.of_nat k)%Z with (i + Z.of_nat (S k))%Z by lia. ring.
Qed.

Lemma Math_sqrt_zero (q : Q) : q == 0 -> Math_sqrt q == 0.
Proof.
  intro H. unfold Math_sqrt.
  assert (E : Qfloor (q * inject_Z (2 ^ 40)) = 0%Z).
  { rewrite (Qfloor_comp _ 0); [reflexivity | rewrite H; ring]. }
  rewrite E. reflexivity.
Qed.

(** A histogram with a single occupied bin has no spread. *)
Lemma contrast_single_bin (k m : nat) (c : Z) :
  contrastOfHistogram (repeat 0%Z k ++ c :: repeat 0%Z m) == 0.
Proof.
  unfold contrastOfHistogram; cbv zeta.
  set (h := repeat 0%Z k ++ c :: repeat 0%Z m).
  set (total := reduce_indexed (fun count _ => inject_Z count) 0 h 0).
  destruct (Qeq_bool total 0) eqn:E; [reflexivity|].
  apply Qeq_bool_neq in E.
  assert (Ht : total == inject_Z c).
  { unfold total, h. rewrite reduce_single_bin by (intro; reflexivity). ring. }
  set (mean := reduce_indexed (fun count index => inject_Z count * inject_Z index) 0 h 0
               / total).
  assert (Hm : mean == inject_Z (Z.of_nat k)).
  { unfold mean, h. rewrite reduce_single_bin by (intro; change (inject_Z 0) with 0; ring).
    rewrite Z.add_0_l. rewrite Ht in E |- *. field. exact E. }
  set (fv := fun count index : Z =>
               if (count >? 0)%Z then inject_Z count * Math_pow2 (inject_Z index - mean)
               else 0).
  assert (Hv : reduce_indexed fv 0 h 0 == 0).
  { unfold h. rewrite reduce_single_bin by (intro; reflexivity).
    rewrite Z.add_0_l. unfold fv. destruct (c >? 0)%Z; [|ring].
    unfold Math_pow2. rewrite Hm. ring. }
  assert (Hs : Math_sqrt (reduce_indexed fv 0 h 0 / total) == 0).
  { apply Math_sqrt_zero. rewrite Hv. unfold Qdiv. ring. }
  rewrite Hs. reflexivity.
Qed.

Lemma visualCore_uniform (darkBelow edgeAbove : Z) (p : pixel) (n : nat) :
  (0 <= edgeAbove)%Z -> (0 < n)%nat ->
  let v := visualCore darkBelow edgeAbove (repeat p n) in
  contrast v == 0
  /\ num_eq (edgeDensity v) (Fin 0)
  /\ num_eq (brightness v) (Fin (inject_Z (pixelBrightness p))).
Proof.
  intros He Hn. unfold visualCore; cbv zeta. cbn [contrast edgeDensity brightness].
  destruct (visualLoop_uniform darkBelow edgeAbove p n He initialCounts) as (E & T & H).
  cbv zeta in E, T, H. rewrite E, T, H.
  cbn [initialCounts edgeCount totalBrightness histogram_c].
  assert (Hne : repeat p n <> []) by (destruct n; [lia | discriminate]).
  unfold js_div. rewrite (totalPixels_nonzero _ Hne). cbn [num_eq].
  rewrite totalPixels_value, repeat_length.
  assert (Hp : ~ inject_Z (Z.of_nat n) == 0).
  { intro Z0. pose proof (inject_Z_pos (Z.of_nat n)) as P. rewrite Z0 in P.
    assert (0 < 0) by (apply P; lia). lra. }
  split; [|split].
  - pose proof (pixelBrightness_range p) as R.
    set (k := Z.to_nat (pixelBrightness p)).
    assert (Hk : (k < 256)%nat) by (unfold k; lia).
    replace (repeat 0%Z 256) with (repeat 0%Z k ++ 0%Z :: repeat 0%Z (255 - k)).
    + rewrite iter_incr_at_middle. apply contrast_single_bin.
    + change (0%Z :: repeat 0%Z (255 - k)) with (repeat 0%Z (S (255 - k))).
      rewrite <- repeat_app. f_equal. lia.
  - change (inject_Z 0) with 0. unfold Qdiv. ring.
  - rewrite Z.add_0_l, inject_Z_mult. field. exact Hp.
Qed.

Lemma sumQ_zero (l : list Q) : Forall (fun d => d == 0) l -> sumQ l == 0.
Proof.
  unfold sumQ. intro H.
  assert (G : forall acc, fold_left Qplus l acc == acc).
  { induction H as [|d l Hd Hl IH]; intro acc; cbn [fold_left]; [reflexivity|].
    rewrite IH, Hd. ring. }
  apply G.
Qed.

Lemma neighborVariances_uniform (p : pixel) (n : nat) (width x y : Z) :
  Forall (fun d => d == 0)
         (neighborVariances (repeat p n) width x y (brightnessAt [p] 0)).
Proof.
  unfold neighborVariances.
  apply (fold_invariant (Forall (fun d => d == 0))
           (fun d pushed =>
              if ((((y + snd d) * width + (x + fst d)) * 4 >=? 0)%Z
                  && (((y + snd d) * width + (x + fst d)) * 4 <? plen (repeat p n) - 2)%Z)%bool
              then pushed ++ [Qabs (brightnessAt [p] 0
                                    - brightnessAt (repeat p n)
                                        (((y + snd d) * width + (x + fst d)) * 4))]
              else pushed)).
  - intros d pushed _ Hp. destruct (_ && _) eqn:G; [|exact Hp].
    apply andb_true_iff in G. destruct G as [G1 G2].
    apply Z.geb_le in G1. apply Z.ltb_lt in G2.
    apply Forall_app. split; [exact Hp|]. constructor; [|constructor].
    rewrite brightnessAt_repeat by lia.
    setoid_replace (brightnessAt [p] 0 - brightnessAt [p] 0) with 0 by ring.
    reflexivity.
  - constructor.
Qed.

Lemma textureCenter_uniform (p : pixel) (n : nat) (width x y : Z) (acc : TextureAcc) :
  (0 <= width)%Z -> (0 <= x)%Z -> (0 <= y)%Z ->
  tex_flat acc -> tex_flat (textureCenter (repeat p n) width x y acc).
Proof.
  intros Hw Hx Hy [Hr Hv]. unfold textureCenter; cbv zeta.
  destruct (_ <? _)%Z eqn:G; [|split; assumption].
  apply Z.ltb_lt in G. rewrite brightnessAt_repeat by nia.
  set (pushed := neighborVariances (repeat p n) width x y (brightnessAt [p] 0)).
  assert (Hp : Forall (fun d => d == 0) pushed) by apply neighborVariances_uniform.
  pose proof (sumQ_zero pushed Hp) as Hs.
  unfold tex_flat; cbn [roughnessSum varianceSum].
  assert (Hmean : sumQ pushed / 8 == 0) by (rewrite Hs; reflexivity).
  set (mean := sumQ pushed / 8) in *. clearbody mean.
  assert (F : forall acc0,
            fold_left (fun sum diff => sum + Math_pow2 (diff - mean)) pushed acc0
            == acc0).
  { clear -Hp Hmean. induction Hp as [|d l Hd Hl IH]; intro acc0; cbn [fold_left].
    - reflexivity.
    - rewrite IH. unfold Math_pow2. rewrite Hd, Hmean. ring. }
  split.
  - rewrite Hr, Hmean. reflexivity.
  - rewrite Hv, F. unfold Qdiv. ring.
Qed.

Lemma textureWith_uniform (stride : Z) (p : pixel) (n : nat) (width height : Z) :
  (0 < stride)%Z -> (0 <= width)%Z ->
  let t := textureWith stride (repeat p n) width height in
  roughness t == 0 /\ localVariance t == 0 /\ uniformity t == 1
  /\ textureComplexity t == 0.
Proof.
  intros Hs Hw. unfold textureWith; cbv zeta.
  cbn [roughness localVariance uniformity textureComplexity].
  match goal with
  | |- context [centers ?a] => assert (Hb : tex_flat a); [|set (acc := a) in *]
  end.
  { apply forRange_invariant; [exact Hs | | split; reflexivity].
    intros y t Hy Ht. apply forRange_invariant; [exact Hs | | exact Ht].
    intros x u Hx Hu. apply textureCenter_uniform; try lia. exact Hu. }
  destruct Hb as [Hr Hv].
  set (r := if (centers acc >? 0)%Z then roughnessSum acc / inject_Z (centers acc) else 0).
  set (v := if (centers acc >? 0)%Z then varianceSum acc / inject_Z (centers acc) else 0).
  assert (Hr' : r == 0).
  { unfold r. destruct (centers acc >? 0)%Z; [|reflexivity].
    rewrite Hr. unfold Qdiv. ring. }
  assert (Hv' : v == 0).
  { unfold v. destruct (centers acc >? 0)%Z; [|reflexivity].
    rewrite Hv. unfold Qdiv. ring. }
  split; [exact Hr'|]. split; [exact Hv'|]. split.
  - rewrite Q.max_r by lra. rewrite Hr'. reflexivity.
  - rewrite Q.min_l.
    + rewrite Hr', Hv'. reflexivity.
    + rewrite Hr', Hv'. discriminate.
Qed.

Lemma uniform_is_mirrored (p : pixel) (width height : Z) :
  (0 <= width)%Z -> (0 <= height)%Z ->
  mirrored (repeat p (Z.to_nat (width * height))) width height
  /\ mirroredVertically (repeat p (Z.to_nat (width * height))) width height.
Proof.
  intros Hw Hh.
  assert (L : plen (repeat p (Z.to_nat (width * height))) = (4 * (width * height))%Z).
  { unfold plen. rewrite repeat_length, Z2Nat.id by nia. reflexivity. }
  split; intros x y Hx Hy; rewrite !brightnessAt_repeat; try reflexivity;
    rewrite L; nia.
Qed.

(** A buffer of [width * height] pixels of one colour, at least two pixels
    wide and high, has contrast 0, edge density 0, the pixel's brightness as
    mean brightness, roughness and local variance 0, uniformity 1, texture
    complexity 0 and both symmetry scores 1, in the clinical profile. *)
Theorem single_colour_buffer_features (p : pixel) (width height : Z) :
  (2 <= width)%Z -> (2 <= height)%Z ->
  let pixels := repeat p (Z.to_nat (width * height)) in
  let v := Clinical.performAdvancedVisualAnalysis pixels width height in
  let s := Clinical.analyzeAnatomicalStructure pixels width height in
  let t := Clinical.performTextureAnalysis pixels width height in
  contrast v == 0
  /\ num_eq (edgeDensity v) (Fin 0)
  /\ num_eq (brightness v) (Fin (inject_Z (pixelBrightness p)))
  /\ roughness t == 0 /\ localVariance t == 0 /\ uniformity t == 1
  /\ textureComplexity t == 0
  /\ Clinical.bilateralSymmetry s == 1
  /\ Clinical.verticalSymmetry s == 1.
Proof.
  intros Hw Hh pixels v s t.
  assert (Hn : (0 < Z.to_nat (width * height))%nat) by nia.
  destruct (visualCore_uniform 50 30 p _ ltac:(lia) Hn) as (V1 & V2 & V3).
  destruct (textureWith_uniform 2 p (Z.to_nat (width * height)) width height
              ltac:(lia) ltac:(lia)) as (T1 & T2 & T3 & T4).
  destruct (uniform_is_mirrored p width height ltac:(lia) ltac:(lia)) as [M1 M2].
  assert (L : Z.of_nat (length pixels) = (width * height)%Z).
  { unfold pixels. rewrite repeat_length, Z2Nat.id by nia. reflexivity. }
  repeat (split; [assumption|]).
  split.
  - apply mirrored_symmetry; try assumption; lia.
  - apply mirrored_vertical_symmetry; try assumption; lia.
Qed.

Lemma single_colour_buffer_features_witness :
  ((2 <= 3)%Z /\ (2 <= 2)%Z)
  /\ (let pixels := repeat (mkPixel x64 x32 x10 xff) (Z.to_nat (3 * 2)) in
      let v := Clinical.performAdvancedVisualAnalysis pixels 3 2 in
      let s := Clinical.analyzeAnatomicalStructure pixels 3 2 in
      let t := Clinical.performTextureAnalysis pixels 3 2 in
      contrast v == 0
      /\ num_eq (edgeDensity v) (Fin 0)
      /\ num_eq (brightness v) (Fin (inject_Z (pixelBrightness (mkPixel x64 x32 x10 xff))))
      /\ roughness t == 0 /\ localVariance t == 0 /\ uniformity t == 1
      /\ textureComplexity t == 0
      /\ Clinical.bilateralSymmetry s == 1
      /\ Clinical.verticalSymmetry s == 1).
Proof.
  split; [lia|].
  apply (single_colour_buffer_features (mkPixel x64 x32 x10 xff) 3 2); lia.
Defined.


(** ** The centre of mass *)

Lemma centerOfMass_range (pixels : PixelBuffer) (width height : Z) :
  (1 <= width)%Z -> (1 <= height)%Z ->
  let cm := centerOfMass pixels width height in
  0 <= centerMassX cm <= inject_Z (width - 1)
  /\ 0 <= centerMassY cm <= inject_Z (height - 1).
Proof.
  intros Hw Hh. unfold centerOfMass; cbv zeta.
  match goal with
  | |- context [totalMass ?a] => assert (Hb : mass_bounded width height a);
                                 [|set (acc := a) in *]
  end.
  { apply forRange_invariant; [lia | | ].
    - intros y t Hy Ht. apply forRange_invariant; [lia | | exact Ht].
      intros x u Hx (M0 & [X0 X1] & [Y0 Y1]).
      destruct (_ <? _)%Z; [|repeat split; assumption].
      set (m := brightnessAt pixels _ * brightnessAt pixels _).
      assert (Hm : 0 <= m) by apply (Math_pow2_nonneg (brightnessAt pixels _)).
      assert (Px : 0 <= inject_Z x) by (apply inject_Z_nonneg; lia).
      assert (Py : 0 <= inject_Z y) by (apply inject_Z_nonneg; lia).
      assert (Qx : inject_Z x <= inject_Z (width - 1)) by (rewrite <- Zle_Qle; lia).
      assert (Qy : inject_Z y <= inject_Z (height - 1)) by (rewrite <- Zle_Qle; lia).
      pose proof (Qmult_le_0_compat _ _ Px Hm).
      pose proof (Qmult_le_0_compat _ _ Py Hm).
      pose proof (Qmult_le_compat_r _ _ m Qx Hm).
      pose proof (Qmult_le_compat_r _ _ m Qy Hm).
      unfold mass_bounded; cbn [totalMass centerMassX centerMassY].
      repeat split; lra.
    - unfold mass_bounded; cbn [totalMass centerMassX centerMassY].
      rewrite !Qmult_0_r. repeat split; discriminate. }
  destruct Hb as (M0 & [X0 X1] & [Y0 Y1]).
  destruct (Qgtb (totalMass acc) 0) eqn:G; cbn [centerMassX centerMassY].
  - apply Qgtb_true in G.
    repeat split; try (apply Qdiv_nonneg; assumption);
      apply Qle_shift_div_r; assumption.
  - apply Qgtb_false in G.
    assert (Z0 : totalMass acc == 0) by lra.
    rewrite Z0, Qmult_0_r in X1, Y1.
    assert (0 <= inject_Z (width - 1)) by (apply inject_Z_nonneg; lia).
    assert (0 <= inject_Z (height - 1)) by (apply inject_Z_nonneg; lia).
    repeat split; lra.
Qed.

Lemma normalised_coordinate (c : Q) (size : Z) :
  (1 <= size)%Z -> 0 <= c <= inject_Z (size - 1) ->
  num_in (fun q => 0 <= q < 1) (js_div c (inject_Z size)).
Proof.
  intros Hs [C0 C1]. unfold js_div.
  assert (Hp : 0 < inject_Z size) by (apply inject_Z_pos; lia).
  destruct (Qeq_bool (inject_Z size) 0) eqn:E.
  - apply Qeq_bool_eq in E. lra.
  - cbn [num_in]. split; [apply Qdiv_nonneg; assumption|].
    apply Qlt_shift_div_r; [exact Hp|].
    assert (inject_Z (size - 1) < inject_Z size) by (rewrite <- Zlt_Qlt; lia). lra.
Qed.

(** For an image at least one pixel wide and high the normalised centre of
    mass is a pair of numbers in [0, 1), in both profiles, whatever the
    pixels are (an all-black image gives (0, 0)). *)
Theorem center_of_mass_is_normalised (pixels : PixelBuffer) (width height : Z) :
  (1 <= width)%Z -> (1 <= height)%Z ->
  let c := Clinical.analyzeAnatomicalStructure pixels width height in
  let p := Perfect.analyzeImageStructurePerfect pixels width height in
  num_in (fun q => 0 <= q < 1) (Clinical.centerMass_x c)
  /\ num_in (fun q => 0 <= q < 1) (Clinical.centerMass_y c)
  /\ num_in (fun q => 0 <= q < 1) (Perfect.centerMass_x p)
  /\ num_in (fun q => 0 <= q < 1) (Perfect.centerMass_y p).
Proof.
  intros Hw Hh.
  destruct (centerOfMass_range pixels width height Hw Hh) as [X Y].
  cbv zeta in X, Y |- *.
  unfold Clinical.analyzeAnatomicalStructure, Perfect.analyzeImageStructurePerfect;
    cbv zeta.
  cbn [Clinical.centerMass_x Clinical.centerMass_y Perfect.centerMass_x Perfect.centerMass_y].
  repeat split; apply normalised_coordinate; assumption.
Qed.

Lemma center_of_mass_is_normalised_witness :
  ((1 <= 4)%Z /\ (1 <= 3)%Z)
  /\ (let c := Clinical.analyzeAnatomicalStructure stripes 4 3 in
      let p := Perfect.analyzeImageStructurePerfect stripes 4 3 in
      num_in (fun q => 0 <= q < 1) (Clinical.centerMass_x c)
      /\ num_in (fun q => 0 <= q < 1) (Clinical.centerMass_y c)
      /\ num_in (fun q => 0 <= q < 1) (Perfect.centerMass_x p)
      /\ num_in (fun q => 0 <= q < 1) (Perfect.centerMass_y p)).
Proof.
  split; [lia|]. apply (center_of_mass_is_normalised stripes 4 3); lia.
Defined.


(** ** The pathology score map *)

Lemma assign_keys (key : Clinical.Pathology) (value : Q) (m : Clinical.PathologyScoreMap) :
  map fst (Clinical.assign key value m) = map fst m.
Proof.
  unfold Clinical.assign. rewrite map_map. apply map_ext.
  intro e. destruct (Clinical.Pathology_beq (fst e) key); reflexivity.
Qed.

Lemma assign_range (P : Q -> Prop) (key : Clinical.Pathology) (value : Q)
    (m : Clinical.PathologyScoreMap) :
  P value -> Forall (fun e => P (snd e)) m ->
  Forall (fun e => P (snd e)) (Clinical.assign key value m).
Proof.
  intros Hv Hm. unfold Clinical.assign. apply Forall_map.
  apply Forall_impl with (2 := Hm). intros e He.
  destruct (Clinical.Pathology_beq (fst e) key); [exact Hv | exact He].
Qed.

Lemma when_preserves {A : Type} (P : A -> Prop) (c : bool) (f : A -> A) (a : A) :
  (forall x, P x -> P (f x)) -> P a -> P (Clinical.when c f a).
Proof. intros Hf Ha. unfold Clinical.when. destruct c; [apply Hf|]; exact Ha. Qed.

Lemma scorePathologies_bounded (visualAnalysis : Clinical.VisualAnalysis) :
  let m := Clinical.scorePathologies visualAnalysis in
  map fst m = map fst Clinical.noPathologies
  /\ Forall (fun e => 0 <= snd e <= 0.9) m.
Proof.
  unfold Clinical.scorePathologies; cbv zeta.
  set (P := fun m : Clinical.PathologyScoreMap =>
              map fst m = map fst Clinical.noPathologies
              /\ Forall (fun e => 0 <= snd e <= 0.9) m).
  match goal with |- map fst ?X = _ /\ _ => change (P X) end.
  assert (Step : forall key value m, 0 <= value <= 0.9 ->
                   P m -> P (Clinical.assign key value m)).
  { intros key value m Hv [K R]. split.
    - rewrite assign_keys. exact K.
    - apply (assign_range (fun q => 0 <= q <= 0.9)); assumption. }
  repeat (apply when_preserves;
          [intros m Hm; repeat (apply Step; [split; discriminate|]); exact Hm|]).
  split; [reflexivity|].
  unfold Clinical.noPathologies. apply Forall_map, Forall_forall.
  intros p _. split; discriminate.
Qed.

(** Whatever the visual features are, the pathology score map keeps its
    sixteen keys in their declared order and every score lies between 0 and
    0.9. *)
Theorem pathology_scores_are_bounded
    (pixels : PixelBuffer) (width height : Z) (visualAnalysis : Clinical.VisualAnalysis) :
  let m := Clinical.pathologies
             (Clinical.detectPathologies pixels width height visualAnalysis) in
  map fst m = map fst Clinical.noPathologies
  /\ Forall (fun e => 0 <= snd e <= 0.9) m.
Proof. apply scorePathologies_bounded. Qed.

(** The list [topPathologies] only holds entries of the score map; the
    [confidence] of the scorer is at least every score above 0.3; and
    [hasPathology] is true exactly when some score of the map is above
    0.5. *)
Theorem strongest_pathology_decides
    (pixels : PixelBuffer) (width height : Z) (visualAnalysis : Clinical.VisualAnalysis) :
  let d := Clinical.detectPathologies pixels width height visualAnalysis in
  incl (Clinical.topPathologies d) (Clinical.pathologies d)
  /\ (forall e, In e (Clinical.pathologies d) -> 0.3 < snd e ->
        snd e <= Clinical.detectionConfidence d)
  /\ (Clinical.hasPathology d = true
      <-> exists e, In e (Clinical.pathologies d) /\ 0.5 < snd e).
Proof.
  unfold Clinical.detectPathologies; cbv zeta.
  cbn [Clinical.topPathologies Clinical.hasPathology Clinical.pathologies
       Clinical.detectionConfidence].
  set (m := Clinical.scorePathologies visualAnalysis).
  change (fun a b : Clinical.Pathology * Q => snd b - snd a)
    with (by_key_desc (@snd Clinical.Pathology Q)).
  set (l := sort_by _ (filter _ m)).
  assert (Hl : forall e, In e l <-> In e m /\ 0.3 < snd e).
  { intro e. unfold l. rewrite sort_by_In, filter_In, Qgtb_true. reflexivity. }
  assert (Hs : StronglySorted (desc (@snd Clinical.Pathology Q)) l)
    by apply sort_by_sorted.
  assert (Hmax : forall e, In e m -> 0.3 < snd e ->
            snd e <= match firstn 5 l with [] => 0 | x :: _ => snd x end).
  { intros e He H3. assert (Hin : In e l) by (apply Hl; split; assumption).
    destruct l as [|x r]; [destruct Hin|]. cbn [firstn].
    inversion Hs as [|? ? _ Hx]; subst.
    destruct Hin as [<- | Hin]; [apply Qle_refl|].
    rewrite Forall_forall in Hx. apply Hx, Hin. }
  split; [|split; [exact Hmax|]].
  - intros e He. apply Hl. rewrite <- (firstn_skipn 5 l). apply in_or_app. left. exact He.
  - split.
    + destruct l as [|x r] eqn:El; cbn [firstn]; [discriminate|].
      intro H. apply Qgtb_true in H. exists x. split; [|exact H].
      apply (Hl x). left. reflexivity.
    + intros (e & He & H5). specialize (Hmax e He ltac:(lra)).
      destruct (firstn 5 l) as [|x r]; [lra|]. apply Qgtb_true. lra.
Qed.

(** On every output of the pathology scorer the chest report is of low
    urgency exactly when no pathology scores above 0.3, which is also
    exactly when it calls the radiograph normal, and of high urgency exactly
    when pneumonia (0.85) heads the list; pleural effusion, scored 0.8, never
    passes the test [confidence > 0.8] of the high-urgency branch. *)
Theorem chest_urgency_follows_top_pathology
    (pixels : PixelBuffer) (width height : Z) (visualAnalysis : Clinical.VisualAnalysis) :
  let top := Clinical.topPathologies
               (Clinical.detectPathologies pixels width height visualAnalysis) in
  (Clinical.determineChestXrayUrgency top = low <-> top = [])
  /\ (ClinicalReport.generateChestXrayDiagnosis top
      = ClinicalReport.NormalChestRadiograph <-> top = [])
  /\ (Clinical.determineChestXrayUrgency top = high
      <-> exists rest, top = (Clinical.pneumonia, 0.85) :: rest).
Proof.
  destruct visualAnalysis as [core [b1 b2 b3 b4 b5] flags].
  unfold Clinical.detectPathologies, Clinical.scorePathologies; cbv zeta.
  cbn [Clinical.pathologyIndicators Clinical.Indicator.normal_chest
       Clinical.Indicator.pneumonia Clinical.Indicator.atelectasis
       Clinical.Indicator.cardiomegaly Clinical.Indicator.pleural_effusion
       Clinical.visual_core Clinical.topPathologies].
  destruct b1, b2, b3, b4, b5,
    (Qgtb (contrast core) 0.7 && js_gt (edgeDensity core) (Fin 0.5)),
    (js_gt (brightRatio core) (Fin 0.3) && js_lt (darkRatio core) (Fin 0.4)),
    (js_gt (darkRatio core) (Fin 0.9));
    vm_compute;
    (repeat split; intro H; try reflexivity; try discriminate H;
     try (eexists; reflexivity); try (destruct H as [r H]; discriminate H)).
Qed.

(** ** The report on a chest image judged normal *)

(** When the visual features have [darkRatio] strictly between 0.6 and 0.8
    and [contrast] above 0.3 and the ensemble selects ['chest-xray'], the
    clinical report lists "Normal" first, at 90 percent and with severity
    [severe], its urgency is [medium] and its diagnosis is the sentence for
    abnormal chest findings at 90 percent. *)
Theorem normal_chest_is_reported_abnormal
    (pixels : PixelBuffer) (file_name : string) (width height : Z) :
  let va := Clinical.performAdvancedVisualAnalysis pixels width height in
  let a := Clinical.clinicalAnalyses pixels file_name width height in
  let report := Clinical.performClinicalImageAnalysis pixels file_name width height in
  js_gt (darkRatio va) (Fin 0.6) = true ->
  js_lt (darkRatio va) (Fin 0.8) = true ->
  0.3 < contrast va ->
  Clinical.type (Clinical.classifyMedicalImageClinical a) = chest_xray ->
  Clinical.imageType report = chest_xray
  /\ Clinical.urgency report = medium
  /\ hd_error (Clinical.clinicalPathologies report)
     = Some (Clinical.mkFinding (Clinical.Detected Clinical.normal) 90 severe)
  /\ ClinicalReport.generateChestXrayDiagnosis
       (Clinical.topPathologies (Clinical.pathology a))
     = ClinicalReport.AbnormalChestFindings 90.
Proof.
  intros va a report H1 H2 H3 Ht.
  assert (Hn : Clinical.Indicator.normal_chest (Clinical.pathologyIndicators va) = true).
  { unfold va, Clinical.performAdvancedVisualAnalysis; cbv zeta.
    cbn [Clinical.pathologyIndicators Clinical.Indicator.normal_chest].
    unfold va, Clinical.performAdvancedVisualAnalysis in H1, H2, H3; cbv zeta in H1, H2, H3.
    cbn [Clinical.visual_core] in H1, H2, H3.
    rewrite H1, H2. apply Qgtb_true in H3. rewrite H3. reflexivity. }
  destruct (normal_chest_detected pixels width height va Hn) as (_ & (rest & T) & _).
  assert (Tp : Clinical.topPathologies (Clinical.pathology a)
               = (Clinical.normal, 0.9) :: rest) by exact T.
  unfold report, Clinical.performClinicalImageAnalysis; cbv zeta. fold a.
  unfold Clinical.generateClinicalDiagnosis; cbv zeta. rewrite Ht.
  cbn [Clinical.imageType Clinical.urgency Clinical.clinicalPathologies].
  change (Clinical.analyses (Clinical.classifyMedicalImageClinical a)) with a.
  rewrite Tp. repeat split; reflexivity.
Qed.

Lemma normal_chest_is_reported_abnormal_witness :
  let va := Clinical.performAdvancedVisualAnalysis stripes 4 3 in
  let a := Clinical.clinicalAnalyses stripes photo 4 3 in
  let report := Clinical.performClinicalImageAnalysis stripes photo 4 3 in
  (js_gt (darkRatio va) (Fin 0.6) = true /\ js_lt (darkRatio va) (Fin 0.8) = true
   /\ 0.3 < contrast va
   /\ Clinical.type (Clinical.classifyMedicalImageClinical a) = chest_xray)
  /\ Clinical.imageType report = chest_xray
  /\ Clinical.urgency report = medium
  /\ hd_error (Clinical.clinicalPathologies report)
     = Some (Clinical.mkFinding (Clinical.Detected Clinical.normal) 90 severe)
  /\ ClinicalReport.generateChestXrayDiagnosis
       (Clinical.topPathologies (Clinical.pathology a))
     = ClinicalReport.AbnormalChestFindings 90.
Proof.
  split.
  - vm_compute. repeat split; reflexivity.
  - apply (normal_chest_is_reported_abnormal stripes photo 4 3); vm_compute; reflexivity.
Defined.


(** ** The arg-max of the ensemble *)

Lemma find_first {A : Type} (f : A -> bool) (l : list A) (x : A) :
  find f l = Some x ->
  exists pre post, l = pre ++ x :: post /\ f x = true
                   /\ Forall (fun y => f y = false) pre.
Proof.
  induction l as [|y l IH]; cbn [find]; [discriminate|].
  destruct (f y) eqn:E.
  - intros [= <-]. exists [], l. repeat split; [exact E | constructor].
  - intro H. destruct (IH H) as (pre & post & -> & Hx & Hp).
    exists (y :: pre), post. repeat split; [exact Hx | constructor; assumption].
Qed.

Lemma fold_Qmax_upper (r : list Q) :
  forall x, x <= fold_left Qmax r x /\ Forall (fun y => y <= fold_left Qmax r x) r.
Proof.
  induction r as [|y r IH]; intro x; cbn [fold_left].
  - split; [apply Qle_refl | constructor].
  - destruct (IH (Qmax x y)) as [H1 H2].
    pose proof (Q.le_max_l x y). pose proof (Q.le_max_r x y).
    split; [lra|]. constructor; [lra | exact H2].
Qed.

Lemma Math_max_upper (l : list Q) : Forall (fun y => y <= Math_max l) l.
Proof.
  destruct l as [|x r]; [constructor|]. cbn [Math_max].
  destruct (fold_Qmax_upper r x) as [H1 H2]. constructor; assumption.
Qed.

Lemma selectClassification_argmax (scores : ScoreMap) :
  scores <> [] ->
  exists pre s post,
    scores = pre ++ (selectClassification scores (Math_max (map snd scores)), s) :: post
    /\ Forall (fun e => snd e <= s) scores
    /\ Forall (fun e => snd e < s) pre.
Proof.
  intro Hne. unfold selectClassification.
  set (m := Math_max (map snd scores)).
  assert (Hup : Forall (fun e => snd e <= m) scores).
  { pose proof (Math_max_upper (map snd scores)) as U. fold m in U.
    rewrite Forall_map in U. exact U. }
  assert (Hin : In m (map snd scores)).
  { apply Math_max_In. destruct scores; [congruence | discriminate]. }
  apply in_map_iff in Hin. destruct Hin as (e0 & He0 & Hin).
  destruct (find _ scores) as [[k s]|] eqn:F.
  - destruct (find_first _ _ _ F) as (pre & post & E & Hk & Hp).
    cbn [snd] in Hk. apply Qeq_bool_eq in Hk.
    exists pre, s, post. cbn [fst]. split; [exact E|]. split.
    + apply Forall_impl with (2 := Hup). intros e He. lra.
    + rewrite E in Hup. apply Forall_app in Hup. destruct Hup as [Hpre _].
      rewrite Forall_forall in Hp, Hpre |- *. intros e He.
      specialize (Hp e He). specialize (Hpre e He). cbn beta in Hp.
      apply Qeq_bool_neq in Hp. apply Qle_lteq in Hpre. destruct Hpre; [lra | contradiction].
  - apply (find_none _ _ F) in Hin. cbn beta in Hin.
    rewrite He0, Qeq_bool_refl in Hin. discriminate.
Qed.

(** In both profiles the selected modality is a key of the score map whose
    score no other score exceeds, and every key declared before it has a
    strictly smaller score: ties go to the key declared first. *)
Theorem classifier_selects_first_maximum
    (a : Clinical.Analyses) (b : Perfect.Analyses) :
  let c := Clinical.classifyMedicalImageClinical a in
  let p := Perfect.classifyMedicalImagePerfect b in
  (exists pre s post,
      Clinical.scores c = pre ++ (Clinical.type c, s) :: post
      /\ Forall (fun e => snd e <= s) (Clinical.scores c)
      /\ Forall (fun e => snd e < s) pre)
  /\ (exists pre s post,
         Perfect.scores p = pre ++ (Perfect.type p, s) :: post
         /\ Forall (fun e => snd e <= s) (Perfect.scores p)
         /\ Forall (fun e => snd e < s) pre).
Proof.
  split.
  - apply (selectClassification_argmax (Clinical.ensembleScores a)).
    intro E. pose proof (clinical_ensemble_keys a) as K. rewrite E in K. discriminate.
  - apply (selectClassification_argmax (Perfect.ensembleScores b)).
    intro E. pose proof (perfect_ensemble_keys b) as K. rewrite E in K. discriminate.
Qed.

(** ** The ceiling of the clinical scores *)

Lemma add_score_dominated (key : ImageType) (d D : Q) (s b : ScoreMap) :
  dominated s b -> 0 <= d <= D -> dominated (add_score key d s) (add_score key D b).
Proof.
  intros H [Hd HD]. unfold add_score.
  induction H as [|e be s b [K [R0 R1]] H IH]; cbn [map].
  - constructor.
  - constructor; [|exact IH]. rewrite <- K.
    destruct (ImageType_beq (fst e) key); cbn [fst snd]; repeat split;
      try assumption; lra.
Qed.

Lemma dominated_weaken (key : ImageType) (D : Q) (s b : ScoreMap) :
  dominated s b -> 0 <= D -> dominated s (add_score key D b).
Proof.
  intros H Hd. unfold add_score.
  induction H as [|e be s b [K [R0 R1]] H IH]; cbn [map].
  - constructor.
  - constructor; [|exact IH].
    destruct (ImageType_beq (fst be) key); cbn [fst snd]; repeat split;
      try assumption; lra.
Qed.

Lemma addFilename_dominated (es Es : list (Clinical.PatternKey * Clinical.FilenameScore)) :
  Forall2 (fun e E => fst e = fst E
                      /\ 0 <= Clinical.score (snd e) <= Clinical.score (snd E)) es Es ->
  forall s b, dominated s b ->
    dominated (fold_left Clinical.addFilename es s) (fold_left Clinical.addFilename Es b).
Proof.
  induction 1 as [|e E es Es [K [R0 R1]] H IH]; intros s b Hs; cbn [fold_left];
    [exact Hs|].
  apply IH. unfold Clinical.addFilename. rewrite <- K.
  destruct (fst e); repeat apply add_score_dominated; try exact Hs; split; lra.
Qed.

Lemma addRules_dominated (cs Cs : ScoreMap) :
  dominated cs Cs ->
  forall s b, dominated s b ->
    dominated (fold_left (fun s e => add_score (fst e) (snd e * 0.6) s) cs s)
              (fold_left (fun s e => add_score (fst e) (snd e * 0.6) s) Cs b).
Proof.
  induction 1 as [|e E cs Cs [K [R0 R1]] H IH]; intros s b Hs; cbn [fold_left];
    [exact Hs|].
  apply IH. rewrite <- K. apply add_score_dominated; [exact Hs | split; lra].
Qed.

Lemma dominated_bound (M : Q) (s b : ScoreMap) :
  dominated s b -> Forall (fun e => snd e <= M) b ->
  Forall (fun e => 0 <= snd e <= M) s.
Proof.
  induction 1 as [|e be s b [K [R0 R1]] H IH]; intro Hb; constructor;
    inversion Hb; subst; [split; lra | apply IH; assumption].
Qed.

Lemma filename_below_weights (file_name : string) :
  Forall2 (fun e E => fst e = fst E
                      /\ 0 <= Clinical.score (snd e) <= Clinical.score (snd E))
          (Clinical.analyzeMedicalFilename file_name) everyClinicalKeyword.
Proof.
  unfold Clinical.analyzeMedicalFilename, everyClinicalKeyword, Clinical.clinicalPatterns.
  cbn [map fst snd].
  repeat (constructor;
          [cbn [fst snd Clinical.score];
           destruct (test_alternatives _ file_name); repeat split; discriminate|]).
  constructor.
Qed.

Lemma rules_below_weights (pixels : PixelBuffer) (width height : Z) :
  dominated (Clinical.performClinicalClassification pixels width height)
            everyClinicalRule.
Proof.
  unfold Clinical.performClinicalClassification, everyClinicalRule, dominated; cbv zeta.
  repeat (constructor;
          [cbn [fst snd];
           try match goal with
               | |- context [if ?c then _ else _] => destruct c
               end; repeat split; discriminate|]).
  constructor.
Qed.

Lemma clinical_scores_below_ceiling
    (pixels : PixelBuffer) (file_name : string) (width height : Z) :
  dominated
    (Clinical.ensembleScores (Clinical.clinicalAnalyses pixels file_name width height))
    clinicalCeiling.
Proof.
  unfold Clinical.ensembleScores, clinicalCeiling, Clinical.clinicalAnalyses; cbv zeta.
  cbn [Clinical.filename Clinical.clinical Clinical.pathology].
  assert (D : dominated
                (fold_left (fun s e => add_score (fst e) (snd e * 0.6) s)
                   (Clinical.performClinicalClassification pixels width height)
                   (fold_left Clinical.addFilename
                      (Clinical.analyzeMedicalFilename file_name) Clinical.zeroScores))
                (fold_left (fun s e => add_score (fst e) (snd e * 0.6) s)
                   everyClinicalRule
                   (fold_left Clinical.addFilename everyClinicalKeyword
                      Clinical.zeroScores))).
  { apply addRules_dominated; [apply rules_below_weights|].
    apply addFilename_dominated; [apply filename_below_weights|].
    unfold dominated, Clinical.zeroScores.
    repeat (constructor; [cbn [fst snd]; repeat split; discriminate|]). constructor. }
  destruct (Clinical.topPathologies _) as [|e r];
    [|destruct (_ && _)];
    (apply dominated_weaken; [exact D | discriminate])
    || (apply add_score_dominated; [exact D | split; discriminate]).
Qed.

(** Whatever the image and the file name, every score of the clinical
    ensemble lies between 0 and 0.91, so the confidence lies between 80 and
    91: the cap at 97 is never applied, and the report shows a confidence
    between 80 and 91. *)
Theorem clinical_confidence_never_reaches_cap
    (pixels : PixelBuffer) (file_name : string) (width height : Z) :
  let c := Clinical.classifyMedicalImageClinical
             (Clinical.clinicalAnalyses pixels file_name width height) in
  Forall (fun e => 0 <= snd e <= 0.91) (Clinical.scores c)
  /\ 80 <= Clinical.confidence c <= 91
  /\ Clinical.confidence c == Qmax (Math_max (map snd (Clinical.scores c)) * 100) 80
  /\ (80 <= Clinical.reportedConfidence
              (Clinical.performClinicalImageAnalysis pixels file_name width height)
      <= 91)%Z.
Proof.
  set (a := Clinical.clinicalAnalyses pixels file_name width height).
  assert (B : Forall (fun e => 0 <= snd e <= 0.91) (Clinical.ensembleScores a)).
  { apply (dominated_bound 0.91 _ clinicalCeiling).
    - apply clinical_scores_below_ceiling.
    - vm_compute. repeat (constructor; [discriminate|]). constructor. }
  assert (M : 0 <= Math_max (map snd (Clinical.ensembleScores a)) <= 0.91).
  { assert (Hin : In (Math_max (map snd (Clinical.ensembleScores a)))
                     (map snd (Clinical.ensembleScores a))).
    { apply Math_max_In. intro E. apply map_eq_nil in E.
      pose proof (clinical_ensemble_keys a) as K. rewrite E in K. discriminate. }
    apply in_map_iff in Hin. destruct Hin as (e & <- & He).
    rewrite Forall_forall in B. apply B, He. }
  cbv zeta. unfold Clinical.classifyMedicalImageClinical; cbv zeta.
  cbn [Clinical.scores Clinical.confidence].
  set (m := Math_max (map snd (Clinical.ensembleScores a))) in *.
  assert (C : 80 <= Qmax (Qmin (m * 100) 97) 80 <= 91).
  { split; [apply Q.le_max_r|]. apply Q.max_lub; [|discriminate].
    pose proof (Q.le_min_l (m * 100) 97). lra. }
  split; [exact B|]. split; [exact C|]. split.
  - rewrite (Q.min_l (m * 100) 97) by lra. reflexivity.
  - assert (R : (80 <= Math_round (Qmax (Qmin (m * 100) 97) 80) <= 91)%Z)
      by (apply Math_round_band; exact C).
    unfold Clinical.performClinicalImageAnalysis, Clinical.generateClinicalDiagnosis;
      cbv zeta. fold a.
    destruct (Clinical.type _); exact R.
Qed.


(** ** The brain rule *)

Lemma js_ge_not_lt (a : num) (q : Q) : js_ge a (Fin q) = true -> js_lt a (Fin q) = false.
Proof.
  destruct a as [x| | |]; cbn [js_ge js_le js_lt]; try discriminate; try reflexivity.
  intro H. apply Qle_bool_iff in H. apply Qltb_false. exact H.
Qed.

Lemma square_is_not_tall (a : num) (t : Q) :
  t <= 0.8 -> js_lt (Math_abs (js_sub a (Fin 1))) (Fin 0.2) = true ->
  js_lt a (Fin t) = false.
Proof.
  intro Ht. destruct a as [x| | |]; cbn [js_sub Math_abs js_lt]; try discriminate.
  intro H. apply Qltb_true in H. apply Qltb_false.
  assert (A : - (x - 1) <= Qabs (x - 1)).
  { rewrite <- Qabs_opp. apply Qle_Qabs. }
  lra.
Qed.

(** The scores of the rule table when the brain rule fires: only the CT and
    bone rules can fire beside it. *)
Lemma brain_rule_classification (pixels : PixelBuffer) (width height : Z) :
  let v := Clinical.performAdvancedVisualAnalysis pixels width height in
  let s := Clinical.analyzeAnatomicalStructure pixels width height in
  Clinical.isBrainMRI (Clinical.anatomicalFeatures s) = true ->
  isMedium (Clinical.clinicalFeatures v) = true ->
  exists ct_fires bone_fires : bool,
    Clinical.performClinicalClassification pixels width height
    = [ (chest_xray, 0); (brain_mri, 0.93); (ct_scan, if ct_fires then 0.9 else 0);
        (ultrasound, 0); (bone_xray, if bone_fires then 0.88 else 0);
        (abdominal_ct, if ct_fires then 0.4 else 0);
        (mammography, 0); (dental_xray, 0); (spine_xray, 0) ].
Proof.
  unfold Clinical.performClinicalClassification, Clinical.performAdvancedVisualAnalysis,
    Clinical.analyzeAnatomicalStructure, visualFlags; cbv zeta.
  cbn [Clinical.visual_core Clinical.clinicalFeatures Clinical.anatomicalFeatures
       Clinical.clinicalPositioning Clinical.aspectRatio
       isDark isMedium hasHighContrast hasLowContrast
       Clinical.isChestXray Clinical.isBrainMRI Clinical.isCTScan
       Clinical.isSpineXray Clinical.isMammography Clinical.hasGoodSymmetry].
  set (v := visualCore 50 30 pixels).
  set (ar := js_div (inject_Z width) (inject_Z height)).
  set (bs := Clinical.calculateBilateralSymmetry pixels width height).
  intros Hbrain Hmedium.
  apply andb_true_iff in Hbrain. destruct Hbrain as [Hsquare Hsym].
  pose proof Hmedium as Hm. apply andb_true_iff in Hm. destruct Hm as [Hge _].
  rewrite (js_ge_not_lt _ _ Hge), Hsquare, Hsym, Hmedium.
  rewrite (square_is_not_tall ar 0.6), (square_is_not_tall ar 0.8)
    by (exact Hsquare || discriminate).
  cbn [andb]. do 2 eexists. reflexivity.
Qed.

(** When the brain rule fires (aspect ratio within 0.2 of 1, left-right
    symmetry above 0.7, mean brightness from 80 to 180) and the file name
    matches the brain pattern, the clinical classifier selects ['brain-mri']
    whatever else the file name matches and whatever other rules fire, and
    the report is a brain report of low urgency. *)
Theorem brain_rule_and_keyword_select_brain_mri
    (pixels : PixelBuffer) (file_name : string) (width height : Z) :
  let v := Clinical.performAdvancedVisualAnalysis pixels width height in
  let s := Clinical.analyzeAnatomicalStructure pixels width height in
  let report := Clinical.performClinicalImageAnalysis pixels file_name width height in
  Clinical.isBrainMRI (Clinical.anatomicalFeatures s) = true ->
  isMedium (Clinical.clinicalFeatures v) = true ->
  clinicalKeywordMatches Clinical.brain file_name = true ->
  Clinical.type (Clinical.classifyMedicalImageClinical
                   (Clinical.clinicalAnalyses pixels file_name width height))
  = brain_mri
  /\ Clinical.imageType report = brain_mri
  /\ Clinical.urgency report = low.
Proof.
  intros v s report Hbrain Hmedium Hname.
  destruct (brain_rule_classification pixels width height Hbrain Hmedium)
    as (ct_fires & bone_fires & Hrules).
  assert (Ht : Clinical.type (Clinical.classifyMedicalImageClinical
                                (Clinical.clinicalAnalyses pixels file_name width height))
               = brain_mri).
  { unfold Clinical.classifyMedicalImageClinical, Clinical.ensembleScores,
      Clinical.clinicalAnalyses; cbv zeta.
    cbn [Clinical.type Clinical.filename Clinical.clinical Clinical.pathology].
    rewrite Hrules.
    unfold clinicalKeywordMatches, Clinical.clinicalPatterns in Hname.
    cbn [existsb fst snd orb] in Hname. rewrite orb_false_r in Hname.
    unfold Clinical.analyzeMedicalFilename, Clinical.clinicalPatterns.
    cbn [map]. rewrite Hname.
    repeat match goal with
           | |- context [test_alternatives ?alts file_name] =>
               destruct (test_alternatives alts file_name)
           end;
      (destruct (Clinical.topPathologies _) as [|e r]; [|destruct (_ && _)]);
      destruct ct_fires, bone_fires; vm_compute; reflexivity. }
  split; [exact Ht|].
  unfold report, Clinical.performClinicalImageAnalysis,
    Clinical.generateClinicalDiagnosis; cbv zeta.
  rewrite Ht. split; reflexivity.
Qed.

Lemma brain_rule_and_keyword_select_brain_mri_witness :
  let v := Clinical.performAdvancedVisualAnalysis greySquare 2 2 in
  let s := Clinical.analyzeAnatomicalStructure greySquare 2 2 in
  let report := Clinical.performClinicalImageAnalysis greySquare "head_scan.png" 2 2 in
  (Clinical.isBrainMRI (Clinical.anatomicalFeatures s) = true
   /\ isMedium (Clinical.clinicalFeatures v) = true
   /\ clinicalKeywordMatches Clinical.brain "head_scan.png" = true)
  /\ Clinical.type (Clinical.classifyMedicalImageClinical
                      (Clinical.clinicalAnalyses greySquare "head_scan.png" 2 2))
     = brain_mri
  /\ Clinical.imageType report = brain_mri
  /\ Clinical.urgency report = low.
Proof.
  split.
  - vm_compute. repeat split; reflexivity.
  - apply (brain_rule_and_keyword_select_brain_mri greySquare "head_scan.png" 2 2);
      vm_compute; reflexivity.
Defined.


(** ** The reports *)

(** The report of the perfect profile keeps five modalities (brain MRI,
    chest X-ray, CT scan, bone X-ray, ultrasound) with low urgency and turns
    the four others into ['unknown'] with medium urgency and no sub-type; its
    urgency is never high, its confidence lies between 75 and 98, and its
    anatomical region and imaging modality are those of the selected
    modality, never the strings for an unknown one. *)
Theorem perfect_report_shape (a : Perfect.Analyses) (file_name : string) :
  let c := Perfect.classifyMedicalImagePerfect a in
  let r := PerfectReport.generatePerfectDiagnosis c file_name in
  PerfectReport.imageType r
  = match Perfect.type c with
    | brain_mri => brain_mri
    | chest_xray => chest_xray
    | ct_scan => ct_scan
    | bone_xray => bone_xray
    | ultrasound => ultrasound
    | abdominal_ct | mammography | dental_xray | spine_xray | unknown => unknown
    end
  /\ PerfectReport.urgency r
     = match PerfectReport.imageType r with unknown => medium | _ => low end
  /\ (PerfectReport.subType r = None <-> PerfectReport.imageType r = unknown)
  /\ (75 <= PerfectReport.reportedConfidence r <= 98)%Z
  /\ PerfectReport.anatomicalRegion r <> "Unspecified anatomical region"
  /\ PerfectReport.imagingModality r <> "Unknown imaging modality".
Proof.
  intros c r.
  assert (B : 75 <= Perfect.confidence c <= 98) by (apply clamp_band; discriminate).
  assert (R : (75 <= Math_round (Perfect.confidence c) <= 98)%Z)
    by (apply Math_round_band; exact B).
  pose proof (perfect_type_is_a_key a) as K. fold c in K.
  unfold r, PerfectReport.generatePerfectDiagnosis; cbv zeta.
  destruct (Perfect.type c);
    cbn [PerfectReport.imageType PerfectReport.urgency PerfectReport.subType
         PerfectReport.reportedConfidence PerfectReport.anatomicalRegion
         PerfectReport.imagingModality
         PerfectReport.getAnatomicalRegionPerfect
         PerfectReport.getImagingModalityPerfect];
    repeat split; try lia; try reflexivity; try discriminate;
    try (intro H; discriminate H);
    exfalso; cbn in K; intuition discriminate.
Qed.

(** The technical details of the clinical report name the anatomical region
    and the imaging modality of the modality the ensemble selected, never
    the strings for an unknown one, also when the report itself says
    ['unknown']; the list of detection methods has five entries, or ten for
    a chest X-ray, a brain MRI or a CT scan. *)
Theorem clinical_technical_details_name_the_selection (a : Clinical.Analyses) :
  let c := Clinical.classifyMedicalImageClinical a in
  let td := ClinicalReport.technicalDetails c in
  ClinicalReport.anatomicalRegion td <> "Unspecified anatomical region"
  /\ ClinicalReport.imagingModality td <> "Unknown imaging modality"
  /\ length (ClinicalReport.detectionMethods td)
     = match Clinical.type c with
       | chest_xray | brain_mri | ct_scan => 10%nat
       | _ => 5%nat
       end.
Proof.
  intros c td.
  pose proof (clinical_type_is_a_key a) as K. fold c in K.
  unfold td, ClinicalReport.technicalDetails; cbv zeta.
  cbn [ClinicalReport.anatomicalRegion ClinicalReport.imagingModality
       ClinicalReport.detectionMethods].
  destruct (Clinical.type c);
    cbn [ClinicalReport.getClinicalAnatomicalRegion
         ClinicalReport.getClinicalImagingModality
         ClinicalReport.getClinicalDetectionMethods length app];
    repeat split; try reflexivity; try discriminate;
    exfalso; cbn in K; intuition discriminate.
Qed.

Lemma Math_round_percent (q : Q) : 0 <= q <= 1 -> (0 <= Math_round (q * 100) <= 100)%Z.
Proof.
  intros [H0 H1]. apply Math_round_band.
  change (inject_Z 0) with 0. change (inject_Z 100) with 100. split; lra.
Qed.

(** On a buffer with at least one pixel the five analysis metrics of the
    clinical report are integers: the brightness between 0 and 255, the
    contrast, symmetry, edge density and texture complexity between 0 and
    100. *)
Theorem clinical_metrics_are_percentages
    (pixels : PixelBuffer) (file_name : string) (width height : Z) :
  pixels <> [] ->
  let m := ClinicalReport.analysisMetrics
             (ClinicalReport.technicalDetails
                (Clinical.classifyMedicalImageClinical
                   (Clinical.clinicalAnalyses pixels file_name width height))) in
  (exists z, ClinicalReport.brightnessMetric m = Fin (inject_Z z) /\ (0 <= z <= 255)%Z)
  /\ (0 <= ClinicalReport.contrastMetric m <= 100)%Z
  /\ (0 <= ClinicalReport.symmetryMetric m <= 100)%Z
  /\ (exists z, ClinicalReport.edgeDensityMetric m = Fin (inject_Z z)
                /\ (0 <= z <= 100)%Z)
  /\ (0 <= ClinicalReport.textureComplexityMetric m <= 100)%Z.
Proof.
  intro Hne. cbv zeta.
  unfold ClinicalReport.technicalDetails, Clinical.classifyMedicalImageClinical,
    Clinical.clinicalAnalyses; cbv zeta.
  cbn [ClinicalReport.analysisMetrics ClinicalReport.brightnessMetric
       ClinicalReport.contrastMetric ClinicalReport.symmetryMetric
       ClinicalReport.edgeDensityMetric ClinicalReport.textureComplexityMetric
       Clinical.analyses Clinical.visual Clinical.structural Clinical.texture].
  destruct (visualCore_bounded 50 30 pixels Hne) as (B & E & _).
  cbv zeta in B, E.
  change (Clinical.visual_core (Clinical.performAdvancedVisualAnalysis pixels width height))
    with (visualCore 50 30 pixels).
  destruct (brightness (visualCore 50 30 pixels)) as [b| | |]; try contradiction.
  destruct (edgeDensity (visualCore 50 30 pixels)) as [e| | |]; try contradiction.
  cbn [num_in] in B, E. cbn [js_round js_mul].
  split; [eexists; split; [reflexivity | apply Math_round_band; exact B]|].
  split; [apply Math_round_percent, contrastOfHistogram_range|].
  split; [apply Math_round_percent, bilateralSymmetryWith_range; reflexivity|].
  split; [eexists; split; [reflexivity | apply Math_round_percent; lra]|].
  apply Math_round_percent.
  apply (textureWith_bounds 2 pixels width height). reflexivity.
Qed.

Lemma clinical_metrics_are_percentages_witness :
  stripes <> []
  /\ (let m := ClinicalReport.analysisMetrics
                 (ClinicalReport.technicalDetails
                    (Clinical.classifyMedicalImageClinical
                       (Clinical.clinicalAnalyses stripes photo 4 3))) in
      (exists z, ClinicalReport.brightnessMetric m = Fin (inject_Z z)
                 /\ (0 <= z <= 255)%Z)
      /\ (0 <= ClinicalReport.contrastMetric m <= 100)%Z
      /\ (0 <= ClinicalReport.symmetryMetric m <= 100)%Z
      /\ (exists z, ClinicalReport.edgeDensityMetric m = Fin (inject_Z z)
                    /\ (0 <= z <= 100)%Z)
      /\ (0 <= ClinicalReport.textureComplexityMetric m <= 100)%Z).
Proof.
  split; [discriminate|].
  apply (clinical_metrics_are_percentages stripes photo 4 3). discriminate.
Defined.

(** ** Keywords in file names *)

Lemma prefix_append (a b : string) : String.prefix a (String.append a b) = true.
Proof.
  induction a as [|c a IH]; cbn [String.append String.prefix].
  - destruct b; reflexivity.
  - destruct (ascii_dec c c) as [_ | N]; [exact IH | congruence].
Qed.

Lemma includes_append (needle before after : string) :
  includes needle (String.append before (String.append needle after)) = true.
Proof.
  induction before as [|c before IH]; cbn [String.append].
  - destruct (String.append needle after) eqn:E; cbn [includes];
      rewrite <- E, prefix_append; reflexivity.
  - cbn [includes]. rewrite IH. apply orb_true_r.
Qed.

Lemma lower_append (a b : string) :
  lower (String.append a b) = String.append (lower a) (lower b).
Proof.
  induction a as [|c a IH]; cbn [String.append lower]; [reflexivity|].
  rewrite IH. reflexivity.
Qed.

(** A file name that contains, anywhere and in any letter case, one of the
    alternatives of a pattern of the clinical table gets the full weight of
    that pattern, whatever surrounds the keyword. *)
Theorem keyword_anywhere_scores_its_weight
    (key : Clinical.PatternKey) (alternatives conds : list string) (weight : Q)
    (keyword before word after : string) :
  In (key, (alternatives, weight, conds)) Clinical.clinicalPatterns ->
  In keyword alternatives ->
  lower word = keyword ->
  In (key, Clinical.mkFilenameScore weight conds)
     (Clinical.analyzeMedicalFilename
        (String.append before (String.append word after))).
Proof.
  intros Hentry Hkw Hword. unfold Clinical.analyzeMedicalFilename.
  apply in_map_iff. exists (key, (alternatives, weight, conds)).
  split; [|exact Hentry].
  assert (T : test_alternatives alternatives
                (String.append before (String.append word after)) = true).
  { unfold test_alternatives. apply existsb_exists. exists keyword.
    split; [exact Hkw|].
    rewrite !lower_append, Hword. apply includes_append. }
  rewrite T. reflexivity.
Qed.

Lemma keyword_anywhere_scores_its_weight_witness :
  (In (Clinical.ct,
       (["ct"; "computed"; "tomography"; "scan"; "axial"; "coronal"; "sagittal"], 0.9,
        ["normal"; "abnormal"; "mass"; "inflammation"])) Clinical.clinicalPatterns
   /\ In "ct" ["ct"; "computed"; "tomography"; "scan"; "axial"; "coronal"; "sagittal"]
   /\ lower "Ct" = "ct")
  /\ In (Clinical.ct,
         Clinical.mkFilenameScore 0.9 ["normal"; "abnormal"; "mass"; "inflammation"])
        (Clinical.analyzeMedicalFilename
           (String.append "Family_pi" (String.append "Ct" "ure.JPG"))).
Proof.
  assert (H1 : In (Clinical.ct,
                   (["ct"; "computed"; "tomography"; "scan"; "axial"; "coronal";
                     "sagittal"], 0.9,
                    ["normal"; "abnormal"; "mass"; "inflammation"]))
                  Clinical.clinicalPatterns).
  { right. right. left. reflexivity. }
  assert (H2 : In "ct" ["ct"; "computed"; "tomography"; "scan"; "axial"; "coronal";
                        "sagittal"]) by (left; reflexivity).
  split.
  - split; [exact H1 | split; [exact H2 | reflexivity]].
  - apply (keyword_anywhere_scores_its_weight Clinical.ct _ _ 0.9 "ct" "Family_pi" "Ct"
             "ure.JPG" H1 H2). reflexivity.
Defined.

(** ** The findings of a chest report *)

Lemma topPathologies_scores (pixels : PixelBuffer) (width height : Z)
    (visualAnalysis : Clinical.VisualAnalysis) :
  Forall (fun e => 0.3 < snd e <= 0.9)
         (Clinical.topPathologies
            (Clinical.detectPathologies pixels width height visualAnalysis)).
Proof.
  unfold Clinical.detectPathologies; cbv zeta. cbn [Clinical.topPathologies].
  change (fun a b : Clinical.Pathology * Q => snd b - snd a)
    with (by_key_desc (@snd Clinical.Pathology Q)).
  destruct (scorePathologies_bounded visualAnalysis) as [_ B]. cbv zeta in B.
  rewrite Forall_forall in B.
  apply Forall_firstn, Forall_forall. intros e He.
  apply sort_by_In, filter_In in He. destruct He as [Hin H3].
  apply Qgtb_true in H3. split; [exact H3 | apply B, Hin].
Qed.

(** When the ensemble selects ['chest-xray'] the clinical report lists one
    finding for each of the top pathologies, at most five, each with a
    probability from 30 to 90 percent. *)
Theorem chest_report_findings
    (pixels : PixelBuffer) (file_name : string) (width height : Z) :
  let a := Clinical.clinicalAnalyses pixels file_name width height in
  let report := Clinical.performClinicalImageAnalysis pixels file_name width height in
  Clinical.type (Clinical.classifyMedicalImageClinical a) = chest_xray ->
  map Clinical.condition (Clinical.clinicalPathologies report)
  = map (fun e => Clinical.Detected (fst e))
        (Clinical.topPathologies (Clinical.pathology a))
  /\ (length (Clinical.clinicalPathologies report) <= 5)%nat
  /\ Forall (fun f => (30 <= Clinical.probability f <= 90)%Z)
            (Clinical.clinicalPathologies report).
Proof.
  intros a report Ht.
  unfold report, Clinical.performClinicalImageAnalysis,
    Clinical.generateClinicalDiagnosis; cbv zeta. fold a. rewrite Ht.
  cbn [Clinical.clinicalPathologies].
  change (Clinical.analyses (Clinical.classifyMedicalImageClinical a)) with a.
  assert (S : Forall (fun e => 0.3 < snd e <= 0.9)
                     (Clinical.topPathologies (Clinical.pathology a)))
    by apply topPathologies_scores.
  assert (L : (length (Clinical.topPathologies (Clinical.pathology a)) <= 5)%nat)
    by apply firstn_le_length.
  split; [|split].
  - rewrite map_map. reflexivity.
  - rewrite length_map. exact L.
  - apply Forall_map. apply Forall_impl with (2 := S).
    intros e [H0 H1]. cbn [Clinical.probability]. apply Math_round_band.
    change (inject_Z 30) with 30. change (inject_Z 90) with 90. split; lra.
Qed.

Lemma chest_report_findings_witness :
  let a := Clinical.clinicalAnalyses stripes photo 4 3 in
  let report := Clinical.performClinicalImageAnalysis stripes photo 4 3 in
  Clinical.type (Clinical.classifyMedicalImageClinical a) = chest_xray
  /\ map Clinical.condition (Clinical.clinicalPathologies report)
     = map (fun e => Clinical.Detected (fst e))
           (Clinical.topPathologies (Clinical.pathology a))
  /\ (length (Clinical.clinicalPathologies report) <= 5)%nat
  /\ Forall (fun f => (30 <= Clinical.probability f <= 90)%Z)
            (Clinical.clinicalPathologies report).
Proof.
  split.
  - vm_compute. reflexivity.
  - apply (chest_report_findings stripes photo 4 3). vm_compute. reflexivity.
Defined.

(** * Binary64: rounding and the band ratios *)

(** ** The error of one rounding *)

Lemma pow2_pos (e : Z) : 0 < 2 ^ e.
Proof. apply Qpower_0_lt. reflexivity. Qed.

Lemma exponent_le (q : Q) : 0 < q -> 2 ^ exponent q <= q.
Proof.
  intro Hq. unfold exponent; cbv zeta.
  set (a := Qnum q). set (b := Qden q).
  destruct (Qle_bool _ q) eqn:E; [apply Qle_bool_iff, E|].
  assert (Ha : (0 < a)%Z) by (unfold a; destruct q as [n d]; unfold Qlt in Hq; simpl in *; lia).
  pose proof (Z.log2_spec a Ha) as [La _].
  pose proof (Z.log2_spec (Zpos b) (Pos2Z.is_pos b)) as [_ Lb].
  pose proof (Z.log2_nonneg a) as Na. pose proof (Z.log2_nonneg (Zpos b)) as Nb.
  replace (Z.log2 a - Z.log2 (Z.pos b) - 1)%Z
    with (Z.log2 a - Z.succ (Z.log2 (Z.pos b)))%Z by lia.
  rewrite Qpower_minus by discriminate.
  change 2 with (inject_Z 2). rewrite <- !Zpower_Qpower by lia.
  set (x := (2 ^ Z.log2 a)%Z) in *. set (y := (2 ^ Z.succ (Z.log2 (Z.pos b)))%Z) in *.
  assert (Hy : 0 < inject_Z y) by (rewrite <- (Zlt_Qlt 0); lia).
  apply Qle_shift_div_r; [exact Hy|].
  assert (Eq : q == inject_Z a / inject_Z (Zpos b)).
  { unfold a, b. destruct q as [n d]. cbn [Qnum Qden]. rewrite Qmake_Qdiv. reflexivity. }
  rewrite Eq.
  assert (Hb : 0 < inject_Z (Zpos b)) by reflexivity.
  assert (X : inject_Z x <= inject_Z a) by (rewrite <- Zle_Qle; exact La).
  assert (Y : inject_Z (Zpos b) <= inject_Z y) by (rewrite <- Zle_Qle; lia).
  assert (A0 : 0 < inject_Z a) by (rewrite <- (Zlt_Qlt 0); exact Ha).
  apply Qle_trans with (inject_Z a); [exact X|].
  apply Qle_trans with (inject_Z a / inject_Z (Z.pos b) * inject_Z (Z.pos b)).
  - apply Qle_lteq. right. field. intro K. rewrite K in Hb. discriminate Hb.
  - apply Qmult_le_l; [|exact Y].
    apply Qlt_shift_div_l; [exact Hb | lra].
Qed.

Lemma nearestEven_error (y : Q) : Qabs (inject_Z (nearestEven y) - y) <= 1 # 2.
Proof.
  unfold nearestEven; cbv zeta.
  pose proof (Qfloor_le y) as F0. pose proof (Qlt_floor y) as F1.
  rewrite inject_Z_plus in F1. change (inject_Z 1) with 1 in F1.
  set (f := Qfloor y) in *.
  apply Qabs_Qle_condition.
  destruct (Qcompare (y - inject_Z f) (1 # 2)) eqn:C.
  - apply Qeq_alt in C. destruct (Z.even f).
    + split; lra.
    + rewrite inject_Z_plus. change (inject_Z 1) with 1. split; lra.
  - apply Qlt_alt in C. split; lra.
  - apply Qgt_alt in C. rewrite inject_Z_plus. change (inject_Z 1) with 1. split; lra.
Qed.

Lemma round53_pos_error (q : Q) :
  0 < q -> Qabs (round53_pos q - q) <= q * unitRoundoff.
Proof.
  intro Hq. unfold round53_pos; cbv zeta.
  pose proof (exponent_le q Hq) as He.
  set (e := (exponent q - 52)%Z).
  assert (Hp : 2 ^ exponent q == 2 ^ e * 2 ^ 52).
  { replace (exponent q) with (e + 52)%Z at 1 by (unfold e; lia).
    apply Qpower_plus. discriminate. }
  pose proof (pow2_pos e) as Pe.
  set (p := 2 ^ e) in *.
  change (2 ^ 52) with (inject_Z 4503599627370496) in Hp.
  set (y := q / p).
  pose proof (nearestEven_error y) as Hn.
  set (n := inject_Z (nearestEven y)) in *.
  apply Qabs_Qle_condition in Hn. destruct Hn as [N0 N1].
  assert (Ey : q == y * p) by (unfold y; field; lra).
  assert (Hy : inject_Z 4503599627370496 <= y).
  { unfold y. apply Qle_shift_div_l; [exact Pe|]. rewrite Hp in He. lra. }
  change (inject_Z 4503599627370496) with 4503599627370496 in Hy.
  apply Qabs_Qle_condition. unfold unitRoundoff.
  assert (M0 : (n - y) * p <= (1 # 2) * p) by (apply Qmult_le_compat_r; lra).
  assert (M1 : (- (1 # 2)) * p <= (n - y) * p) by (apply Qmult_le_compat_r; lra).
  assert (M2 : 4503599627370496 * p <= y * p) by (apply Qmult_le_compat_r; lra).
  split.
  - setoid_replace (n * p - q) with ((n - y) * p) by (rewrite Ey; ring). 
    rewrite Ey. lra.
  - setoid_replace (n * p - q) with ((n - y) * p) by (rewrite Ey; ring).
    rewrite Ey. lra.
Qed.

Lemma round53_error (q : Q) : 0 <= q -> Qabs (round53 q - q) <= q * unitRoundoff.
Proof.
  intro Hq. unfold round53. destruct q as [n d]. cbn [Qnum].
  destruct n as [|n|n].
  - vm_compute. discriminate.
  - apply round53_pos_error. reflexivity.
  - exfalso. unfold Qle in Hq. simpl in Hq. lia.
Qed.

(** The exponent is the one of the binade of [q], so that [round53] keeps 53
    significant bits. *)
Lemma exponent_spec (q : Q) :
  0 < q -> 2 ^ exponent q <= q /\ q < 2 ^ (exponent q + 1).
Proof.
  intro Hq. split; [apply exponent_le, Hq|].
  unfold exponent; cbv zeta.
  set (a := Qnum q). set (b := Qden q).
  destruct (Qle_bool _ q) eqn:E.
  - assert (Ha : (0 < a)%Z)
      by (unfold a; destruct q as [n d]; unfold Qlt in Hq; simpl in *; lia).
    pose proof (Z.log2_spec a Ha) as [_ La].
    pose proof (Z.log2_spec (Zpos b) (Pos2Z.is_pos b)) as [Lb _].
    pose proof (Z.log2_nonneg a) as Na. pose proof (Z.log2_nonneg (Zpos b)) as Nb.
    replace (Z.log2 a - Z.log2 (Z.pos b) + 1)%Z
      with (Z.succ (Z.log2 a) - Z.log2 (Z.pos b))%Z by lia.
    rewrite Qpower_minus by discriminate.
    change 2 with (inject_Z 2). rewrite <- !Zpower_Qpower by lia.
    set (x := (2 ^ Z.succ (Z.log2 a))%Z) in *. set (y := (2 ^ Z.log2 (Z.pos b))%Z) in *.
    assert (Hy : 0 < inject_Z y) by (rewrite <- (Zlt_Qlt 0); lia).
    apply Qlt_shift_div_l; [exact Hy|].
    assert (Eq : q == inject_Z a / inject_Z (Zpos b)).
    { unfold a, b. destruct q as [n d]. cbn [Qnum Qden]. rewrite Qmake_Qdiv. reflexivity. }
    rewrite Eq.
    assert (Hb : 0 < inject_Z (Zpos b)) by reflexivity.
    assert (X : inject_Z a < inject_Z x) by (rewrite <- Zlt_Qlt; exact La).
    assert (Y : inject_Z y <= inject_Z (Zpos b)) by (rewrite <- Zle_Qle; lia).
    assert (A0 : 0 < inject_Z a) by (rewrite <- (Zlt_Qlt 0); exact Ha).
    apply Qle_lt_trans with (inject_Z a); [|exact X].
    apply Qle_trans with (inject_Z a / inject_Z (Z.pos b) * inject_Z (Z.pos b)).
    + apply Qmult_le_l; [|exact Y]. apply Qlt_shift_div_l; [exact Hb | lra].
    + apply Qle_lteq. right. field. intro K. rewrite K in Hb. discriminate Hb.
  - replace (Z.log2 a - Z.log2 (Z.pos b) - 1 + 1)%Z
      with (Z.log2 a - Z.log2 (Z.pos b))%Z by lia.
    apply Qnot_le_lt. intro K. apply Qle_bool_iff in K. congruence.
Qed.

(** ** The band ratios *)

Lemma bandRatios64_rounds_visualCore (darkBelow edgeAbove : Z) (pixels : PixelBuffer) :
  let v := visualCore darkBelow edgeAbove pixels in
  bandRatios64 darkBelow edgeAbove pixels
  = mkBands (toDouble (darkRatio v)) (toDouble (brightRatio v)) (toDouble (mediumRatio v)).
Proof. reflexivity. Qed.

Lemma bandRatios64_near_one (darkBelow edgeAbove : Z) (pixels : PixelBuffer) :
  pixels <> [] -> bandsNearOne (bandRatios64 darkBelow edgeAbove pixels).
Proof.
  intro Hne. rewrite bandRatios64_rounds_visualCore; cbv zeta.
  pose proof (visualCore_bounded darkBelow edgeAbove pixels Hne) as B.
  pose proof (visualCore_bands darkBelow edgeAbove pixels Hne) as S.
  cbv zeta in B, S. destruct B as (_ & _ & Bd & Bb & Bm).
  destruct (darkRatio _) as [xd| | |]; try contradiction.
  destruct (brightRatio _) as [xb| | |]; try contradiction.
  destruct (mediumRatio _) as [xm| | |]; try contradiction.
  cbn [num_in js_add num_eq] in Bd, Bb, Bm, S.
  unfold bandsNearOne, sumOfBands, double_add.
  cbn [toDouble darkRatio64 brightRatio64 mediumRatio64 js_add num_in].
  assert (Ed := round53_error xd (proj1 Bd)).
  assert (Eb := round53_error xb (proj1 Bb)).
  assert (Em := round53_error xm (proj1 Bm)).
  set (rd := round53 xd) in *. set (rb := round53 xb) in *. set (rm := round53 xm) in *.
  apply Qabs_Qle_condition in Ed, Eb, Em. unfold unitRoundoff in *.
  destruct Bd as [Bd0 Bd1], Bb as [Bb0 Bb1], Bm as [Bm0 Bm1].
  destruct Ed as [Ed0 Ed1], Eb as [Eb0 Eb1], Em as [Em0 Em1].
  assert (T1 : 0 <= rd + rb) by lra.
  assert (E1 := round53_error (rd + rb) T1).
  set (s1 := round53 (rd + rb)) in *.
  apply Qabs_Qle_condition in E1. unfold unitRoundoff in E1. destruct E1 as [E10 E11].
  assert (T2 : 0 <= s1 + rm) by lra.
  assert (E2 := round53_error (s1 + rm) T2).
  set (s2 := round53 (s1 + rm)) in *.
  apply Qabs_Qle_condition in E2. unfold unitRoundoff in E2. destruct E2 as [E20 E21].
  split.
  - exists rd, rb, rm. repeat split. apply Qabs_Qle_condition. split; lra.
  - apply Qabs_Qle_condition. split; lra.
Qed.

(** C6, as the specification states it, fails in the doubles of the source:
    on a row of one dark, four bright and one medium pixel the ratios are the
    doubles nearest to 1/6, 4/6 and 1/6, and [darkRatio + brightRatio +
    mediumRatio] is 1 - 2^-53 (0.9999999999999999), not 1; the three doubles
    added exactly do not give 1 either. *)
Lemma six_pixel_band_ratios_miss_one :
  let r := clinicalBandRatios64 sixPixels 6 1 in
  sixPixels <> []
  /\ num_eq (sumOfBands r) (Fin (9007199254740991 # 9007199254740992))
  /\ ~ num_eq (sumOfBands r) (Fin 1)
  /\ ~ num_eq (js_add (js_add (darkRatio64 r) (brightRatio64 r)) (mediumRatio64 r))
              (Fin 1).
Proof.
  split; [discriminate|]. vm_compute.
  split; [reflexivity|]. split; intro H; discriminate H.
Qed.

(** C6, amended. On a buffer with at least one pixel the three band
    fractions of the visual extractor are doubles whose exact sum differs
    from 1 by at most 2^-53 and whose sum [darkRatio + brightRatio +
    mediumRatio] in binary64 differs from 1 by at most 2^-51, in both
    profiles: every pixel is counted in exactly one band, each fraction is
    its band's count over the number of pixels, rounded once, and each of the
    two additions rounds once more. *)
Theorem band_ratios_sum_to_one_within_rounding
    (pixels : PixelBuffer) (width height : Z) :
  pixels <> [] ->
  bandsNearOne (clinicalBandRatios64 pixels width height)
  /\ bandsNearOne (perfectBandRatios64 pixels width height).
Proof.
  intro Hne. split.
  - apply (bandRatios64_near_one 50 30 pixels Hne).
  - apply (bandRatios64_near_one 60 25 pixels Hne).
Qed.

Lemma band_ratios_sum_to_one_within_rounding_witness :
  [black; white; mkPixel x64 x64 x64 xff] <> []
  /\ bandsNearOne (clinicalBandRatios64 [black; white; mkPixel x64 x64 x64 xff] 3 1)
  /\ bandsNearOne (perfectBandRatios64 [black; white; mkPixel x64 x64 x64 xff] 3 1).
Proof.
  split.
  - discriminate.
  - apply (band_ratios_sum_to_one_within_rounding
             [black; white; mkPixel x64 x64 x64 xff] 3 1).
    discriminate.
Defined.

(** * The visual extractor and the buffer of zero pixels *)



